(** * cloudtrail-logs: the retrieval / filter / sink pipeline

    A shallow embedding of the Go sources
      - internal/monitor/monitor.go  (matchesFilter, MonitorKMSEvents)
      - internal/timeutil/timeutil.go (RelativeTimeRange, CustomTimeRange,
        ValidateAndParseTimeRange)
      - internal/writer/writer.go    (WriteEvent, GetCurrentFile)
    together with the properties the specification states about them. *)

From Stdlib Require Import ZArith List String Ascii Bool Lia.
Import ListNotations.
Local Open Scope string_scope.

(** ** Go strings *)

Module GoStrings.

(** [strings.HasPrefix]. *)
Fixpoint HasPrefix (s p : string) : bool :=
  match p with
  | EmptyString => true
  | String c p' =>
      match s with
      | EmptyString => false
      | String d s' => Ascii.eqb c d && HasPrefix s' p'
      end
  end.

(** [strings.Contains s substr]: [substr] occurs at some offset of [s]. *)
Fixpoint Contains (s substr : string) : bool :=
  HasPrefix s substr ||
  match s with
  | EmptyString => false
  | String _ s' => Contains s' substr
  end.

(** [s != ""] *)
Definition nonEmpty (s : string) : bool :=
  match s with
  | EmptyString => false
  | String _ _ => true
  end.

(** ASCII lower-casing: what [strings.ToLower] does on ASCII text. *)
Definition lowerAscii (c : ascii) : ascii :=
  let n := nat_of_ascii c in
  if (65 <=? n)%nat && (n <=? 90)%nat then ascii_of_nat (n + 32) else c.

Fixpoint ToLowerASCII (s : string) : string :=
  match s with
  | EmptyString => EmptyString
  | String c s' => String (lowerAscii c) (ToLowerASCII s')
  end.

End GoStrings.
Import GoStrings.

(** ** Decoded JSON documents

    [json.Unmarshal] into a [map[string]interface{}] yields a tree of
    untyped values.  Objects are kept as association lists; a lookup
    returns the first binding of the key. *)

#[local] Set Warnings "-register-all".
Inductive Value : Type :=
| VNull
| VBool (b : bool)
| VNumber (literal : string)
| VString (s : string)
| VArray (items : list Value)
| VObject (fields : list (string * Value)).

(** The decoded detail document (a nil map behaves as the empty one). *)
Definition Document := list (string * Value).

Fixpoint lookup (key : string) (doc : Document) : option Value :=
  match doc with
  | [] => None
  | (k, v) :: rest => if String.eqb k key then Some v else lookup key rest
  end.

(** [v, ok := m[key].(string)] *)
Definition asString (v : option Value) : string * bool :=
  match v with
  | Some (VString s) => (s, true)
  | _ => ("", false)
  end.

(** [m, ok := m[key].(map[string]interface{})] *)
Definition asObject (v : option Value) : Document * bool :=
  match v with
  | Some (VObject m) => (m, true)
  | _ => ([], false)
  end.

(** ** Events (cloudtrail/types.Event) *)

(** Instants, in nanoseconds since the Unix epoch. *)
Definition Time := Z.

Record Resource : Type := mkResource {
  ResourceName : option string;
  ResourceType : option string
}.

(** Pointer fields are options.  [Resources] is a slice: [None] is the
    nil slice.  [EventTime] is dereferenced without a nil check by every
    consumer in the repository, so the model carries events that have
    one. *)
Record Event : Type := mkEvent {
  EventName : option string;
  EventTime : Time;
  EventSource : option string;
  Username : option string;
  Resources : option (list Resource);
  CloudTrailEvent : option string
}.

(** [for _, r := range event.Resources]: a nil slice ranges over nothing. *)
Definition rangeResources (e : Event) : list Resource :=
  match Resources e with
  | Some rs => rs
  | None => []
  end.

Definition SafeString (s : option string) : string :=
  match s with
  | None => "N/A"
  | Some v => v
  end.

(** ** internal/monitor: the filter predicate *)

(** [EventNameF] is the field [EventName] of the source; the plain name
    is the event's. *)
Record FilterOptions : Type := mkFilter {
  KeyID : string;
  EventNameF : string;
  UserName : string;
  Operation : string;
  ErrorsOnly : bool;
  SuccessOnly : bool
}.

Section Filter.

(** [json.Unmarshal([]byte(raw), &eventDetails)]: [None] when [err != nil]. *)
Variable Unmarshal : string -> option Document.
(** [strings.ToLower]. *)
Variable ToLower : string -> string.

(** The resource loop of [matchesFilter]: some resource has both fields,
    type ["AWS::KMS::Key"], and a name containing the key. *)
Definition resourceIsKey (keyID : string) (r : Resource) : bool :=
  match ResourceType r, ResourceName r with
  | Some ty, Some nm => String.eqb ty "AWS::KMS::Key" && Contains nm keyID
  | _, _ => false
  end.

(** The detail check of the key filter: [requestParameters.keyId] is a
    string containing the key. *)
Definition detailHasKey (keyID : string) (e : Event) : bool :=
  match CloudTrailEvent e with
  | None => false
  | Some raw =>
      match Unmarshal raw with
      | None => false
      | Some eventDetails =>
          let '(reqParams, ok) := asObject (lookup "requestParameters" eventDetails) in
          if ok then
            let '(keyArn, exists_) := asString (lookup "keyId" reqParams) in
            exists_ && Contains keyArn keyID
          else false
      end
  end.

Definition isKMSMatch (keyID : string) (e : Event) : bool :=
  existsb (resourceIsKey keyID) (rangeResources e) || detailHasKey keyID e.

(** The last block of [matchesFilter], entered when either flag is set. *)
Definition statusCheck (e : Event) (f : FilterOptions) : bool :=
  match CloudTrailEvent e with
  | None => true
  | Some raw =>
      match Unmarshal raw with
      | None => true
      | Some eventDetails =>
          let '(errorCode, hasError) := asString (lookup "errorCode" eventDetails) in
          if ErrorsOnly f && negb hasError then false
          else if SuccessOnly f && hasError && nonEmpty errorCode then false
          else true
      end
  end.

Definition matchesFilter (e : Event) (f : FilterOptions) : bool :=
  if nonEmpty (KeyID f) && negb (isKMSMatch (KeyID f) e) then false
  else if nonEmpty (EventNameF f) &&
          match EventName e with
          | None => true
          | Some n => negb (Contains (ToLower n) (ToLower (EventNameF f)))
          end then false
  else if nonEmpty (UserName f) &&
          match Username e with
          | None => true
          | Some u => negb (Contains (ToLower u) (ToLower (UserName f)))
          end then false
  else if nonEmpty (Operation f) &&
          match EventName e with
          | None => true
          | Some n => negb (Contains n (Operation f))
          end then false
  else if ErrorsOnly f || SuccessOnly f then statusCheck e f
  else true.

(** What the specification calls "the detail document contains a
    non-empty errorCode": the raw detail is present, decodes, and binds
    [errorCode] to a non-empty string. *)
Definition hasNonEmptyErrorCode (e : Event) : bool :=
  match CloudTrailEvent e with
  | None => false
  | Some raw =>
      match Unmarshal raw with
      | None => false
      | Some eventDetails =>
          let '(errorCode, hasError) := asString (lookup "errorCode" eventDetails) in
          hasError && nonEmpty errorCode
      end
  end.

(** The five checks of [matchesFilter], one per criterion group. *)
Definition keyOK (e : Event) (k : string) : bool :=
  negb (nonEmpty k) || isKMSMatch k e.

Definition nameOK (e : Event) (n : string) : bool :=
  negb (nonEmpty n) ||
  match EventName e with
  | None => false
  | Some x => Contains (ToLower x) (ToLower n)
  end.

Definition userOK (e : Event) (u : string) : bool :=
  negb (nonEmpty u) ||
  match Username e with
  | None => false
  | Some x => Contains (ToLower x) (ToLower u)
  end.

Definition operationOK (e : Event) (o : string) : bool :=
  negb (nonEmpty o) ||
  match EventName e with
  | None => false
  | Some x => Contains x o
  end.

Definition statusOK (e : Event) (errorsOnly successOnly : bool) : bool :=
  match CloudTrailEvent e with
  | None => true
  | Some raw =>
      match Unmarshal raw with
      | None => true
      | Some d =>
          let '(code, has) := asString (lookup "errorCode" d) in
          negb (errorsOnly && negb has) &&
          negb (successOnly && has && nonEmpty code)
      end
  end.

End Filter.

(** The criteria with nothing set. *)
Definition unfiltered : FilterOptions := mkFilter "" "" "" "" false false.
Definition errorsOnlyF : FilterOptions := mkFilter "" "" "" "" true false.
Definition successOnlyF : FilterOptions := mkFilter "" "" "" "" false true.

(** [f'] is [f] with one more criterion enabled. *)
Inductive enablesOne (f : FilterOptions) : FilterOptions -> Prop :=
| en_key k : KeyID f = "" ->
    enablesOne f (mkFilter k (EventNameF f) (UserName f) (Operation f) (ErrorsOnly f) (SuccessOnly f))
| en_event n : EventNameF f = "" ->
    enablesOne f (mkFilter (KeyID f) n (UserName f) (Operation f) (ErrorsOnly f) (SuccessOnly f))
| en_user u : UserName f = "" ->
    enablesOne f (mkFilter (KeyID f) (EventNameF f) u (Operation f) (ErrorsOnly f) (SuccessOnly f))
| en_operation o : Operation f = "" ->
    enablesOne f (mkFilter (KeyID f) (EventNameF f) (UserName f) o (ErrorsOnly f) (SuccessOnly f))
| en_errors : ErrorsOnly f = false ->
    enablesOne f (mkFilter (KeyID f) (EventNameF f) (UserName f) (Operation f) true (SuccessOnly f))
| en_success : SuccessOnly f = false ->
    enablesOne f (mkFilter (KeyID f) (EventNameF f) (UserName f) (Operation f) (ErrorsOnly f) true).

(** ** Instants and durations (package time) *)

Local Open Scope Z_scope.

Definition Duration := Z.

Definition Nanosecond : Duration := 1.
Definition Second : Duration := 1000000000.
Definition Minute : Duration := 60 * Second.
Definition Hour : Duration := 60 * Minute.

Definition maxDuration : Duration := 2 ^ 63 - 1.
Definition minDuration : Duration := - 2 ^ 63.

(** int64 wrap-around, for [Duration] arithmetic. *)
Definition wrap64 (x : Z) : Z := (x + 2 ^ 63) mod 2 ^ 64 - 2 ^ 63.

(** [t.Add(d)] *)
Definition Add (t : Time) (d : Duration) : Time := t + d.

(** [t.Sub(u)]: the difference, clamped to the range of [Duration]. *)
Definition Sub (t u : Time) : Duration :=
  let d := t - u in
  if d <? minDuration then minDuration
  else if maxDuration <? d then maxDuration
  else d.

(** *** Civil dates *)

Definition isLeap (year : Z) : bool :=
  (year mod 4 =? 0) && (negb (year mod 100 =? 0) || (year mod 400 =? 0)).

Definition daysIn (month year : Z) : Z :=
  if month =? 2 then (if isLeap year then 29 else 28)
  else if (month =? 4) || (month =? 6) || (month =? 9) || (month =? 11) then 30
  else 31.

(** Days from 1970-01-01 to the civil date [year-month-day] of the
    proleptic Gregorian calendar. *)
Definition daysFromCivil (year month day : Z) : Z :=
  let y := if month <=? 2 then year - 1 else year in
  let era := y / 400 in
  let yoe := y - era * 400 in
  let mp := if 2 <? month then month - 3 else month + 9 in
  let doy := (153 * mp + 2) / 5 + day - 1 in
  let doe := yoe * 365 + yoe / 4 - yoe / 100 + doy in
  era * 146097 + doe - 719468.

(** The civil date of a day number: the inverse direction. *)
Definition civilFromDays (days : Z) : Z * Z * Z :=
  let z := days + 719468 in
  let era := z / 146097 in
  let doe := z - era * 146097 in
  let yoe := (doe - doe / 1460 + doe / 36524 - doe / 146096) / 365 in
  let y := yoe + era * 400 in
  let doy := doe - (365 * yoe + yoe / 4 - yoe / 100) in
  let mp := (5 * doy + 2) / 153 in
  let d := doy - (153 * mp + 2) / 5 + 1 in
  let m := if mp <? 10 then mp + 3 else mp - 9 in
  (if m <=? 2 then y + 1 else y, m, d).

(** [time.Date(year, month, day, hour, min, sec, nsec, time.UTC)] on
    in-range fields. *)
Definition Date (year month day hour min sec nsec : Z) : Time :=
  ((daysFromCivil year month day * 86400 + hour * 3600 + min * 60 + sec)
   * Second + nsec).

(** *** time.Parse for the three layouts of [CustomTimeRange] *)

Definition isDigit (c : ascii) : bool :=
  let n := nat_of_ascii c in (48 <=? n)%nat && (n <=? 57)%nat.

Definition digitVal (c : ascii) : Z := Z.of_nat (nat_of_ascii c) - 48.

(** [getnum(s, fixed)]: one or two leading digits; two are required when
    [fixed]. *)
Definition getnum (s : string) (fixed : bool) : option (Z * string) :=
  match s with
  | String a rest =>
      if isDigit a then
        match rest with
        | String b rest' =>
            if isDigit b then Some (digitVal a * 10 + digitVal b, rest')
            else if fixed then None else Some (digitVal a, rest)
        | EmptyString => if fixed then None else Some (digitVal a, rest)
        end
      else None
  | EmptyString => None
  end.

(** The [stdLongYear] field: exactly four digits. *)
Definition getyear (s : string) : option (Z * string) :=
  match s with
  | String a (String b (String c (String d rest))) =>
      if isDigit a && isDigit b && isDigit c && isDigit d
      then Some (((digitVal a * 10 + digitVal b) * 10 + digitVal c) * 10 + digitVal d, rest)
      else None
  | _ => None
  end.

(** [cutspace]: drop leading spaces. *)
Fixpoint cutspace (s : string) : string :=
  match s with
  | String " "%char rest => cutspace rest
  | _ => s
  end.

(** [skip(value, prefix)] for a one-character literal of the layout.  A
    space of the layout matches any run of spaces of the value (also an
    exhausted value); any other character must match itself. *)
Definition skipChar (value : string) (c : ascii) : option string :=
  if Ascii.eqb c " "%char then
    match value with
    | String d _ => if Ascii.eqb d " "%char then Some (cutspace value) else None
    | EmptyString => Some value
    end
  else
    match value with
    | String d rest => if Ascii.eqb d c then Some rest else None
    | EmptyString => None
    end.

(** The maximal run of leading digits and what follows it. *)
Fixpoint spanDigits (s : string) : list ascii * string :=
  match s with
  | String c rest =>
      if isDigit c then let '(ds, r) := spanDigits rest in (c :: ds, r)
      else ([], s)
  | EmptyString => ([], s)
  end.

(** [parseNanoseconds]: at most nine digits count, scaled to nine. *)
Fixpoint fracNanos (ds : list ascii) (places : nat) : Z :=
  match places with
  | O => 0
  | S p =>
      match ds with
      | [] => 0
      | c :: ds' => digitVal c * 10 ^ Z.of_nat p + fracNanos ds' p
      end
  end.

(** After the seconds field, a layout without fractional seconds still
    accepts a fraction in the value: [.] or [,] followed by digits. *)
Definition getfraction (value : string) : Z * string :=
  match value with
  | String p (String d rest) =>
      if (Ascii.eqb p "."%char || Ascii.eqb p ","%char) && isDigit d then
        let '(ds, r) := spanDigits (String d rest) in (fracNanos ds 9, r)
      else (0, value)
  | _ => (0, value)
  end.

Inductive Layout : Type :=
| LayoutSeconds   (* "2006-01-02 15:04:05" *)
| LayoutMinutes   (* "2006-01-02 15:04" *)
| LayoutDate.     (* "2006-01-02" *)

Definition layouts : list Layout := [LayoutSeconds; LayoutMinutes; LayoutDate].

Definition bind {A B : Type} (x : option A) (k : A -> option B) : option B :=
  match x with
  | Some a => k a
  | None => None
  end.

Notation "' p <- x ;; k" := (bind x (fun p => k))
  (at level 61, p pattern, x at next level, right associativity).

Definition guard (b : bool) : option unit := if b then Some tt else None.

(** The date prefix shared by the three layouts: year, [-], month, [-],
    day; the month is range-checked in place. *)
Definition parseDateFields (value : string) : option (Z * Z * Z * string) :=
  '(year, v) <- getyear value ;;
  'v <- skipChar v "-"%char ;;
  '(month, v) <- getnum v true ;;
  '_ <- guard (negb ((month <=? 0) || (12 <? month))) ;;
  'v <- skipChar v "-"%char ;;
  '(day, v) <- getnum v true ;;
  Some (year, month, day, v).

(** Hour ([15], one or two digits) and minute ([04], two digits). *)
Definition parseHourMinute (value : string) : option (Z * Z * string) :=
  'v <- skipChar value " "%char ;;
  '(hour, v) <- getnum v false ;;
  '_ <- guard (negb (24 <=? hour)) ;;
  'v <- skipChar v ":"%char ;;
  '(min, v) <- getnum v true ;;
  '_ <- guard (negb (60 <=? min)) ;;
  Some (hour, min, v).

(** Second ([05], two digits) and the optional fraction. *)
Definition parseSecond (value : string) : option (Z * Z * string) :=
  'v <- skipChar value ":"%char ;;
  '(sec, v) <- getnum v true ;;
  '_ <- guard (negb (60 <=? sec)) ;;
  let '(nsec, v) := getfraction v in
  Some (sec, nsec, v).

(** No text may remain, and the day must exist in its month. *)
Definition finishParse (value : string) (year month day hour min sec nsec : Z)
  : option Time :=
  '_ <- guard (negb (nonEmpty value)) ;;
  '_ <- guard (negb ((day <? 1) || (daysIn month year <? day))) ;;
  Some (Date year month day hour min sec nsec).

(** [time.Parse(layout, value)]; [None] when it returns an error. *)
Definition Parse (layout : Layout) (value : string) : option Time :=
  '(year, month, day, v) <- parseDateFields value ;;
  match layout with
  | LayoutDate => finishParse v year month day 0 0 0 0
  | LayoutMinutes =>
      '(hour, min, v) <- parseHourMinute v ;;
      finishParse v year month day hour min 0 0
  | LayoutSeconds =>
      '(hour, min, v) <- parseHourMinute v ;;
      '(sec, nsec, v) <- parseSecond v ;;
      finishParse v year month day hour min sec nsec
  end.

(** The loop over [layouts]: the first layout that parses wins. *)
Fixpoint parseFirst (ls : list Layout) (value : string) : option Time :=
  match ls with
  | [] => None
  | l :: ls' =>
      match Parse l value with
      | Some t => Some t
      | None => parseFirst ls' value
      end
  end.

(** ** internal/timeutil *)

(** The errors of the package, one constructor per message. *)
Inductive TimeError : Type :=
| ErrRelativeFormat     (* "invalid time range format. Use: ..." *)
| ErrMinutesRange       (* "minutes must be between 1 and 1440 (24 hours)" *)
| ErrHoursRange         (* "hours must be between 1 and 24" *)
| ErrUnsupportedUnit    (* "unsupported time unit. ..." *)
| ErrStartFormat        (* "invalid start time format. Use one of: ..." *)
| ErrEndFormat          (* "invalid end time format. Use one of: ..." *)
| ErrEndBeforeStart     (* "end time cannot be before start time" *)
| ErrExceeds24h         (* "time range cannot exceed 24 hours" *)
| ErrLastNWithStartEnd  (* "cannot use --last-n with --start/--end flags" *)
| ErrStartEndTogether   (* "both --start and --end must be provided together" *)
| ErrNoRange.           (* "either --last-n or both --start and --end ..." *)

(** The error taxonomy of the specification. *)
Inductive ErrorKind : Type :=
| InvalidArguments
| InvalidTimeSpec
| InvalidTimeFormat
| InvalidTimeRange
| RangeTooLarge.

Definition kindOf (e : TimeError) : ErrorKind :=
  match e with
  | ErrRelativeFormat | ErrMinutesRange | ErrHoursRange | ErrUnsupportedUnit =>
      InvalidTimeSpec
  | ErrStartFormat | ErrEndFormat => InvalidTimeFormat
  | ErrEndBeforeStart => InvalidTimeRange
  | ErrExceeds24h => RangeTooLarge
  | ErrLastNWithStartEnd | ErrStartEndTogether | ErrNoRange => InvalidArguments
  end.

(** [(time.Time, time.Time, error)] *)
Inductive Result : Type :=
| Ok (start end_ : Time)
| Err (e : TimeError).

Fixpoint allDigits (s : string) : bool :=
  match s with
  | EmptyString => true
  | String c rest => isDigit c && allDigits rest
  end.

(** The text before the last character, and the last character. *)
Fixpoint splitLast (s : string) : option (string * string) :=
  match s with
  | EmptyString => None
  | String c rest =>
      match splitLast rest with
      | None => Some (EmptyString, String c EmptyString)
      | Some (front, last) => Some (String c front, last)
      end
  end.

(** [regexp.MustCompile(`^(\d+)(m|h)$`).FindStringSubmatch]: the two
    groups, when the whole text is one or more digits and then [m] or
    [h]. *)
Definition FindStringSubmatch (timeRange : string) : option (string * string) :=
  match splitLast timeRange with
  | Some (digits, unit_) =>
      if nonEmpty digits && allDigits digits &&
         (String.eqb unit_ "m" || String.eqb unit_ "h")
      then Some (digits, unit_) else None
  | None => None
  end.

(** The number a digit string denotes. *)
Fixpoint decimalValue (acc : Z) (s : string) : Z :=
  match s with
  | EmptyString => acc
  | String c rest => decimalValue (acc * 10 + digitVal c) rest
  end.

(** [value, _ := strconv.Atoi(digits)] on a digit string: on overflow
    Atoi returns the largest int together with the error that the
    caller drops. *)
Definition Atoi (digits : string) : Z :=
  let v := decimalValue 0 digits in
  if maxDuration <? v then maxDuration else v.

Definition RelativeTimeRange (now : Time) (timeRange : string) : Result :=
  match FindStringSubmatch timeRange with
  | None => Err ErrRelativeFormat
  | Some (digits, unit_) =>
      let value := Atoi digits in
      if String.eqb unit_ "m" then
        if (value <=? 0) || (1440 <? value) then Err ErrMinutesRange
        else
          let duration := wrap64 (value * Minute) in
          Ok (Add now (wrap64 (- duration))) now
      else if String.eqb unit_ "h" then
        if (value <=? 0) || (24 <? value) then Err ErrHoursRange
        else
          let duration := wrap64 (value * Hour) in
          Ok (Add now (wrap64 (- duration))) now
      else Err ErrUnsupportedUnit
  end.

(** The end-of-day widening: applied when the end text has no colon. *)
Definition widenEnd (end_ : string) (endTime : Time) : Time :=
  if negb (Contains end_ ":")
  then Add (Add (Add endTime (23 * Hour)) (59 * Minute)) (59 * Second)
  else endTime.

(** The two range checks that close [CustomTimeRange]. *)
Definition validateRange (startTime endTime : Time) : Result :=
  let duration := Sub endTime startTime in
  if duration <? 0 then Err ErrEndBeforeStart
  else if 24 * Hour <? duration then Err ErrExceeds24h
  else Ok startTime endTime.

Definition CustomTimeRange (start end_ : string) : Result :=
  match parseFirst layouts start with
  | None => Err ErrStartFormat
  | Some startTime =>
      match parseFirst layouts end_ with
      | None => Err ErrEndFormat
      | Some endTime => validateRange startTime (widenEnd end_ endTime)
      end
  end.

Definition ValidateAndParseTimeRange (now : Time) (lastN start end_ : string)
  : Result :=
  if nonEmpty lastN then
    if nonEmpty start || nonEmpty end_ then Err ErrLastNWithStartEnd
    else RelativeTimeRange now lastN
  else if (nonEmpty start && negb (nonEmpty end_)) ||
          (negb (nonEmpty start) && nonEmpty end_) then Err ErrStartEndTogether
  else if negb (nonEmpty start) && negb (nonEmpty end_) then Err ErrNoRange
  else CustomTimeRange start end_.

(** ** Formatting instants (Time.Format)

    An instant is rendered as the wall-clock reading of its location;
    the readings below are nanoseconds counted from 1970-01-01 00:00:00
    of that location. *)

Definition digitChar (d : Z) : ascii := ascii_of_nat (48 + Z.to_nat d).

Fixpoint decimalDigits (fuel : nat) (u : Z) (acc : string) : string :=
  match fuel with
  | O => acc
  | S fuel' =>
      let acc' := String (digitChar (u mod 10)) acc in
      if u <? 10 then acc' else decimalDigits fuel' (u / 10) acc'
  end.

Fixpoint zeros (n : nat) : string :=
  match n with
  | O => EmptyString
  | S n' => String "0"%char (zeros n')
  end.

(** [appendInt(b, x, width)]: decimal, zero-padded to [width], with the
    two fast paths of the library for 2- and 4-digit fields. *)
Definition appendInt (x : Z) (width : nat) : string :=
  let u := Z.abs x in
  let body :=
    if (Nat.eqb width 2) && (u <? 100) then
      String (digitChar (u / 10)) (String (digitChar (u mod 10)) EmptyString)
    else if (Nat.eqb width 4) && (u <? 10000) then
      String (digitChar (u / 1000))
        (String (digitChar (u / 100 mod 10))
           (String (digitChar (u / 10 mod 10))
              (String (digitChar (u mod 10)) EmptyString)))
    else
      let ds := decimalDigits (S (Z.to_nat (Z.log2 u))) u EmptyString in
      (zeros (width - String.length ds) ++ ds)%string
  in if x <? 0 then String "-"%char body else body.

Definition wallSeconds (t : Time) : Z := t / Second.

(** The calendar day of a reading: year, month, day. *)
Definition calendarDay (t : Time) : Z * Z * Z :=
  civilFromDays (wallSeconds t / 86400).

(** [t.Format("2006-01-02")] *)
Definition formatDate (t : Time) : string :=
  let '(y, m, d) := calendarDay t in
  (appendInt y 4 ++ "-" ++ appendInt m 2 ++ "-" ++ appendInt d 2)%string.

(** [t.Format("2006-01-02 15:04:05")] *)
Definition formatStamp (t : Time) : string :=
  let sod := wallSeconds t mod 86400 in
  (formatDate t ++ " " ++ appendInt (sod / 3600) 2 ++ ":" ++
   appendInt (sod mod 3600 / 60) 2 ++ ":" ++ appendInt (sod mod 60) 2)%string.

(** ** Paths (path/filepath on a slash-separated system) *)

(** The components between slashes. *)
Fixpoint splitSlash (s : string) : list string :=
  match s with
  | EmptyString => [EmptyString]
  | String c rest =>
      if Ascii.eqb c "/"%char then EmptyString :: splitSlash rest
      else
        match splitSlash rest with
        | x :: xs => String c x :: xs
        | [] => [String c EmptyString]
        end
  end.

(** [strings.Join(elems, "/")] *)
Fixpoint joinSlash (elems : list string) : string :=
  match elems with
  | [] => EmptyString
  | [e] => e
  | e :: rest => (e ++ "/" ++ joinSlash rest)%string
  end.

(** One component of [filepath.Clean]; [out] is the output so far, last
    component first.  Empty and [.] components vanish; [..] removes the
    last ordinary component, is dropped at the root, and is kept at the
    front of a relative path. *)
Definition cleanStep (rooted : bool) (out : list string) (comp : string)
  : list string :=
  if String.eqb comp "" || String.eqb comp "." then out
  else if String.eqb comp ".." then
    match out with
    | top :: below =>
        if String.eqb top ".." then (if rooted then out else comp :: out)
        else below
    | [] => if rooted then out else [comp]
    end
  else comp :: out.

Definition Clean (path : string) : string :=
  match path with
  | EmptyString => "."
  | String c _ =>
      let rooted := Ascii.eqb c "/"%char in
      let out := fold_left (cleanStep rooted) (splitSlash path) [] in
      if rooted then ("/" ++ joinSlash (rev out))%string
      else
        match out with
        | [] => "."
        | _ => joinSlash (rev out)
        end
  end.

(** [filepath.Join]: leading empty elements are ignored, the rest is
    joined with slashes and cleaned. *)
Fixpoint Join (elem : list string) : string :=
  match elem with
  | [] => EmptyString
  | e :: rest => if nonEmpty e then Clean (joinSlash elem) else Join rest
  end.

(** ** JSON text (encoding/json)

    A printer and a parser for the JSON texts the program writes and
    reads.  Strings are byte strings; a number is kept as its literal;
    an object keeps the order of its association list.  The parser
    accepts the JSON grammar with [\uXXXX] escapes of the Basic
    Multilingual Plane (a surrogate half decodes to U+FFFD). *)

Module Json.

Definition quote : ascii := "034"%char.
Definition newline : ascii := "010"%char.
Definition backslash : ascii := "092"%char.

Definition hexChar (d : Z) : ascii :=
  if d <? 10 then ascii_of_nat (48 + Z.to_nat d)
  else ascii_of_nat (87 + Z.to_nat d).

Definition hexVal (c : ascii) : option Z :=
  let n := Z.of_nat (nat_of_ascii c) in
  if (48 <=? n) && (n <=? 57) then Some (n - 48)
  else if (97 <=? n) && (n <=? 102) then Some (n - 87)
  else if (65 <=? n) && (n <=? 70) then Some (n - 55)
  else None.

(** The [\u00XX] escape of a byte. *)
Definition escapeU (c : ascii) : string :=
  let n := Z.of_nat (nat_of_ascii c) in
  String backslash
    (String "u" (String "0" (String "0"
       (String (hexChar (n / 16)) (String (hexChar (n mod 16)) EmptyString))))).

Definition escapeChar (c : ascii) : string :=
  let n := nat_of_ascii c in
  if Ascii.eqb c quote then String backslash (String quote EmptyString)
  else if Ascii.eqb c backslash then String backslash (String backslash EmptyString)
  else if Nat.eqb n 8 then String backslash "b"
  else if Nat.eqb n 12 then String backslash "f"
  else if Nat.eqb n 10 then String backslash "n"
  else if Nat.eqb n 13 then String backslash "r"
  else if Nat.eqb n 9 then String backslash "t"
  else if (n <? 32)%nat || Ascii.eqb c "<" || Ascii.eqb c ">" || Ascii.eqb c "&"
  then escapeU c
  else String c EmptyString.

Fixpoint escapeBody (s : string) : string :=
  match s with
  | EmptyString => EmptyString
  | String c rest => (escapeChar c ++ escapeBody rest)%string
  end.

Definition encodeString (s : string) : string :=
  String quote (escapeBody s ++ String quote EmptyString).

Fixpoint indent (depth : nat) : string :=
  match depth with
  | O => EmptyString
  | S d => ("  " ++ indent d)%string
  end.

Definition nl : string := String newline EmptyString.

(** [json.MarshalIndent(v, "", "  ")] at nesting [depth]. *)
Fixpoint encodeAt (depth : nat) (v : Value) : string :=
  match v with
  | VNull => "null"
  | VBool true => "true"
  | VBool false => "false"
  | VNumber literal => literal
  | VString s => encodeString s
  | VArray items =>
      let fix elems (l : list Value) : string :=
        match l with
        | [] => EmptyString
        | x :: rest =>
            (indent (S depth) ++ encodeAt (S depth) x ++
             match rest with
             | [] => nl
             | _ => "," ++ nl ++ elems rest
             end)%string
        end in
      match items with
      | [] => "[]"
      | _ => ("[" ++ nl ++ elems items ++ indent depth ++ "]")%string
      end
  | VObject fields =>
      let fix members (l : list (string * Value)) : string :=
        match l with
        | [] => EmptyString
        | (k, x) :: rest =>
            (indent (S depth) ++ encodeString k ++ ": " ++ encodeAt (S depth) x ++
             match rest with
             | [] => nl
             | _ => "," ++ nl ++ members rest
             end)%string
        end in
      match fields with
      | [] => "{}"
      | _ => ("{" ++ nl ++ members fields ++ indent depth ++ "}")%string
      end
  end.

Definition MarshalIndent (v : Value) : string := encodeAt 0 v.

(** *** Parsing *)

Definition isSpace (c : ascii) : bool :=
  let n := nat_of_ascii c in
  Nat.eqb n 32 || Nat.eqb n 9 || Nat.eqb n 10 || Nat.eqb n 13.

Fixpoint skipWs (s : string) : string :=
  match s with
  | String c rest => if isSpace c then skipWs rest else s
  | EmptyString => s
  end.

(** The UTF-8 bytes of a code point below 0x10000. *)
Definition utf8 (cp : Z) : string :=
  let byte (n : Z) := ascii_of_nat (Z.to_nat n) in
  if cp <? 128 then String (byte cp) EmptyString
  else if cp <? 2048 then
    String (byte (192 + cp / 64)) (String (byte (128 + cp mod 64)) EmptyString)
  else
    let cp := if (55296 <=? cp) && (cp <=? 57343) then 65533 else cp in
    String (byte (224 + cp / 4096))
      (String (byte (128 + cp / 64 mod 64))
         (String (byte (128 + cp mod 64)) EmptyString)).

(** The body of a string literal, after its opening quote. *)
Fixpoint parseBody (s : string) : option (string * string) :=
  match s with
  | EmptyString => None
  | String c rest =>
      if Ascii.eqb c quote then Some (EmptyString, rest)
      else if Ascii.eqb c backslash then
        match rest with
        | String e rest' =>
            let simple (b : nat) :=
              '(body, r) <- parseBody rest' ;; Some (String (ascii_of_nat b) body, r) in
            if Ascii.eqb e quote then simple 34%nat
            else if Ascii.eqb e backslash then simple 92%nat
            else if Ascii.eqb e "/" then simple 47%nat
            else if Ascii.eqb e "b" then simple 8%nat
            else if Ascii.eqb e "f" then simple 12%nat
            else if Ascii.eqb e "n" then simple 10%nat
            else if Ascii.eqb e "r" then simple 13%nat
            else if Ascii.eqb e "t" then simple 9%nat
            else if Ascii.eqb e "u" then
              match rest' with
              | String h1 (String h2 (String h3 (String h4 rest''))) =>
                  'a <- hexVal h1 ;; 'b <- hexVal h2 ;;
                  'c <- hexVal h3 ;; 'd <- hexVal h4 ;;
                  '(body, r) <- parseBody rest'' ;;
                  Some ((utf8 (((a * 16 + b) * 16 + c) * 16 + d) ++ body)%string, r)
              | _ => None
              end
            else None
        | EmptyString => None
        end
      else if (nat_of_ascii c <? 32)%nat then None
      else '(body, r) <- parseBody rest ;; Some (String c body, r)
  end.

Fixpoint stringOf (cs : list ascii) : string :=
  match cs with
  | [] => EmptyString
  | c :: rest => String c (stringOf rest)
  end.

(** One or more digits. *)
Definition digits1 (s : string) : option (string * string) :=
  let '(ds, r) := spanDigits s in
  match ds with
  | [] => None
  | _ => Some (stringOf ds, r)
  end.

(** A number literal: the literal text and what follows. *)
Definition parseNumber (s : string) : option (string * string) :=
  let '(sign, s1) :=
    match s with
    | String "-" r => ("-", r)
    | _ => (EmptyString, s)
    end in
  '(int, s2) <-
    match s1 with
    | String "0" r => Some ("0", r)
    | _ => digits1 s1
    end ;;
  '(frac, s3) <-
    match s2 with
    | String "." r => '(ds, r') <- digits1 r ;; Some (String "." ds, r')
    | _ => Some (EmptyString, s2)
    end ;;
  '(exp, s4) <-
    match s3 with
    | String e r =>
        if Ascii.eqb e "e" || Ascii.eqb e "E" then
          let '(sg, r1) :=
            match r with
            | String "+" r' => ("+", r')
            | String "-" r' => ("-", r')
            | _ => (EmptyString, r)
            end in
          '(ds, r2) <- digits1 r1 ;; Some ((String e sg ++ ds)%string, r2)
        else Some (EmptyString, s3)
    | EmptyString => Some (EmptyString, s3)
    end ;;
  Some ((sign ++ int ++ frac ++ exp)%string, s4).

(** [m[k] = v] on an association list: a later binding of a key
    replaces the earlier one. *)
Fixpoint setKey (k : string) (v : Value) (m : list (string * Value))
  : list (string * Value) :=
  match m with
  | [] => [(k, v)]
  | (k', v') :: rest =>
      if String.eqb k' k then (k, v) :: rest else (k', v') :: setKey k v rest
  end.

Fixpoint parseValue (fuel : nat) (s : string) : option (Value * string) :=
  match fuel with
  | O => None
  | S fuel' =>
      match skipWs s with
      | String c rest =>
          if Ascii.eqb c quote then
            '(body, r) <- parseBody rest ;; Some (VString body, r)
          else if Ascii.eqb c "[" then
            match skipWs rest with
            | String "]" r => Some (VArray [], r)
            | _ => parseElems fuel' rest []
            end
          else if Ascii.eqb c "{" then
            match skipWs rest with
            | String "}" r => Some (VObject [], r)
            | _ => parseMembers fuel' rest []
            end
          else if Ascii.eqb c "-" || isDigit c then
            '(lit, r) <- parseNumber (String c rest) ;; Some (VNumber lit, r)
          else
            match String c rest with
            | String "n" (String "u" (String "l" (String "l" r))) => Some (VNull, r)
            | String "t" (String "r" (String "u" (String "e" r))) => Some (VBool true, r)
            | String "f" (String "a" (String "l" (String "s" (String "e" r)))) =>
                Some (VBool false, r)
            | _ => None
            end
      | EmptyString => None
      end
  end
with parseElems (fuel : nat) (s : string) (acc : list Value)
  : option (Value * string) :=
  match fuel with
  | O => None
  | S fuel' =>
      '(v, r) <- parseValue fuel' s ;;
      match skipWs r with
      | String "," r' => parseElems fuel' r' (v :: acc)
      | String "]" r' => Some (VArray (rev (v :: acc)), r')
      | _ => None
      end
  end
with parseMembers (fuel : nat) (s : string) (acc : list (string * Value))
  : option (Value * string) :=
  match fuel with
  | O => None
  | S fuel' =>
      match skipWs s with
      | String q rest =>
          if Ascii.eqb q quote then
            '(k, r) <- parseBody rest ;;
            match skipWs r with
            | String ":" r1 =>
                '(v, r2) <- parseValue fuel' r1 ;;
                match skipWs r2 with
                | String "," r3 => parseMembers fuel' r3 (setKey k v acc)
                | String "}" r3 => Some (VObject (setKey k v acc), r3)
                | _ => None
                end
            | _ => None
            end
          else None
      | EmptyString => None
      end
  end.

(** Decoding a whole text into an untyped value. *)
Definition Decode (text : string) : option Value :=
  '(v, r) <- parseValue (2 * String.length text + 2) text ;;
  '_ <- guard (negb (nonEmpty (skipWs r))) ;;
  Some v.

(** [json.Unmarshal(text, &m)] for [m map[string]interface{}]: the text
    must be an object, or [null], which leaves the map nil. *)
Definition Unmarshal (text : string) : option Document :=
  match Decode text with
  | Some (VObject fields) => Some fields
  | Some VNull => Some []
  | _ => None
  end.

End Json.

(** ** internal/writer: the event sink *)

Local Open Scope string_scope.

Record ExportOptions : Type := mkExport {
  Filename : string;
  Format : string
}.

Record LogWriter : Type := mkWriter {
  outputDir : string;
  serviceTag : string;
  customFile : string;
  exportMode : string
}.

(** The constructor also creates the output directory; directories are
    not part of the model. *)
Definition NewLogWriter (outputDir serviceTag : string)
    (options : option ExportOptions) : LogWriter :=
  match options with
  | Some o => mkWriter outputDir serviceTag (Filename o) (Format o)
  | None => mkWriter outputDir serviceTag "" ""
  end.

(** [fmt.Sprintf("%s-events-%s.log", tag, now.Format("2006-01-02"))] *)
Definition dailyName (tag : string) (now : Time) : string :=
  tag ++ "-events-" ++ formatDate now ++ ".log".

Definition GetCurrentFile (w : LogWriter) (now : Time) : string :=
  if nonEmpty (customFile w) then customFile w
  else Join [outputDir w; serviceTag w; dailyName (serviceTag w) now].

(** The files of the system: path and contents. *)
Definition Files := list (string * string).

Fixpoint readFile (path : string) (fs : Files) : option string :=
  match fs with
  | [] => None
  | (p, c) :: rest => if String.eqb p path then Some c else readFile path rest
  end.

(** [os.OpenFile(path, O_APPEND|O_CREATE|O_WRONLY)] then [WriteString]:
    the file is created when missing and the text goes to its end. *)
Fixpoint appendFile (path text : string) (fs : Files) : Files :=
  match fs with
  | [] => [(path, text)]
  | (p, c) :: rest =>
      if String.eqb p path then (p, c ++ text) :: rest
      else (p, c) :: appendFile path text rest
  end.

(** What the operating system does to one write: nothing wrong, the
    open fails, or the write after a good open fails. *)
Inductive Fault : Type :=
| NoFault
| OpenFails (cause : string)
| WriteFails (cause : string).

(** The value behind the [jsonData] map of [WriteEvent]; encoding/json
    writes the keys of a map sorted, the order used here.  A resource is
    a struct of two string pointers, written in field order. *)
Definition optString (s : option string) : Value :=
  match s with
  | Some v => VString v
  | None => VNull
  end.

Definition resourceValue (r : Resource) : Value :=
  VObject [("ResourceName", optString (ResourceName r));
           ("ResourceType", optString (ResourceType r))].

Definition resourcesValue (rs : option (list Resource)) : Value :=
  match rs with
  | None => VNull
  | Some l => VArray (map resourceValue l)
  end.

Definition detailsValue (eventDetails : option Document) : Value :=
  match eventDetails with
  | None => VNull
  | Some m => VObject m
  end.

Definition jsonData (event : Event) (eventDetails : option Document) : Value :=
  VObject [("details", detailsValue eventDetails);
           ("eventName", VString (SafeString (EventName event)));
           ("eventSource", VString (SafeString (EventSource event)));
           ("resources", resourcesValue (Resources event));
           ("timestamp", VString (formatStamp (EventTime event)));
           ("user", VString (SafeString (Username event)))].

Definition separator : string :=
  "--------------------------------------------------------------------------------".

Section Sink.

(** [json.MarshalIndent(v, "", "  ")] *)
Variable MarshalIndent : Value -> string.
(** [fmt.Sprintf("%v", v)] *)
Variable Sprintv : Value -> string.

(** The [key: value] dump of a sub-document: nil values are skipped.
    (Go ranges over the map in no fixed order; the model follows the
    association list.) *)
Fixpoint dumpParams (m : Document) : string :=
  match m with
  | [] => ""
  | (key, value) :: rest =>
      match value with
      | VNull => dumpParams rest
      | _ => "    " ++ key ++ ": " ++ Sprintv value ++ Json.nl ++ dumpParams rest
      end
  end.

Definition dumpSection (title key : string) (eventDetails : Document) : string :=
  let '(m, ok) := asObject (lookup key eventDetails) in
  if ok && negb (Nat.eqb (List.length m) 0)
  then "  " ++ title ++ ":" ++ Json.nl ++ dumpParams m
  else "".

Fixpoint dumpResources (rs : list Resource) : string :=
  match rs with
  | [] => ""
  | r :: rest =>
      "  - " ++ SafeString (ResourceName r) ++ " (" ++
      SafeString (ResourceType r) ++ ")" ++ Json.nl ++ dumpResources rest
  end.

Definition formatEventAsText (event : Event) (eventDetails : option Document)
  : string :=
  "[" ++ formatStamp (EventTime event) ++ "] " ++ SafeString (EventName event) ++ Json.nl ++
  "Source: " ++ SafeString (EventSource event) ++ Json.nl ++
  "User: " ++ (match Username event with None => "N/A" | Some u => u end) ++ Json.nl ++
  (match rangeResources event with
   | [] => ""
   | rs => "Resources:" ++ Json.nl ++ dumpResources rs
   end) ++
  (match eventDetails with
   | None => ""
   | Some d =>
       "Details:" ++ Json.nl ++
       dumpSection "Request Parameters" "requestParameters" d ++
       dumpSection "Response Elements" "responseElements" d
   end) ++
  separator ++ Json.nl.

(** The record [WriteEvent] renders for its export mode. *)
Definition renderEvent (w : LogWriter) (event : Event)
    (eventDetails : option Document) : string :=
  if String.eqb (exportMode w) "json"
  then MarshalIndent (jsonData event eventDetails) ++ Json.nl
  else formatEventAsText event eventDetails.

(** [WriteEvent] at clock reading [now] under [fault]: the files
    afterwards and the returned error.  A failed open leaves the files
    alone; a failed write leaves the opened (created) file without the
    record. *)
Definition WriteEvent (w : LogWriter) (now : Time) (fault : Fault)
    (event : Event) (eventDetails : option Document) (fs : Files)
  : Files * option string :=
  let filename :=
    if nonEmpty (customFile w) then customFile w
    else Join [outputDir w; serviceTag w;
               serviceTag w ++ "-events-" ++ formatDate now ++ ".log"] in
  match fault with
  | OpenFails cause => (fs, Some ("failed to open log file: " ++ cause))
  | WriteFails cause =>
      (appendFile filename "" fs, Some ("failed to write to log file: " ++ cause))
  | NoFault =>
      (appendFile filename (renderEvent w event eventDetails) fs, None)
  end.

End Sink.

(** ** internal/monitor: the scan *)

(** What the query service answers to the successive page requests of
    one scan: a failure (and what a repeated request would get), the
    last page, or a page with a continuation token and the answers that
    follow. *)
Inductive Pages : Type :=
| PageError (cause : string) (retry : Pages)
| LastPage (events : list Event)
| MorePage (events : list Event) (next : Pages).

(** Console output, by kind. *)
Inductive Line : Type :=
| LHeader (filters : FilterOptions) (start end_ : Time) (logFile : string)
| LWarnParse
| LWarnWrite (err : string)
| LEvent (event : Event) (isError : bool)
| LNoEvents
| LFound (count : nat).

(** The state a scan threads: files, console, and the counts of clock
    readings, sink writes and page requests made so far. *)
Record World : Type := mkWorld {
  files : Files;
  console : list Line;
  ticks : nat;
  writes : nat;
  requests : nat
}.

Section Scan.

Variable Unmarshal : string -> option Document.
Variable ToLower : string -> string.
Variable MarshalIndent : Value -> string.
Variable Sprintv : Value -> string.
(** The reading of the n-th look at the clock. *)
Variable clock : nat -> Time.
(** The fate of the n-th sink write. *)
Variable fault : nat -> Fault.

Definition say (l : Line) (w : World) : World :=
  mkWorld (files w) (console w ++ [l]) (ticks w) (writes w) (requests w).

(** The body of the event loop for an event that passed the filter.
    [eventDetails] stays nil when there is no detail text or it does not
    decode. *)
Definition processEvent (lw : LogWriter) (event : Event) (w : World) : World :=
  (* decode the detail; a failure is a warning *)
  let '(eventDetails, w) :=
    match CloudTrailEvent event with
    | None => (None, w)
    | Some raw =>
        match Unmarshal raw with
        | Some d => (Some d, w)
        | None => (None, say LWarnParse w)
        end
    end in
  (* write to the sink; a failure is a warning *)
  let '(fs, err) :=
    WriteEvent MarshalIndent Sprintv lw (clock (ticks w)) (fault (writes w))
      event eventDetails (files w) in
  let w := mkWorld fs (console w) (S (ticks w)) (S (writes w)) (requests w) in
  let w := match err with
           | Some e => say (LWarnWrite e) w
           | None => w
           end in
  (* console block *)
  let isError :=
    match eventDetails with
    | Some d => snd (asString (lookup "errorCode" d))
    | None => false
    end in
  say (LEvent event isError) w.

(** The loop over the events of one page. *)
Fixpoint processPage (lw : LogWriter) (filters : FilterOptions)
    (events : list Event) (w : World) (eventCount : nat) : World * nat :=
  match events with
  | [] => (w, eventCount)
  | event :: rest =>
      if negb (matchesFilter Unmarshal ToLower event filters)
      then processPage lw filters rest w eventCount
      else processPage lw filters rest (processEvent lw event w) (S eventCount)
  end.

Definition request (w : World) : World :=
  mkWorld (files w) (console w) (ticks w) (writes w) (S (requests w)).

(** The loop over the pages: a failed request returns at once. *)
Fixpoint scanPages (lw : LogWriter) (filters : FilterOptions) (pages : Pages)
    (w : World) (eventCount : nat) : World * nat * option string :=
  match pages with
  | PageError cause _ =>
      (request w, eventCount, Some ("error looking up events: " ++ cause))
  | LastPage events =>
      let '(w', n) := processPage lw filters events (request w) eventCount in
      (w', n, None)
  | MorePage events next =>
      let '(w', n) := processPage lw filters events (request w) eventCount in
      scanPages lw filters next w' n
  end.

Definition MonitorKMSEvents (lw : LogWriter) (filters : FilterOptions)
    (start end_ : Time) (pages : Pages) (w : World) : World * option string :=
  let logFile := GetCurrentFile lw (clock (ticks w)) in
  let w := mkWorld (files w) (console w) (S (ticks w)) (writes w) (requests w) in
  let w := say (LHeader filters start end_ logFile) w in
  let '(w, eventCount, err) := scanPages lw filters pages w 0 in
  match err with
  | Some e => (w, Some e)
  | None =>
      (say (if Nat.eqb eventCount 0 then LNoEvents else LFound eventCount) w, None)
  end.

End Scan.

(** *** What the scan is measured against *)

(** The cause of the first failed request on the path of the scan. *)
Fixpoint firstFailure (pages : Pages) : option string :=
  match pages with
  | PageError cause _ => Some cause
  | LastPage _ => None
  | MorePage _ next => firstFailure next
  end.

(** The events of the pages received before the scan ends. *)
Fixpoint received (pages : Pages) : list Event :=
  match pages with
  | PageError _ _ => []
  | LastPage events => events
  | MorePage events next => events ++ received next
  end.

(** The requests needed to receive them: one per answer. *)
Fixpoint answers (pages : Pages) : nat :=
  match pages with
  | PageError _ _ => 1
  | LastPage _ => 1
  | MorePage _ next => S (answers next)
  end.

Definition isEventLine (l : Line) : bool :=
  match l with LEvent _ _ => true | _ => false end.

Definition isWriteWarning (l : Line) : bool :=
  match l with LWarnWrite _ => true | _ => false end.

Definition isParseWarning (l : Line) : bool :=
  match l with LWarnParse => true | _ => false end.

Definition isFault (f : Fault) : bool :=
  match f with NoFault => false | _ => true end.

(** ** Sample events *)

Definition eventWithoutDetail : Event :=
  mkEvent (Some "Decrypt") 0 (Some "kms.amazonaws.com") (Some "admin") None None.

Definition eventWithBrokenDetail : Event :=
  mkEvent (Some "Decrypt") 0 (Some "kms.amazonaws.com") (Some "admin") None
    (Some "{oops").

Definition eventWithEmptyCode : Event :=
  mkEvent (Some "Decrypt") 0 (Some "kms.amazonaws.com") (Some "admin") None
    (Some (Json.MarshalIndent (VObject [("errorCode", VString "")]))).

Definition eventWithCode : Event :=
  mkEvent (Some "Decrypt") 0 (Some "kms.amazonaws.com") (Some "admin") None
    (Some (Json.MarshalIndent (VObject [("errorCode", VString "AccessDenied")]))).

(** ** The specification's reading of a relative time spec

    [<integer><unit>]: one or more digits, then [m] with a value from 1
    to 1440 or [h] with a value from 1 to 24; [d] is the duration it
    asks for. *)
Definition denotesDuration (spec : string) (d : Duration) : Prop :=
  exists digits : string,
    nonEmpty digits = true /\ allDigits digits = true /\
    ((spec = (digits ++ "m")%string /\ 1 <= decimalValue 0 digits <= 1440 /\
      d = decimalValue 0 digits * Minute) \/
     (spec = (digits ++ "h")%string /\ 1 <= decimalValue 0 digits <= 24 /\
      d = decimalValue 0 digits * Hour)).


(** ** Notions used to state the day rotation of the sink *)

(** The number of the day of a reading, counted from 1970-01-01. *)
Definition dayNumber (t : Time) : Z := wallSeconds t / 86400.

(** Readings from 0000-01-01 00:00:00 up to 9999-12-31 23:59:59, the
    years [Format] writes with four digits. *)
Definition fourDigitYear (t : Time) : Prop :=
  -719528 <= dayNumber t <= 2932896.

Fixpoint noSlash (s : string) : bool :=
  match s with
  | EmptyString => true
  | String c rest => negb (Ascii.eqb c "/") && noSlash rest
  end.

(** A path component that [Clean] keeps as it is. *)
Definition ordinary (s : string) : bool :=
  negb (String.eqb s "" || String.eqb s "." || String.eqb s "..").

(** [joinSlash] of the components before the last one, with the slash
    that precedes the last. *)
Fixpoint joinPrefix (elems : list string) : string :=
  match elems with
  | [] => EmptyString
  | e :: rest => (e ++ "/" ++ joinPrefix rest)%string
  end.


(** ** Notions used to state what a scan does *)

Definition countIf {A : Type} (p : A -> bool) (l : list A) : nat :=
  List.length (filter p l).

(** The faults among the [n] sink writes numbered from [from]. *)
Definition faultsAmong (fault : nat -> Fault) (from n : nat) : nat :=
  countIf (fun i => isFault (fault i)) (seq from n).

(** The event carries a detail text that does not decode. *)
Definition undecodable (Unmarshal : string -> option Document) (e : Event)
  : bool :=
  match CloudTrailEvent e with
  | Some raw =>
      match Unmarshal raw with
      | Some _ => false
      | None => true
      end
  | None => false
  end.

(** From world [w] to world [w']: [reqs] page requests were made, every
    event of [matched] was handed to the sink and shown on the console,
    each faulty write left a warning and so did each detail text that
    did not decode. *)
Definition advanced (Unmarshal : string -> option Document)
    (fault : nat -> Fault) (w w' : World) (matched : list Event) (reqs : nat)
  : Prop :=
  requests w' = (requests w + reqs)%nat /\
  writes w' = (writes w + List.length matched)%nat /\
  ticks w' = (ticks w + List.length matched)%nat /\
  countIf isEventLine (console w') =
    (countIf isEventLine (console w) + List.length matched)%nat /\
  countIf isWriteWarning (console w') =
    (countIf isWriteWarning (console w) +
     faultsAmong fault (writes w) (List.length matched))%nat /\
  countIf isParseWarning (console w') =
    (countIf isParseWarning (console w) + countIf (undecodable Unmarshal) matched)%nat.


(** ** A sample scan

    The two-page result set of the specification's end-to-end property:
    page 1 holds a Decrypt by admin that was denied, page 2 an event
    that the criteria [{eventName: "Decrypt", errorsOnly}] reject. *)

Definition deniedDecrypt : Event :=
  mkEvent (Some "Decrypt") (Date 2024 11 20 10 15 0 0) (Some "kms.amazonaws.com")
    (Some "admin")
    (Some [mkResource (Some "arn:aws:kms:us-east-1:111122223333:key/abcd")
                      (Some "AWS::KMS::Key")])
    (Some (Json.MarshalIndent
             (VObject [("errorCode", VString "AccessDenied");
                       ("errorMessage", VString "not allowed")]))).

Definition plainListKeys : Event :=
  mkEvent (Some "ListKeys") (Date 2024 11 20 10 16 0 0) (Some "kms.amazonaws.com")
    (Some "auditor") None
    (Some (Json.MarshalIndent (VObject [("requestParameters", VNull)]))).

Definition decryptErrors : FilterOptions :=
  mkFilter "" "Decrypt" "" "" true false.

Definition twoPages : Pages := MorePage [deniedDecrypt] (LastPage [plainListKeys]).

(** The same first page, and then a request that fails. *)
Definition pageThenFailure : Pages :=
  MorePage [deniedDecrypt; eventWithBrokenDetail]
    (PageError "ThrottlingException" (LastPage [plainListKeys])).

Definition jsonWriter : LogWriter :=
  NewLogWriter "/var/log/audit" "kms" (Some (mkExport "" "json")).

Definition emptyWorld : World := mkWorld [] [] 0 0 0.

Definition noonClock (n : nat) : Time := Date 2024 11 20 12 0 0 0.

Definition noFaults (n : nat) : Fault := NoFault.

(** The first write meets a full disk. *)
Definition firstWriteFails (n : nat) : Fault :=
  match n with
  | O => WriteFails "no space left on device"
  | S _ => NoFault
  end.


(** ** Reading a JSON record back

    What a consumer of the export gets from one record: the event name,
    the user and the resources, read from the decoded object.  A string
    reads as a present value, [null] as an absent one. *)

Record Reparsed : Type := mkReparsed {
  rEventName : option string;
  rUser : option string;
  rResources : option (list Resource)
}.

Definition readOptString (v : option Value) : option (option string) :=
  match v with
  | Some (VString s) => Some (Some s)
  | Some VNull => Some None
  | _ => None
  end.

Definition readResource (v : Value) : option Resource :=
  match v with
  | VObject m =>
      'name <- readOptString (lookup "ResourceName" m) ;;
      'type <- readOptString (lookup "ResourceType" m) ;;
      Some (mkResource name type)
  | _ => None
  end.

Fixpoint readAll (items : list Value) : option (list Resource) :=
  match items with
  | [] => Some []
  | v :: rest =>
      'r <- readResource v ;;
      'rs <- readAll rest ;;
      Some (r :: rs)
  end.

Definition readResources (v : option Value) : option (option (list Resource)) :=
  match v with
  | Some VNull => Some None
  | Some (VArray items) => 'rs <- readAll items ;; Some (Some rs)
  | _ => None
  end.

Section Reparse.

(** The decoder of the consumer. *)
Variable Decode : string -> option Value.

Definition reparse (record : string) : option Reparsed :=
  'v <- Decode record ;;
  match v with
  | VObject m =>
      'name <- readOptString (lookup "eventName" m) ;;
      'user <- readOptString (lookup "user" m) ;;
      'resources <- readResources (lookup "resources" m) ;;
      Some (mkReparsed name user resources)
  | _ => None
  end.

End Reparse.

(** What the source event holds in the three fields. *)
Definition sourceFields (e : Event) : Reparsed :=
  mkReparsed (EventName e) (Username e) (Resources e).

(** An event without a name, as the query service may deliver it. *)
Definition namelessEvent : Event :=
  mkEvent None (Date 2024 11 20 10 15 0 0) (Some "kms.amazonaws.com")
    (Some "admin")
    (Some [mkResource (Some "arn:aws:kms:us-east-1:111122223333:key/abcd") None])
    None.


(** ** timeutil.FormatDuration *)

Section Durations.

Local Open Scope Z_scope.

(** [lessThanHalf(x, y)]: [x + x < y] on the unsigned values. *)
Definition lessThanHalf (x y : Duration) : bool :=
  (x mod 2 ^ 64 + x mod 2 ^ 64) mod 2 ^ 64 <? y mod 2 ^ 64.

(** [d.Round(m)]: the multiple of [m] nearest to [d], halves away from
    zero; the extreme value when the result leaves the range of
    [Duration]. *)
Definition Round (d m : Duration) : Duration :=
  if m <=? 0 then d
  else
    let r := Z.rem d m in
    if d <? 0 then
      let r := - r in
      if lessThanHalf r m then wrap64 (d + r)
      else
        let d1 := wrap64 (d - m + r) in
        if d1 <? d then d1 else minDuration
    else
      if lessThanHalf r m then wrap64 (d - r)
      else
        let d1 := wrap64 (d + m - r) in
        if d <? d1 then d1 else maxDuration.

(** [fmt.Sprintf("%d", x)] *)
Definition Itoa (x : Z) : string :=
  let u := Z.abs x in
  let ds := decimalDigits (S (Z.to_nat (Z.log2 u))) u EmptyString in
  if x <? 0 then String "-"%char ds else ds.

(** [strings.Join(elems, sep)] *)
Fixpoint joinWith (sep : string) (elems : list string) : string :=
  match elems with
  | [] => EmptyString
  | [e] => e
  | e :: rest => (e ++ sep ++ joinWith sep rest)%string
  end.

Definition FormatDuration (d : Duration) : string :=
  let d := Round d Minute in
  let h := Z.quot d Hour in
  let d := wrap64 (d - wrap64 (h * Hour)) in
  let m := Z.quot d Minute in
  let parts := [] in
  let parts := if 0 <? h then (parts ++ [(Itoa h ++ "h")%string])%list else parts in
  let parts := if 0 <? m then (parts ++ [(Itoa m ++ "m")%string])%list else parts in
  match parts with
  | [] => "0m"%string
  | _ => joinWith " " parts
  end.

(** Hours and minutes as [FormatDuration] shows them: a zero part is
    left out, and nothing at all is shown as [0m]. *)
Definition showHoursMinutes (h m : Z) : string :=
  if 0 <? h then
    if 0 <? m then (Itoa h ++ "h " ++ Itoa m ++ "m")%string
    else (Itoa h ++ "h")%string
  else if 0 <? m then (Itoa m ++ "m")%string
  else "0m"%string.

End Durations.


(** ** internal/aws: profiles of the credential and config files *)

Definition LF : string := String "010"%char EmptyString.

(** [strings.Split(s, sep)] for a one-character separator. *)
Fixpoint splitOn (sep : ascii) (s : string) : list string :=
  match s with
  | EmptyString => [EmptyString]
  | String c rest =>
      if Ascii.eqb c sep then EmptyString :: splitOn sep rest
      else
        match splitOn sep rest with
        | x :: xs => String c x :: xs
        | [] => [String c EmptyString]
        end
  end.

(** [strings.HasSuffix]: some tail of [s] is [suffix]. *)
Fixpoint HasSuffix (s suffix : string) : bool :=
  String.eqb s suffix ||
  match s with
  | EmptyString => false
  | String _ rest => HasSuffix rest suffix
  end.

(** [s[n:]] for [n <= len(s)] *)
Fixpoint dropChars (n : nat) (s : string) : string :=
  match n, s with
  | S n', String _ rest => dropChars n' rest
  | _, _ => s
  end.

(** [strings.TrimPrefix] *)
Definition TrimPrefix (s prefix : string) : string :=
  if HasPrefix s prefix then dropChars (String.length prefix) s else s.

(** [line[1 : len(line)-1]]; [None] where the slice bounds are out of
    range and Go panics (fewer than two characters). *)
Definition sliceInner (line : string) : option string :=
  match line with
  | String _ rest =>
      match splitLast rest with
      | Some (inner, _) => Some inner
      | None => None
      end
  | EmptyString => None
  end.

(** ASCII white space, and [strings.TrimSpace] on texts whose leading
    and trailing white space is ASCII. *)
Definition isAsciiSpace (c : ascii) : bool :=
  let n := nat_of_ascii c in
  Nat.eqb n 9 || Nat.eqb n 10 || Nat.eqb n 11 || Nat.eqb n 12 ||
  Nat.eqb n 13 || Nat.eqb n 32.

Fixpoint trimLeft (s : string) : string :=
  match s with
  | String c rest => if isAsciiSpace c then trimLeft rest else s
  | EmptyString => EmptyString
  end.

Fixpoint trimRight (s : string) : string :=
  match s with
  | EmptyString => EmptyString
  | String c rest =>
      match trimRight rest with
      | EmptyString => if isAsciiSpace c then EmptyString else String c EmptyString
      | kept => String c kept
      end
  end.

Definition TrimSpaceASCII (s : string) : string := trimRight (trimLeft s).

Section Profiles.

(** [strings.TrimSpace] *)
Variable TrimSpace : string -> string.

(** The loop of [extractProfiles] over the lines; [None] if a slice
    panics. *)
Fixpoint collectProfiles (isConfig : bool) (lines : list string)
  : option (list string) :=
  match lines with
  | [] => Some []
  | line :: rest =>
      let line := TrimSpace line in
      if HasPrefix line "[" && HasSuffix line "]" then
        'profile <- sliceInner line ;;
        let profile := if isConfig then TrimPrefix profile "profile " else profile in
        'profiles <- collectProfiles isConfig rest ;;
        Some (profile :: profiles)
      else collectProfiles isConfig rest
  end.

Definition extractProfiles (content : string) (isConfig : bool)
  : option (list string) :=
  collectProfiles isConfig (splitOn "010" content).

End Profiles.

(** What [os.Stat] and [os.ReadFile] find at a path. *)
Inductive FileState : Type :=
| NoStat                      (* os.Stat fails *)
| NoRead                      (* the file is there, os.ReadFile fails *)
| Holds (content : string).

Inductive ProfileError : Type :=
| ErrHomeDir (cause : string)     (* "error getting home directory: ..." *)
| ErrNoCredentials                (* "no AWS credentials found. ..." *)
| ErrProfileNotFound (profile : string).

Definition statOK (f : FileState) : bool :=
  match f with
  | NoStat => false
  | _ => true
  end.

Definition credentialsPathOf (homeDir : string) : string :=
  Join [homeDir; ".aws"; "credentials"].

Definition configPathOf (homeDir : string) : string :=
  Join [homeDir; ".aws"; "config"].

(** [ValidateProfile]: [home] is the result of [os.UserHomeDir] (the
    cause of its failure on the left), [fs] the state of the files;
    [None] is the nil error. *)
Definition ValidateProfile (home : string + string) (fs : string -> FileState)
    (profile : string) : option ProfileError :=
  match home with
  | inl cause => Some (ErrHomeDir cause)
  | inr homeDir =>
      let credentialsPath := credentialsPathOf homeDir in
      let configPath := configPathOf homeDir in
      let credentialsExists := statOK (fs credentialsPath) in
      let configExists := statOK (fs configPath) in
      if negb credentialsExists && negb configExists then Some ErrNoCredentials
      else if credentialsExists &&
              match fs credentialsPath with
              | Holds content => Contains content ("[" ++ profile ++ "]")
              | _ => false
              end then None
      else if configExists &&
              match fs configPath with
              | Holds content => Contains content ("[profile " ++ profile ++ "]")
              | _ => false
              end then None
      else Some (ErrProfileNotFound profile)
  end.

(** The headers of a file that holds one section per name. *)
Fixpoint sections (prefix : string) (names : list string) : string :=
  match names with
  | [] => EmptyString
  | n :: rest => "[" ++ prefix ++ n ++ "]" ++ LF ++ sections prefix rest
  end.

(** The text between the brackets of a line of the form [[text]]. *)
Definition bracketed (line : string) : option string :=
  match line with
  | String "[" rest =>
      match splitLast rest with
      | Some (inner, "]") => Some inner
      | _ => None
      end
  | _ => None
  end.

(** The name no text of which is a line break. *)
Fixpoint noLF (s : string) : bool :=
  match s with
  | EmptyString => true
  | String c rest => negb (Ascii.eqb c "010") && noLF rest
  end.

(** What a line adds to the list of [extractProfiles]. *)
Definition profileOfLine (TrimSpace : string -> string) (isConfig : bool)
    (line : string) : list string :=
  match bracketed (TrimSpace line) with
  | Some inner => [if isConfig then TrimPrefix inner "profile " else inner]
  | None => []
  end.

(** A home directory with a credentials file of two sections and no
    config file. *)
Definition sampleCredentials : string :=
  "[default]" ++ LF ++ "aws_access_key_id = AKIAEXAMPLE" ++ LF ++
  "  [dev]  " ++ LF ++ "aws_access_key_id = AKIAEXAMPLE2" ++ LF.

Definition sampleHome (path : string) : FileState :=
  if String.eqb path "/home/user/.aws/credentials" then Holds sampleCredentials
  else NoStat.


(** ** internal/monitor: the key test of the scan by key *)

Section KeyTest.

Variable Unmarshal : string -> option Document.

(** [isKMSEvent]: the source must be KMS; then a key resource or the
    [requestParameters.keyId] of the detail must contain the key. *)
Definition isKMSEvent (event : Event) (keyID : string) : bool :=
  match EventSource event with
  | Some source =>
      if String.eqb source "kms.amazonaws.com" then
        if existsb (fun resource =>
                      match ResourceType resource, ResourceName resource with
                      | Some ty, Some nm =>
                          String.eqb ty "AWS::KMS::Key" && Contains nm keyID
                      | _, _ => false
                      end) (rangeResources event)
        then true
        else
          match CloudTrailEvent event with
          | Some raw =>
              match Unmarshal raw with
              | Some eventDetails =>
                  let '(reqParams, ok) :=
                    asObject (lookup "requestParameters" eventDetails) in
                  if ok then
                    let '(keyArn, exists_) := asString (lookup "keyId" reqParams) in
                    exists_ && Contains keyArn keyID
                  else false
              | None => false
              end
          | None => false
          end
      else false
  | None => false
  end.

End KeyTest.

(** The criteria with only the key set. *)
Definition keyOnly (keyID : string) : FilterOptions :=
  mkFilter keyID "" "" "" false false.

(** The event with another source. *)
Definition withSource (e : Event) (source : option string) : Event :=
  mkEvent (EventName e) (EventTime e) source (Username e) (Resources e)
    (CloudTrailEvent e).


(** ** Notions used to state what a scan leaves in the sink *)

(** The detail the scan loop hands to the sink and to the console. *)
Definition detailOf (Unmarshal : string -> option Document) (e : Event)
  : option Document :=
  match CloudTrailEvent e with
  | Some raw => Unmarshal raw
  | None => None
  end.

(** The text of a file, a missing file reading as empty. *)
Definition contents (path : string) (fs : Files) : string :=
  match readFile path fs with
  | Some text => text
  | None => EmptyString
  end.

(** The records of the events whose write met no fault, in order; the
    writes are numbered from [from]. *)
Fixpoint recordsWritten (render : Event -> string) (fault : nat -> Fault)
    (from : nat) (events : list Event) : string :=
  match events with
  | [] => EmptyString
  | e :: rest =>
      (if isFault (fault from) then EmptyString else render e) ++
      recordsWritten render fault (S from) rest
  end.

(** The record the scan writes for an event. *)
Definition recordOf (Unmarshal : string -> option Document)
    (MarshalIndent Sprintv : Value -> string) (lw : LogWriter) (e : Event)
  : string :=
  renderEvent MarshalIndent Sprintv lw e (detailOf Unmarshal e).

(** The console block of an event. *)
Definition eventLine (Unmarshal : string -> option Document) (e : Event) : Line :=
  LEvent e match detailOf Unmarshal e with
           | Some d => snd (asString (lookup "errorCode" d))
           | None => false
           end.

(** From [w] to [w']: the records of [matched] went to the end of the
    file at [path], no other file changed, and the console shows the
    events in the same order. *)
Definition delivered (Unmarshal : string -> option Document)
    (render : Event -> string) (fault : nat -> Fault) (path : string)
    (w w' : World) (matched : list Event) : Prop :=
  writes w' = (writes w + List.length matched)%nat /\
  contents path (files w') =
    contents path (files w) ++ recordsWritten render fault (writes w) matched /\
  (forall p, p <> path -> readFile p (files w') = readFile p (files w)) /\
  filter isEventLine (console w') =
    (filter isEventLine (console w) ++ map (eventLine Unmarshal) matched)%list.


(** ** cmd/kms: the command *)

Module Kms.

(** The flags of the command, with the persistent flags of the root
    command. *)
Record Flags : Type := mkFlags {
  keyID : string;
  lastN : string;
  startTime : string;
  endTime : string;
  eventName : string;
  userName : string;
  operation : string;
  errorsOnly : bool;
  successOnly : bool;
  exportFile : string;
  exportFormat : string;
  profile : string;
  region : string;
  output : string
}.

Inductive CommandError : Type :=
| FlagError (text : string)          (* from PreRunE *)
| TimeRangeError (e : TimeError)     (* from ValidateAndParseTimeRange *)
| ClientError (text : string)        (* from NewAWSClient, wrapped *)
| ScanError (text : string).         (* from MonitorKMSEvents *)

(** [PreRunE] of the command that scans by filter. *)
Definition PreRunE (f : Flags) : option string :=
  if negb (nonEmpty (lastN f)) &&
     (negb (nonEmpty (startTime f)) || negb (nonEmpty (endTime f)))
  then Some "time range is required: use either --last-n or both --start and --end"
  else if negb (nonEmpty (keyID f)) && negb (nonEmpty (eventName f)) &&
          negb (nonEmpty (userName f)) && negb (nonEmpty (operation f))
  then Some "at least one search criteria is required: --key, --event, --user, or --operation"
  else if errorsOnly f && successOnly f
  then Some "cannot use both --errors-only and --success-only"
  else None.

(** The [monitor.FilterOptions] literal of [runKMS]. *)
Definition filtersOf (f : Flags) : FilterOptions :=
  mkFilter (keyID f) (eventName f) (userName f) (operation f)
    (errorsOnly f) (successOnly f).

(** [monitor.NewKMSMonitor] over the [writer.ExportOptions] literal of
    [runKMS]: the sink of the monitor. *)
Definition writerOf (f : Flags) : LogWriter :=
  NewLogWriter (output f) "kms" (Some (mkExport (exportFile f) (exportFormat f))).

Section Command.

Variable Unmarshal : string -> option Document.
Variable ToLower : string -> string.
Variable MarshalIndent : Value -> string.
Variable Sprintv : Value -> string.
Variable clock : nat -> Time.
Variable fault : nat -> Fault.
(** [time.Now()] when the time range is resolved. *)
Variable now : Time.
(** [os.UserHomeDir] and the credential files, as [ValidateProfile]
    sees them. *)
Variable home : string + string.
Variable fs : string -> FileState.
(** The part of [NewAWSClient] played by the SDK for a profile and a
    region: loading the configuration and the identity call; [None]
    when both succeed, the text of the returned error otherwise. *)
Variable sdk : string -> string -> option string.

(** [aws.NewAWSClient]: the error, [None] for a client.  What it prints
    is not recorded. *)
Definition NewAWSClient (profile region : string) : option string :=
  match ValidateProfile home fs profile with
  | Some _ => Some ("invalid AWS profile: " ++ profile)
  | None => sdk profile region
  end.

(** [runKMS] of the command that scans by filter; [pages] is what the
    query service answers to the requests of the scan. *)
Definition runKMS (f : Flags) (pages : Pages) (w : World)
  : World * option CommandError :=
  match ValidateAndParseTimeRange now (lastN f) (startTime f) (endTime f) with
  | Err e => (w, Some (TimeRangeError e))
  | Ok start end_ =>
      match NewAWSClient (profile f) (region f) with
      | Some e =>
          (w, Some (ClientError ("AWS client initialization failed:" ++ LF ++ e)))
      | None =>
          let '(w', err) :=
            MonitorKMSEvents Unmarshal ToLower MarshalIndent Sprintv clock fault
              (writerOf f) (filtersOf f) start end_ pages w in
          (w', option_map ScanError err)
      end
  end.

(** The command as cobra runs it: [RunE] only after [PreRunE] returned
    nil. *)
Definition execute (f : Flags) (pages : Pages) (w : World)
  : World * option CommandError :=
  match PreRunE f with
  | Some text => (w, Some (FlagError text))
  | None => runKMS f pages w
  end.

End Command.

(** The line [runKMS] of the command that scans by key prints once the
    time range is resolved:
    [fmt.Printf("Time Range: %s (%s)\n", FormatDuration(end.Sub(start)), ...)]. *)
Definition timeRangeLine (start end_ : Time) : string :=
  "Time Range: " ++ FormatDuration (Sub end_ start) ++
  " (" ++ (formatStamp start ++ " to " ++ formatStamp end_) ++ ")" ++ LF.

End Kms.

(** An event that has neither name, user, resources nor detail. *)
Definition bare (e : Event) : Prop :=
  EventName e = None /\ Username e = None /\ rangeResources e = [] /\
  CloudTrailEvent e = None.

(** An event that carries nothing but its time, and flags of a scan by
    key over the last two hours. *)
Definition bareEvent : Event := mkEvent None (Date 2024 11 20 10 15 0 0) None None None None.

Definition sampleFlags : Kms.Flags :=
  Kms.mkFlags "key/abcd" "2h" "" "" "" "" "" false false "" "json"
    "dev" "us-east-1" "/var/log/audit".

Definition acceptingSdk (profile region : string) : option string := None.


(** ** Notions used to compare the listing of profiles with their validation *)

(** A name without square brackets. *)
Fixpoint noBracket (s : string) : bool :=
  match s with
  | EmptyString => true
  | String c rest =>
      negb (Ascii.eqb c "[") && negb (Ascii.eqb c "]") && noBracket rest
  end.

(** A home directory with a config file of one section, [[default]],
    and no credentials file. *)
Definition configOnlyHome (path : string) : FileState :=
  if String.eqb path "/home/user/.aws/config" then Holds (sections "" ["default"])
  else NoStat.


(** * Properties *)

(** ** The filter predicate *)

Section FilterFacts.

Variable Unmarshal : string -> option Document.
Variable ToLower : string -> string.

(** [matchesFilter] is the conjunction of its checks. *)
Lemma matchesFilter_conj (e : Event) (f : FilterOptions) :
  matchesFilter Unmarshal ToLower e f =
  keyOK Unmarshal e (KeyID f) && nameOK ToLower e (EventNameF f) && userOK ToLower e (UserName f) &&
  operationOK e (Operation f) && statusOK Unmarshal e (ErrorsOnly f) (SuccessOnly f).
Proof.
  unfold matchesFilter, keyOK, nameOK, userOK, operationOK, statusOK, statusCheck.
  destruct (nonEmpty (KeyID f)), (isKMSMatch Unmarshal (KeyID f) e); simpl; try reflexivity;
  destruct (nonEmpty (EventNameF f)); simpl;
  try (destruct (EventName e) as [n|] eqn:En; simpl; try reflexivity;
       destruct (Contains (ToLower n) (ToLower (EventNameF f))); simpl; try reflexivity);
  destruct (nonEmpty (UserName f)); simpl;
  try (destruct (Username e) as [u|]; simpl; try reflexivity;
       destruct (Contains (ToLower u) (ToLower (UserName f))); simpl; try reflexivity);
  destruct (nonEmpty (Operation f)); simpl;
  try rewrite ?En; simpl;
  try (destruct (EventName e) as [n'|]; simpl; try reflexivity);
  try (match goal with |- context [Contains ?a (Operation f)] =>
         destruct (Contains a (Operation f)); simpl; try reflexivity end);
  destruct (ErrorsOnly f), (SuccessOnly f); simpl;
  destruct (CloudTrailEvent e) as [raw|]; simpl; try reflexivity;
  destruct (Unmarshal raw) as [d|]; simpl; try reflexivity;
  destruct (asString (lookup "errorCode" d)) as [code has];
  destruct has, (nonEmpty code); reflexivity.
Qed.

Lemma statusOK_false_false (e : Event) : statusOK Unmarshal e false false = true.
Proof.
  unfold statusOK. destruct (CloudTrailEvent e) as [raw|]; [|reflexivity].
  destruct (Unmarshal raw) as [d|]; [|reflexivity].
  destruct (asString (lookup "errorCode" d)); reflexivity.
Qed.

(** A check with its criterion unset passes. *)
Lemma keyOK_unset (e : Event) : keyOK Unmarshal e "" = true.
Proof. reflexivity. Qed.
Lemma nameOK_unset (e : Event) : nameOK ToLower e "" = true.
Proof. reflexivity. Qed.
Lemma userOK_unset (e : Event) : userOK ToLower e "" = true.
Proof. reflexivity. Qed.
Lemma operationOK_unset (e : Event) : operationOK e "" = true.
Proof. reflexivity. Qed.

(** Setting a flag can only make the status check harder. *)
Lemma statusOK_mono (e : Event) (a b a' b' : bool) :
  (a = true -> a' = true) -> (b = true -> b' = true) ->
  statusOK Unmarshal e a' b' = true -> statusOK Unmarshal e a b = true.
Proof.
  unfold statusOK. intros Ha Hb.
  destruct (CloudTrailEvent e) as [raw|]; [|reflexivity].
  destruct (Unmarshal raw) as [d|]; [|reflexivity].
  destruct (asString (lookup "errorCode" d)) as [code has].
  destruct a, b, a', b', has, (nonEmpty code); simpl; intros; try reflexivity;
    try discriminate; try (specialize (Ha eq_refl); discriminate);
    try (specialize (Hb eq_refl); discriminate).
Qed.

(** C10: with every string criterion empty and both flags off, every
    event matches: an unfiltered scan forwards all it retrieves. *)
Theorem C10_unset_criteria_match_everything (e : Event) (f : FilterOptions) :
  KeyID f = "" -> EventNameF f = "" -> UserName f = "" -> Operation f = "" ->
  ErrorsOnly f = false -> SuccessOnly f = false ->
  matchesFilter Unmarshal ToLower e f = true.
Proof.
  intros Hk Hn Hu Ho He Hs. rewrite matchesFilter_conj.
  rewrite Hk, Hn, Hu, Ho, He, Hs.
  rewrite keyOK_unset, nameOK_unset, userOK_unset, operationOK_unset,
    statusOK_false_false. reflexivity.
Qed.

(** C9: enabling one more criterion never turns a non-matching event
    into a matching one: a match under the extended criteria is a match
    under the original ones. *)
Theorem C9_enabling_a_criterion_never_adds_matches
    (e : Event) (f f' : FilterOptions) :
  enablesOne f f' -> matchesFilter Unmarshal ToLower e f' = true -> matchesFilter Unmarshal ToLower e f = true.
Proof.
  intros Hen. rewrite !matchesFilter_conj.
  destruct Hen as [k H|n H|u H|o H|H|H]; simpl; rewrite ?H;
    rewrite ?keyOK_unset, ?nameOK_unset, ?userOK_unset, ?operationOK_unset;
    intros Hm; repeat (apply andb_prop in Hm; destruct Hm as [Hm ?]);
    repeat (apply andb_true_intro; split); try assumption; try reflexivity.
  - eapply statusOK_mono; [| |eassumption]; simpl; auto.
  - eapply statusOK_mono; [| |eassumption]; simpl; auto.
Qed.

(** With errorsOnly, a detail document that decodes and has no string
    under [errorCode] is rejected. *)
Lemma errorsOnly_rejects_decoded_without_code
    (e : Event) (f : FilterOptions) (raw : string) (d : Document) :
  ErrorsOnly f = true ->
  CloudTrailEvent e = Some raw -> Unmarshal raw = Some d ->
  snd (asString (lookup "errorCode" d)) = false ->
  matchesFilter Unmarshal ToLower e f = false.
Proof.
  intros He Hr Hd Hc. rewrite matchesFilter_conj.
  assert (Hs : statusOK Unmarshal e (ErrorsOnly f) (SuccessOnly f) = false).
  { unfold statusOK. rewrite Hr, Hd, He.
    destruct (asString (lookup "errorCode" d)) as [code has].
    simpl in Hc. subst has. reflexivity. }
  rewrite Hs. apply andb_false_r.
Qed.

(** With only successOnly set, an event matches exactly when its detail
    has no non-empty error code. *)
Lemma successOnly_iff (e : Event) :
  matchesFilter Unmarshal ToLower e successOnlyF = negb (hasNonEmptyErrorCode Unmarshal e).
Proof.
  rewrite matchesFilter_conj. simpl.
  unfold statusOK, hasNonEmptyErrorCode.
  destruct (CloudTrailEvent e) as [raw|]; [|reflexivity].
  destruct (Unmarshal raw) as [d|]; [|reflexivity].
  destruct (asString (lookup "errorCode" d)) as [code has].
  destruct has, (nonEmpty code); reflexivity.
Qed.

(** With only errorsOnly set, every event with a non-empty error code
    matches; together with [successOnly_iff] the two classes cover all
    events. *)
Lemma errorsOnly_accepts_coded (e : Event) :
  hasNonEmptyErrorCode Unmarshal e = true -> matchesFilter Unmarshal ToLower e errorsOnlyF = true.
Proof.
  rewrite matchesFilter_conj. simpl.
  unfold statusOK, hasNonEmptyErrorCode.
  destruct (CloudTrailEvent e) as [raw|]; [|discriminate].
  destruct (Unmarshal raw) as [d|]; [|discriminate].
  destruct (asString (lookup "errorCode" d)) as [code has].
  destruct has, (nonEmpty code); simpl; congruence.
Qed.

End FilterFacts.

Lemma C10_witness :
  matchesFilter Json.Unmarshal ToLowerASCII eventWithCode unfiltered = true.
Proof.
  apply (C10_unset_criteria_match_everything Json.Unmarshal ToLowerASCII
           eventWithCode unfiltered); reflexivity.
Defined.

Lemma C9_witness :
  matchesFilter Json.Unmarshal ToLowerASCII eventWithCode
    (mkFilter "" "decrypt" "" "" false false) = true.
Proof.
  apply (C9_enabling_a_criterion_never_adds_matches Json.Unmarshal ToLowerASCII
           eventWithCode (mkFilter "" "decrypt" "" "" false false)
           (mkFilter "" "decrypt" "" "" true false)).
  - exact (en_errors (mkFilter "" "decrypt" "" "" false false) eq_refl).
  - vm_compute. reflexivity.
Defined.

(** C1: with errorsOnly set, an event that carries no detail at all is
    still accepted by the code, and so is one whose detail does not
    decode and one whose error code is the empty string, although none
    has a non-empty error code. *)
Theorem C1_errorsOnly_accepts_events_without_error_code :
  matchesFilter Json.Unmarshal ToLowerASCII eventWithoutDetail errorsOnlyF = true /\
  hasNonEmptyErrorCode Json.Unmarshal eventWithoutDetail = false /\
  matchesFilter Json.Unmarshal ToLowerASCII eventWithBrokenDetail errorsOnlyF = true /\
  hasNonEmptyErrorCode Json.Unmarshal eventWithBrokenDetail = false /\
  matchesFilter Json.Unmarshal ToLowerASCII eventWithEmptyCode errorsOnlyF = true /\
  hasNonEmptyErrorCode Json.Unmarshal eventWithEmptyCode = false.
Proof. vm_compute. repeat split; reflexivity. Qed.

(** C2: the two flags do not split the events into disjoint classes on
    the code: an event without detail matches under errorsOnly and under
    successOnly, and it matches under errorsOnly without having a
    non-empty error code. *)
Theorem C2_event_without_detail_is_in_both_classes :
  matchesFilter Json.Unmarshal ToLowerASCII eventWithoutDetail errorsOnlyF = true /\
  matchesFilter Json.Unmarshal ToLowerASCII eventWithoutDetail successOnlyF = true /\
  hasNonEmptyErrorCode Json.Unmarshal eventWithoutDetail = false.
Proof. vm_compute. repeat split; reflexivity. Qed.

(** ** Time ranges *)

Local Open Scope Z_scope.

Lemma wrap64_small (x : Z) : - 2 ^ 63 <= x < 2 ^ 63 -> wrap64 x = x.
Proof.
  intros H. unfold wrap64. rewrite Z.mod_small; lia.
Qed.

Lemma Hour_value : Hour = 3600000000000.
Proof. reflexivity. Qed.

Lemma Minute_value : Minute = 60000000000.
Proof. reflexivity. Qed.

(** A window that passed the two checks is ordered and at most a day
    long; the clamping of [Sub] does not hide a longer one. *)
Lemma validateRange_Ok (s e a b : Time) :
  validateRange s e = Ok a b ->
  a = s /\ b = e /\ s <= e /\ e - s <= 24 * Hour.
Proof.
  unfold validateRange, Sub, minDuration, maxDuration. rewrite Hour_value.
  destruct (e - s <? - 2 ^ 63) eqn:Hlo.
  - simpl. discriminate.
  - destruct (2 ^ 63 - 1 <? e - s) eqn:Hhi.
    + simpl. discriminate.
    + destruct (e - s <? 0) eqn:Hneg; [discriminate|].
      destruct (24 * 3600000000000 <? e - s) eqn:Hbig; [discriminate|].
      intros H. injection H as <- <-.
      apply Z.ltb_ge in Hneg, Hbig. lia.
Qed.

Lemma validateRange_before (s e : Time) :
  e < s -> validateRange s e = Err ErrEndBeforeStart.
Proof.
  intros H. unfold validateRange, Sub, minDuration, maxDuration.
  destruct (e - s <? - 2 ^ 63) eqn:Hlo; [reflexivity|].
  destruct (2 ^ 63 - 1 <? e - s) eqn:Hhi.
  - apply Z.ltb_lt in Hhi. lia.
  - destruct (e - s <? 0) eqn:Hneg; [reflexivity|].
    apply Z.ltb_ge in Hneg. lia.
Qed.

Lemma validateRange_too_long (s e : Time) :
  24 * Hour < e - s -> validateRange s e = Err ErrExceeds24h.
Proof.
  rewrite Hour_value. intros H.
  unfold validateRange, Sub, minDuration, maxDuration. rewrite Hour_value.
  destruct (e - s <? - 2 ^ 63) eqn:Hlo.
  - apply Z.ltb_lt in Hlo. lia.
  - destruct (2 ^ 63 - 1 <? e - s) eqn:Hhi; [reflexivity|].
    destruct (e - s <? 0) eqn:Hneg.
    + apply Z.ltb_lt in Hneg. lia.
    + destruct (24 * 3600000000000 <? e - s) eqn:Hbig; [reflexivity|].
      apply Z.ltb_ge in Hbig. lia.
Qed.

Lemma validateRange_within (s e : Time) :
  s <= e -> e - s <= 24 * Hour -> validateRange s e = Ok s e.
Proof.
  rewrite Hour_value. intros H1 H2.
  unfold validateRange, Sub, minDuration, maxDuration. rewrite Hour_value.
  destruct (e - s <? - 2 ^ 63) eqn:Hlo.
  - apply Z.ltb_lt in Hlo. lia.
  - destruct (2 ^ 63 - 1 <? e - s) eqn:Hhi.
    + apply Z.ltb_lt in Hhi. lia.
    + destruct (e - s <? 0) eqn:Hneg.
      * apply Z.ltb_lt in Hneg. lia.
      * destruct (24 * 3600000000000 <? e - s) eqn:Hbig; [|reflexivity].
        apply Z.ltb_lt in Hbig. lia.
Qed.

(** The relative path: the window ends now and is as long as asked. *)
Lemma RelativeTimeRange_Ok (now : Time) (spec : string) (a b : Time) :
  RelativeTimeRange now spec = Ok a b ->
  exists digits unit_,
    FindStringSubmatch spec = Some (digits, unit_) /\
    b = now /\
    ((unit_ = "m"%string /\ 1 <= decimalValue 0 digits <= 1440 /\
      a = now - decimalValue 0 digits * Minute) \/
     (unit_ = "h"%string /\ 1 <= decimalValue 0 digits <= 24 /\
      a = now - decimalValue 0 digits * Hour)).
Proof.
  unfold RelativeTimeRange.
  destruct (FindStringSubmatch spec) as [[digits unit_]|]; [|discriminate].
  intros H. exists digits, unit_. split; [reflexivity|].
  unfold Atoi, maxDuration in H.
  destruct (String.eqb unit_ "m") eqn:Hm.
  - apply String.eqb_eq in Hm.
    destruct (2 ^ 63 - 1 <? decimalValue 0 digits) eqn:Hsat.
    + simpl in H. discriminate.
    + destruct ((decimalValue 0 digits <=? 0) || (1440 <? decimalValue 0 digits)) eqn:Hr;
        [discriminate|].
      apply orb_false_iff in Hr. destruct Hr as [Hr1 Hr2].
      apply Z.leb_gt in Hr1. apply Z.ltb_ge in Hr2.
      injection H as <- <-. split; [reflexivity|]. left.
      split; [assumption|]. split; [lia|].
      unfold Add. rewrite Minute_value.
      rewrite (wrap64_small (decimalValue 0 digits * 60000000000)) by lia.
      rewrite wrap64_small by lia. lia.
  - destruct (String.eqb unit_ "h") eqn:Hh; [|discriminate].
    apply String.eqb_eq in Hh.
    destruct (2 ^ 63 - 1 <? decimalValue 0 digits) eqn:Hsat.
    + simpl in H. discriminate.
    + destruct ((decimalValue 0 digits <=? 0) || (24 <? decimalValue 0 digits)) eqn:Hr;
        [discriminate|].
      apply orb_false_iff in Hr. destruct Hr as [Hr1 Hr2].
      apply Z.leb_gt in Hr1. apply Z.ltb_ge in Hr2.
      injection H as <- <-. split; [reflexivity|]. right.
      split; [assumption|]. split; [lia|].
      unfold Add. rewrite Hour_value.
      rewrite (wrap64_small (decimalValue 0 digits * 3600000000000)) by lia.
      rewrite wrap64_small by lia. lia.
Qed.

Lemma RelativeTimeRange_window (now : Time) (spec : string) (a b : Time) :
  RelativeTimeRange now spec = Ok a b -> a <= b /\ b - a <= 24 * Hour.
Proof.
  intros H. apply RelativeTimeRange_Ok in H.
  destruct H as (digits & unit_ & _ & -> & [(_ & Hr & ->)|(_ & Hr & ->)]);
    rewrite ?Hour_value, ?Minute_value; lia.
Qed.

Lemma nonEmpty_false (s : string) : nonEmpty s = false <-> s = EmptyString.
Proof. destruct s; simpl; split; congruence. Qed.

Lemma Parse_nonEmpty (l : Layout) (v : string) (t : Time) :
  Parse l v = Some t -> nonEmpty v = true.
Proof. destruct v; [destruct l; discriminate|reflexivity]. Qed.

Lemma parseFirst_nonEmpty (v : string) (t : Time) :
  parseFirst layouts v = Some t -> nonEmpty v = true.
Proof. destruct v; [discriminate|reflexivity]. Qed.

(** C3: every window [ValidateAndParseTimeRange] returns, by the relative
    or by the absolute path, is ordered and at most 24 hours long, and
    would pass the two range checks; on the absolute path an end before
    the start is refused as InvalidTimeRange and a span of more than 24
    hours as RangeTooLarge. *)
Theorem C3_window_is_ordered_and_bounded
    (now : Time) (lastN start end_ : string) :
  (forall s e, ValidateAndParseTimeRange now lastN start end_ = Ok s e ->
     s <= e /\ e - s <= 24 * Hour /\ validateRange s e = Ok s e) /\
  (forall s e, lastN = EmptyString ->
     parseFirst layouts start = Some s -> parseFirst layouts end_ = Some e ->
     (widenEnd end_ e < s ->
        exists err, ValidateAndParseTimeRange now lastN start end_ = Err err /\
                    kindOf err = InvalidTimeRange) /\
     (24 * Hour < widenEnd end_ e - s ->
        exists err, ValidateAndParseTimeRange now lastN start end_ = Err err /\
                    kindOf err = RangeTooLarge)).
Proof.
  split.
  - intros s e H.
    assert (Hw : s <= e /\ e - s <= 24 * Hour).
    { unfold ValidateAndParseTimeRange in H.
      destruct (nonEmpty lastN).
      - destruct (nonEmpty start || nonEmpty end_); [discriminate|].
        eapply RelativeTimeRange_window; eassumption.
      - destruct ((nonEmpty start && negb (nonEmpty end_)) ||
                  (negb (nonEmpty start) && nonEmpty end_)); [discriminate|].
        destruct (negb (nonEmpty start) && negb (nonEmpty end_)); [discriminate|].
        unfold CustomTimeRange in H.
        destruct (parseFirst layouts start) as [s0|]; [|discriminate].
        destruct (parseFirst layouts end_) as [e0|]; [|discriminate].
        apply validateRange_Ok in H. destruct H as (-> & -> & H1 & H2). tauto. }
    destruct Hw as [H1 H2]. repeat split; try assumption.
    apply validateRange_within; assumption.
  - intros s e -> Hs He.
    assert (Hv : ValidateAndParseTimeRange now "" start end_ =
                 validateRange s (widenEnd end_ e)).
    { unfold ValidateAndParseTimeRange. simpl.
      rewrite (parseFirst_nonEmpty _ _ Hs), (parseFirst_nonEmpty _ _ He). simpl.
      unfold CustomTimeRange. rewrite Hs, He. reflexivity. }
    rewrite Hv. split; intros H.
    + exists ErrEndBeforeStart. split; [apply validateRange_before; assumption|reflexivity].
    + exists ErrExceeds24h. split; [apply validateRange_too_long; assumption|reflexivity].
Qed.

Lemma C3_witness :
  (1732060800000000000 <= 1732147199000000000 /\
   1732147199000000000 - 1732060800000000000 <= 24 * Hour /\
   validateRange 1732060800000000000 1732147199000000000 =
     Ok 1732060800000000000 1732147199000000000) /\
  (exists err, ValidateAndParseTimeRange 0 "" "2024-11-21" "2024-11-20" = Err err /\
               kindOf err = InvalidTimeRange) /\
  (exists err, ValidateAndParseTimeRange 0 "" "2024-11-20" "2024-11-21" = Err err /\
               kindOf err = RangeTooLarge).
Proof.
  pose proof (C3_window_is_ordered_and_bounded 0 "" "2024-11-20" "2024-11-20") as [H _].
  pose proof (C3_window_is_ordered_and_bounded 0 "" "2024-11-21" "2024-11-20") as [_ H1].
  pose proof (C3_window_is_ordered_and_bounded 0 "" "2024-11-20" "2024-11-21") as [_ H2].
  split; [|split].
  - apply H. vm_compute. reflexivity.
  - refine (proj1 (H1 1732147200000000000 1732060800000000000 eq_refl _ _) _);
      vm_compute; reflexivity.
  - refine (proj2 (H2 1732060800000000000 1732147200000000000 eq_refl _ _) _);
      vm_compute; reflexivity.
Defined.

(** *** Relative specs *)

Lemma splitLast_app (front : string) (c : ascii) :
  splitLast (front ++ String c EmptyString) = Some (front, String c EmptyString).
Proof.
  induction front as [|a front IH]; simpl.
  - reflexivity.
  - rewrite IH. reflexivity.
Qed.

Lemma splitLast_inv (s front last : string) :
  splitLast s = Some (front, last) ->
  s = (front ++ last)%string /\ exists c, last = String c EmptyString.
Proof.
  revert front last. induction s as [|a s IH]; simpl; intros front last H.
  - discriminate.
  - destruct (splitLast s) as [[f l]|] eqn:Hs.
    + injection H as <- <-. destruct (IH f l eq_refl) as [-> Hc].
      split; [reflexivity|assumption].
    + injection H as <- <-. destruct s; [|simpl in Hs; destruct (splitLast s) as [[? ?]|]; discriminate].
      split; [reflexivity|]. exists a. reflexivity.
Qed.

Lemma FindStringSubmatch_Some (spec digits unit_ : string) :
  FindStringSubmatch spec = Some (digits, unit_) <->
  spec = (digits ++ unit_)%string /\ nonEmpty digits = true /\
  allDigits digits = true /\ (unit_ = "m"%string \/ unit_ = "h"%string).
Proof.
  unfold FindStringSubmatch. split.
  - destruct (splitLast spec) as [[f l]|] eqn:Hs; [|discriminate].
    destruct (nonEmpty f && allDigits f && (String.eqb l "m" || String.eqb l "h")) eqn:Hc;
      [|discriminate].
    intros H. injection H as <- <-.
    apply andb_prop in Hc. destruct Hc as [Hc Hu].
    apply andb_prop in Hc. destruct Hc as [Hn Hd].
    apply splitLast_inv in Hs. destruct Hs as [-> _].
    repeat split; try assumption.
    apply orb_prop in Hu. destruct Hu as [Hu|Hu]; apply String.eqb_eq in Hu; auto.
  - intros (-> & Hn & Hd & Hu).
    assert (Hl : splitLast (digits ++ unit_) = Some (digits, unit_)).
    { destruct Hu as [->| ->]; apply splitLast_app. }
    rewrite Hl, Hn, Hd. destruct Hu as [->| ->]; reflexivity.
Qed.

Lemma RelativeTimeRange_minutes (now : Time) (digits : string) :
  nonEmpty digits = true -> allDigits digits = true ->
  1 <= decimalValue 0 digits <= 1440 ->
  RelativeTimeRange now (digits ++ "m") =
  Ok (now - decimalValue 0 digits * Minute) now.
Proof.
  intros Hn Hd Hr. unfold RelativeTimeRange.
  assert (Hf : FindStringSubmatch (digits ++ "m") = Some (digits, "m"%string)).
  { apply FindStringSubmatch_Some. auto. }
  rewrite Hf. simpl String.eqb. cbv iota.
  unfold Atoi, maxDuration.
  destruct (2 ^ 63 - 1 <? decimalValue 0 digits) eqn:Hsat.
  { apply Z.ltb_lt in Hsat. lia. }
  destruct (decimalValue 0 digits <=? 0) eqn:H0.
  { apply Z.leb_le in H0. lia. }
  destruct (1440 <? decimalValue 0 digits) eqn:H1.
  { apply Z.ltb_lt in H1. lia. }
  simpl orb. cbv iota. unfold Add. rewrite Minute_value.
  rewrite (wrap64_small (decimalValue 0 digits * 60000000000)) by lia.
  rewrite wrap64_small by lia. f_equal; lia.
Qed.

Lemma RelativeTimeRange_hours (now : Time) (digits : string) :
  nonEmpty digits = true -> allDigits digits = true ->
  1 <= decimalValue 0 digits <= 24 ->
  RelativeTimeRange now (digits ++ "h") =
  Ok (now - decimalValue 0 digits * Hour) now.
Proof.
  intros Hn Hd Hr. unfold RelativeTimeRange.
  assert (Hf : FindStringSubmatch (digits ++ "h") = Some (digits, "h"%string)).
  { apply FindStringSubmatch_Some. auto. }
  rewrite Hf. simpl String.eqb. cbv iota.
  unfold Atoi, maxDuration.
  destruct (2 ^ 63 - 1 <? decimalValue 0 digits) eqn:Hsat.
  { apply Z.ltb_lt in Hsat. lia. }
  destruct (decimalValue 0 digits <=? 0) eqn:H0.
  { apply Z.leb_le in H0. lia. }
  destruct (24 <? decimalValue 0 digits) eqn:H1.
  { apply Z.ltb_lt in H1. lia. }
  simpl orb. cbv iota. unfold Add. rewrite Hour_value.
  rewrite (wrap64_small (decimalValue 0 digits * 3600000000000)) by lia.
  rewrite wrap64_small by lia. f_equal; lia.
Qed.

Lemma RelativeTimeRange_Err (now : Time) (spec : string) (err : TimeError) :
  RelativeTimeRange now spec = Err err -> kindOf err = InvalidTimeSpec.
Proof.
  unfold RelativeTimeRange.
  destruct (FindStringSubmatch spec) as [[digits unit_]|].
  - destruct (String.eqb unit_ "m").
    + destruct ((Atoi digits <=? 0) || (1440 <? Atoi digits)); intros H;
        [injection H as <-; reflexivity|discriminate].
    + destruct (String.eqb unit_ "h").
      * destruct ((Atoi digits <=? 0) || (24 <? Atoi digits)); intros H;
          [injection H as <-; reflexivity|discriminate].
      * intros H. injection H as <-. reflexivity.
  - intros H. injection H as <-. reflexivity.
Qed.

(** C5: a relative spec resolves exactly when it is an integer followed
    by [m] with a value from 1 to 1440 or by [h] with a value from 1 to
    24; the window is then [now - duration, now), so its length is the
    requested duration; any other text fails, with an InvalidTimeSpec
    error. *)
Theorem C5_relative_spec_resolves_iff_well_formed (now : Time) (spec : string) :
  (forall a b, RelativeTimeRange now spec = Ok a b <->
     exists d, denotesDuration spec d /\ a = now - d /\ b = now /\ b - a = d) /\
  ((exists a b, RelativeTimeRange now spec = Ok a b) <->
     exists d, denotesDuration spec d) /\
  (forall err, RelativeTimeRange now spec = Err err -> kindOf err = InvalidTimeSpec).
Proof.
  assert (Hfwd : forall a b, RelativeTimeRange now spec = Ok a b ->
            exists d, denotesDuration spec d /\ a = now - d /\ b = now /\ b - a = d).
  { intros a b H. apply RelativeTimeRange_Ok in H.
    destruct H as (digits & unit_ & Hf & -> & Hcase).
    apply FindStringSubmatch_Some in Hf. destruct Hf as (-> & Hn & Hd & _).
    destruct Hcase as [(-> & Hr & ->)|(-> & Hr & ->)].
    - exists (decimalValue 0 digits * Minute). split.
      + exists digits. split; [assumption|]. split; [assumption|]. left. auto.
      + repeat split; lia.
    - exists (decimalValue 0 digits * Hour). split.
      + exists digits. split; [assumption|]. split; [assumption|]. right. auto.
      + repeat split; lia. }
  assert (Hbwd : forall d, denotesDuration spec d ->
            RelativeTimeRange now spec = Ok (now - d) now).
  { intros d (digits & Hn & Hd & [(-> & Hr & ->)|(-> & Hr & ->)]).
    - apply RelativeTimeRange_minutes; assumption.
    - apply RelativeTimeRange_hours; assumption. }
  split; [|split].
  - intros a b. split; [apply Hfwd|].
    intros (d & Hden & -> & -> & _). apply Hbwd. assumption.
  - split.
    + intros (a & b & H). destruct (Hfwd a b H) as (d & Hden & _). exists d. assumption.
    + intros (d & Hden). exists (now - d), now. apply Hbwd. assumption.
  - apply RelativeTimeRange_Err.
Qed.

Lemma C5_witness :
  exists d, denotesDuration "90m" d /\
            1000000000000000 - 90 * Minute = 1000000000000000 - d /\
            1000000000000000 = 1000000000000000 /\
            1000000000000000 - (1000000000000000 - 90 * Minute) = d.
Proof.
  apply (proj1 (C5_relative_spec_resolves_iff_well_formed 1000000000000000 "90m")).
  vm_compute. reflexivity.
Defined.

(** *** Date-only texts *)

Lemma isDigit_not_colon (c : ascii) :
  isDigit c = true -> Ascii.eqb ":" c = false.
Proof.
  destruct c as [b0 b1 b2 b3 b4 b5 b6 b7].
  destruct b0, b1, b2, b3, b4, b5, b6, b7; simpl; intros H;
    try reflexivity; discriminate.
Qed.

Lemma getyear_inv (v r : string) (y : Z) :
  getyear v = Some (y, r) ->
  exists a b c d,
    v = String a (String b (String c (String d r))) /\
    isDigit a = true /\ isDigit b = true /\ isDigit c = true /\ isDigit d = true.
Proof.
  unfold getyear.
  destruct v as [|a [|b [|c [|d rest]]]]; try discriminate.
  destruct (isDigit a) eqn:Ha; [|discriminate].
  destruct (isDigit b) eqn:Hb; [|discriminate].
  destruct (isDigit c) eqn:Hc; [|discriminate].
  destruct (isDigit d) eqn:Hd; [|discriminate].
  simpl. intros H. injection H as _ <-.
  exists a, b, c, d. auto.
Qed.

Lemma skipDash_inv (v r : string) :
  skipChar v "-" = Some r -> v = String "-" r.
Proof.
  unfold skipChar. simpl.
  destruct v as [|d rest]; [discriminate|].
  destruct (Ascii.eqb d "-") eqn:Hd; [|discriminate].
  apply Ascii.eqb_eq in Hd. subst d. intros H. injection H as <-. reflexivity.
Qed.

Lemma getnum_fixed_inv (v r : string) (n : Z) :
  getnum v true = Some (n, r) ->
  exists a b, v = String a (String b r) /\ isDigit a = true /\ isDigit b = true.
Proof.
  unfold getnum.
  destruct v as [|a rest]; [discriminate|].
  destruct (isDigit a) eqn:Ha; [|discriminate].
  destruct rest as [|b rest']; [discriminate|].
  destruct (isDigit b) eqn:Hb; [|discriminate].
  intros H. injection H as _ <-. exists a, b. auto.
Qed.

(** A text with the date fields and nothing after them is ten
    characters: four digits, a dash, two digits, a dash, two digits. *)
Lemma parseDateFields_shape (v r : string) (y m d : Z) :
  parseDateFields v = Some (y, m, d, r) ->
  1 <= m <= 12 /\
  exists a b c e f g h i,
    v = String a (String b (String c (String e (String "-"
          (String f (String g (String "-" (String h (String i r))))))))) /\
    isDigit a = true /\ isDigit b = true /\ isDigit c = true /\ isDigit e = true /\
    isDigit f = true /\ isDigit g = true /\ isDigit h = true /\ isDigit i = true.
Proof.
  unfold parseDateFields, bind.
  destruct (getyear v) as [[y0 v1]|] eqn:Hy; [|discriminate].
  destruct (skipChar v1 "-") as [v2|] eqn:H1; [|discriminate].
  destruct (getnum v2 true) as [[m0 v3]|] eqn:Hm; [|discriminate].
  destruct ((m0 <=? 0) || (12 <? m0)) eqn:Hr; [discriminate|]. simpl.
  destruct (skipChar v3 "-") as [v4|] eqn:H2; [|discriminate].
  destruct (getnum v4 true) as [[d0 v5]|] eqn:Hd; [|discriminate].
  intros H. injection H as <- <- <- <-.
  apply orb_false_iff in Hr. destruct Hr as [Hr1 Hr2].
  apply Z.leb_gt in Hr1. apply Z.ltb_ge in Hr2.
  split; [lia|].
  apply getyear_inv in Hy. destruct Hy as (a & b & c & e & -> & Ha & Hb & Hc & He).
  apply skipDash_inv in H1. subst v1.
  apply getnum_fixed_inv in Hm. destruct Hm as (f & g & -> & Hf & Hg).
  apply skipDash_inv in H2. subst v3.
  apply getnum_fixed_inv in Hd. destruct Hd as (h & i & -> & Hh & Hi).
  exists a, b, c, e, f, g, h, i. repeat split; assumption.
Qed.

Lemma HasPrefix_empty (s : string) : HasPrefix s "" = true.
Proof. destruct s; reflexivity. Qed.

Lemma Contains_colon_cons (a : ascii) (s : string) :
  Contains (String a s) ":" = Ascii.eqb ":" a || Contains s ":".
Proof.
  change (Contains (String a s) ":")
    with (HasPrefix (String a s) ":" || Contains s ":").
  change (HasPrefix (String a s) ":") with (Ascii.eqb ":" a && HasPrefix s "").
  rewrite HasPrefix_empty, andb_true_r. reflexivity.
Qed.

Lemma date_text_has_no_colon (v : string) (y m d : Z) :
  parseDateFields v = Some (y, m, d, EmptyString) -> Contains v ":" = false.
Proof.
  intros H. apply parseDateFields_shape in H.
  destruct H as (_ & a & b & c & e & f & g & h & i & -> & Ha & Hb & Hc & He & Hf & Hg & Hh & Hi).
  apply isDigit_not_colon in Ha, Hb, Hc, He, Hf, Hg, Hh, Hi.
  rewrite !Contains_colon_cons, Ha, Hb, Hc, He, Hf, Hg, Hh, Hi. reflexivity.
Qed.

(** What [Parse] does with the date-only layout. *)
Lemma Parse_LayoutDate_inv (v : string) (t : Time) :
  Parse LayoutDate v = Some t ->
  exists y m d,
    parseDateFields v = Some (y, m, d, EmptyString) /\
    1 <= m <= 12 /\ 1 <= d <= daysIn m y /\ t = Date y m d 0 0 0 0.
Proof.
  unfold Parse, bind.
  destruct (parseDateFields v) as [[[[y m] d] r]|] eqn:Hp; [|discriminate].
  unfold finishParse, bind, guard.
  destruct (nonEmpty r) eqn:Hn; [discriminate|]. simpl.
  destruct ((d <? 1) || (daysIn m y <? d)) eqn:Hd; [discriminate|]. simpl.
  intros H. injection H as <-.
  apply nonEmpty_false in Hn. subst r.
  apply orb_false_iff in Hd. destruct Hd as [Hd1 Hd2].
  apply Z.ltb_ge in Hd1, Hd2.
  exists y, m, d. split; [reflexivity|].
  split; [apply (parseDateFields_shape _ _ _ _ _ Hp)|]. split; [lia|reflexivity].
Qed.

(** A date-only text parses under no layout with a time of day, so the
    loop over the layouts reaches the date-only one. *)
Lemma date_text_parses_last (v : string) (t : Time) :
  Parse LayoutDate v = Some t -> parseFirst layouts v = Some t.
Proof.
  intros H. pose proof (Parse_LayoutDate_inv _ _ H) as (y & m & d & Hp & _).
  unfold parseFirst, layouts. 
  assert (Hs : Parse LayoutSeconds v = None).
  { unfold Parse, bind. rewrite Hp. reflexivity. }
  assert (Hm : Parse LayoutMinutes v = None).
  { unfold Parse, bind. rewrite Hp. reflexivity. }
  rewrite Hs, Hm, H. reflexivity.
Qed.

Lemma end_of_day (y m d : Z) :
  Add (Add (Add (Date y m d 0 0 0 0) (23 * Hour)) (59 * Minute)) (59 * Second) =
  Date y m d 23 59 59 0.
Proof.
  unfold Add, Date. rewrite Hour_value, Minute_value. unfold Second. lia.
Qed.

(** C6: an end text that is a date only (YYYY-MM-DD) is taken as
    23:59:59 of that day, and it is this instant that the range checks
    see; a date-only start is midnight of its day. *)
Theorem C6_date_only_end_is_widened_to_end_of_day :
  (forall (end_ : string) (t : Time),
     Parse LayoutDate end_ = Some t ->
     exists y m d,
       parseDateFields end_ = Some (y, m, d, EmptyString) /\
       1 <= m <= 12 /\ 1 <= d <= daysIn m y /\
       parseFirst layouts end_ = Some (Date y m d 0 0 0 0) /\
       widenEnd end_ (Date y m d 0 0 0 0) = Date y m d 23 59 59 0 /\
       forall (start : string) (s : Time),
         parseFirst layouts start = Some s ->
         CustomTimeRange start end_ = validateRange s (Date y m d 23 59 59 0)) /\
  (forall (start : string) (s : Time),
     Parse LayoutDate start = Some s ->
     exists y m d,
       parseDateFields start = Some (y, m, d, EmptyString) /\
       parseFirst layouts start = Some (Date y m d 0 0 0 0) /\
       forall (end_ : string) (e : Time),
         parseFirst layouts end_ = Some e ->
         CustomTimeRange start end_ =
         validateRange (Date y m d 0 0 0 0) (widenEnd end_ e)).
Proof.
  split.
  - intros end_ t H.
    pose proof (date_text_parses_last _ _ H) as Hfirst.
    apply Parse_LayoutDate_inv in H. destruct H as (y & m & d & Hp & Hm & Hd & ->).
    exists y, m, d.
    assert (Hw : widenEnd end_ (Date y m d 0 0 0 0) = Date y m d 23 59 59 0).
    { unfold widenEnd. rewrite (date_text_has_no_colon _ _ _ _ Hp). simpl negb.
      cbv iota. apply end_of_day. }
    repeat split; try assumption; try lia.
    intros start s Hs. unfold CustomTimeRange. rewrite Hs, Hfirst, Hw. reflexivity.
  - intros start s H.
    pose proof (date_text_parses_last _ _ H) as Hfirst.
    apply Parse_LayoutDate_inv in H. destruct H as (y & m & d & Hp & Hm & Hd & ->).
    exists y, m, d. repeat split; try assumption.
    intros end_ e He. unfold CustomTimeRange. rewrite Hfirst, He. reflexivity.
Qed.

Lemma C6_witness :
  exists y m d,
    parseDateFields "2024-11-20" = Some (y, m, d, EmptyString) /\
    1 <= m <= 12 /\ 1 <= d <= daysIn m y /\
    parseFirst layouts "2024-11-20" = Some (Date y m d 0 0 0 0) /\
    widenEnd "2024-11-20" (Date y m d 0 0 0 0) = Date y m d 23 59 59 0 /\
    forall (start : string) (s : Time),
      parseFirst layouts start = Some s ->
      CustomTimeRange start "2024-11-20" = validateRange s (Date y m d 23 59 59 0).
Proof.
  apply (proj1 C6_date_only_end_is_widened_to_end_of_day "2024-11-20"
           1732060800000000000).
  vm_compute. reflexivity.
Defined.

(** The example of the specification: the date-only end 2024-11-20 is
    the instant that 2024-11-20 23:59:59 names. *)
Example date_only_end_2024_11_20 :
  CustomTimeRange "2024-11-20 09:30" "2024-11-20" =
  Ok (Date 2024 11 20 9 30 0 0) (Date 2024 11 20 23 59 59 0) /\
  Parse LayoutSeconds "2024-11-20 23:59:59" = Some (Date 2024 11 20 23 59 59 0).
Proof. vm_compute. split; reflexivity. Qed.

(** ** The sink: destination and day rotation *)

(** *** Calendar arithmetic *)

Lemma dayOfEra_range (doe : Z) :
  0 <= doe <= 146096 ->
  let yoe := (doe - doe / 1460 + doe / 36524 - doe / 146096) / 365 in
  let doy := doe - (365 * yoe + yoe / 4 - yoe / 100) in
  0 <= yoe <= 399 /\ 0 <= doy <= 365.
Proof.
  intros H. cbv zeta. Z.to_euclidean_division_equations; lia.
Qed.

Lemma dayOfYear_range (doy : Z) :
  0 <= doy <= 365 ->
  let mp := (5 * doy + 2) / 153 in
  let d := doy - (153 * mp + 2) / 5 + 1 in
  0 <= mp <= 11 /\ 1 <= d <= 31.
Proof.
  intros H. cbv zeta. Z.to_euclidean_division_equations; lia.
Qed.

(** Sets up the intermediate quantities of [civilFromDays] with their
    ranges. *)
Ltac civil_setup days :=
  unfold civilFromDays;
  set (z := days + 719468);
  set (era := z / 146097);
  set (doe := z - era * 146097);
  assert (Hdoe : 0 <= doe <= 146096)
    by (unfold doe, era; Z.to_euclidean_division_equations; lia);
  let Hr := fresh "Hr" in
  pose proof (dayOfEra_range doe Hdoe) as Hr; cbv zeta in Hr;
  set (yoe := (doe - doe / 1460 + doe / 36524 - doe / 146096) / 365) in *;
  set (doy := doe - (365 * yoe + yoe / 4 - yoe / 100)) in *;
  destruct Hr as [Hyoe Hdoy];
  let Hm := fresh "Hm" in
  pose proof (dayOfYear_range doy Hdoy) as Hm; cbv zeta in Hm;
  set (mp := (5 * doy + 2) / 153) in *;
  destruct Hm as [Hmp Hd].

(** The month is 1..12 and the day 1..31. *)
Lemma civilFromDays_fields (days : Z) :
  let '(y, m, d) := civilFromDays days in 1 <= m <= 12 /\ 1 <= d <= 31.
Proof.
  civil_setup days.
  destruct (mp <? 10) eqn:Hlt; [apply Z.ltb_lt in Hlt|apply Z.ltb_ge in Hlt]; lia.
Qed.

(** The civil date names the day: counting the days back gives the day
    number. *)
Lemma daysFromCivil_civilFromDays (days : Z) :
  let '(y, m, d) := civilFromDays days in daysFromCivil y m d = days.
Proof.
  civil_setup days. unfold daysFromCivil.
  destruct (mp <? 10) eqn:Hlt.
  - apply Z.ltb_lt in Hlt.
    replace (mp + 3 <=? 2) with false by (symmetry; apply Z.leb_gt; lia).
    replace (2 <? mp + 3) with true by (symmetry; apply Z.ltb_lt; lia).
    replace (mp + 3 - 3) with mp by lia.
    replace ((yoe + era * 400) / 400) with era
      by (Z.to_euclidean_division_equations; lia).
    replace (yoe + era * 400 - era * 400) with yoe by lia.
    unfold doy, doe, z. lia.
  - apply Z.ltb_ge in Hlt.
    replace (mp - 9 <=? 2) with true by (symmetry; apply Z.leb_le; lia).
    replace (2 <? mp - 9) with false by (symmetry; apply Z.ltb_ge; lia).
    replace (mp - 9 + 9) with mp by lia.
    replace (yoe + era * 400 + 1 - 1) with (yoe + era * 400) by lia.
    replace ((yoe + era * 400) / 400) with era
      by (Z.to_euclidean_division_equations; lia).
    replace (yoe + era * 400 - era * 400) with yoe by lia.
    unfold doy, doe, z. lia.
Qed.

Lemma civilFromDays_year (days : Z) :
  -719528 <= days <= 2932896 ->
  let '(y, m, d) := civilFromDays days in 0 <= y <= 9999.
Proof.
  intros H. civil_setup days.
  destruct (mp <? 10) eqn:Hlt.
  - apply Z.ltb_lt in Hlt.
    replace (mp + 3 <=? 2) with false by (symmetry; apply Z.leb_gt; lia).
    clear Hmp Hd. unfold mp, doy in Hlt. clearbody yoe. unfold doe, era, z in *.
    Z.to_euclidean_division_equations; lia.
  - apply Z.ltb_ge in Hlt.
    replace (mp - 9 <=? 2) with true by (symmetry; apply Z.leb_le; lia).
    clear Hmp Hd. unfold mp, doy in Hlt. clearbody yoe. unfold doe, era, z in *.
    Z.to_euclidean_division_equations; lia.
Qed.

(** Two readings have the same calendar day exactly when they fall on
    the same day number. *)
Lemma calendarDay_dayNumber (t1 t2 : Time) :
  calendarDay t1 = calendarDay t2 <-> dayNumber t1 = dayNumber t2.
Proof.
  unfold calendarDay. fold (dayNumber t1). fold (dayNumber t2). split.
  - intros H.
    pose proof (daysFromCivil_civilFromDays (dayNumber t1)) as H1.
    pose proof (daysFromCivil_civilFromDays (dayNumber t2)) as H2.
    rewrite H in H1. destruct (civilFromDays (dayNumber t2)) as [[y m] d].
    congruence.
  - intros ->. reflexivity.
Qed.

(** *** Digits *)

Lemma digitChar_code (a : Z) :
  0 <= a <= 9 -> nat_of_ascii (digitChar a) = (48 + Z.to_nat a)%nat.
Proof.
  intros H. unfold digitChar. apply nat_ascii_embedding. lia.
Qed.

Lemma digitChar_inj (a b : Z) :
  0 <= a <= 9 -> 0 <= b <= 9 -> digitChar a = digitChar b -> a = b.
Proof.
  intros Ha Hb H. apply (f_equal nat_of_ascii) in H.
  rewrite !digitChar_code in H by assumption. lia.
Qed.

Lemma digitChar_not_slash (a : Z) :
  0 <= a <= 9 -> Ascii.eqb (digitChar a) "/" = false.
Proof.
  intros H. apply Ascii.eqb_neq. intros E.
  apply (f_equal nat_of_ascii) in E. rewrite digitChar_code in E by assumption.
  change (nat_of_ascii "/") with 47%nat in E. lia.
Qed.

Lemma appendInt_4 (y : Z) :
  0 <= y <= 9999 ->
  appendInt y 4 =
  String (digitChar (y / 1000)) (String (digitChar (y / 100 mod 10))
    (String (digitChar (y / 10 mod 10)) (String (digitChar (y mod 10)) EmptyString))).
Proof.
  intros H. unfold appendInt. rewrite Z.abs_eq by lia.
  replace (y <? 10000) with true by (symmetry; apply Z.ltb_lt; lia).
  replace (y <? 0) with false by (symmetry; apply Z.ltb_ge; lia).
  reflexivity.
Qed.

Lemma appendInt_2 (m : Z) :
  0 <= m <= 99 ->
  appendInt m 2 =
  String (digitChar (m / 10)) (String (digitChar (m mod 10)) EmptyString).
Proof.
  intros H. unfold appendInt. rewrite Z.abs_eq by lia.
  replace (m <? 100) with true by (symmetry; apply Z.ltb_lt; lia).
  replace (m <? 0) with false by (symmetry; apply Z.ltb_ge; lia).
  reflexivity.
Qed.

(** The date of a reading in the four-digit years, character by
    character. *)
Lemma formatDate_chars (t : Time) :
  fourDigitYear t ->
  exists y m d,
    calendarDay t = (y, m, d) /\ 0 <= y <= 9999 /\ 1 <= m <= 12 /\ 1 <= d <= 31 /\
    formatDate t =
    String (digitChar (y / 1000)) (String (digitChar (y / 100 mod 10))
      (String (digitChar (y / 10 mod 10)) (String (digitChar (y mod 10))
        (String "-" (String (digitChar (m / 10)) (String (digitChar (m mod 10))
          (String "-" (String (digitChar (d / 10))
            (String (digitChar (d mod 10)) EmptyString))))))))).
Proof.
  intros H. unfold fourDigitYear in H. unfold formatDate, calendarDay.
  fold (dayNumber t).
  pose proof (civilFromDays_fields (dayNumber t)) as Hf.
  pose proof (civilFromDays_year (dayNumber t) H) as Hy.
  destruct (civilFromDays (dayNumber t)) as [[y m] d].
  exists y, m, d. destruct Hf as [Hm Hd].
  repeat (split; [solve [reflexivity | assumption]|]).
  rewrite appendInt_4 by assumption. rewrite !appendInt_2 by lia. reflexivity.
Qed.

Lemma formatDate_inj (t1 t2 : Time) :
  fourDigitYear t1 -> fourDigitYear t2 ->
  formatDate t1 = formatDate t2 -> calendarDay t1 = calendarDay t2.
Proof.
  intros H1 H2 E.
  destruct (formatDate_chars t1 H1) as (y1 & m1 & d1 & -> & Hy1 & Hm1 & Hd1 & F1).
  destruct (formatDate_chars t2 H2) as (y2 & m2 & d2 & -> & Hy2 & Hm2 & Hd2 & F2).
  rewrite F1, F2 in E.
  injection E as E1 E2 E3 E4 E5 E6 E7 E8.
  apply digitChar_inj in E1, E2, E3, E4, E5, E6, E7, E8;
    try (Z.to_euclidean_division_equations; lia).
  assert (y1 = y2) by (Z.to_euclidean_division_equations; lia).
  assert (m1 = m2) by (Z.to_euclidean_division_equations; lia).
  assert (d1 = d2) by (Z.to_euclidean_division_equations; lia).
  congruence.
Qed.

Lemma formatDate_noSlash (t : Time) :
  fourDigitYear t -> noSlash (formatDate t) = true.
Proof.
  intros H. destruct (formatDate_chars t H) as (y & m & d & _ & Hy & Hm & Hd & ->).
  cbn [noSlash].
  rewrite !digitChar_not_slash by (Z.to_euclidean_division_equations; lia).
  reflexivity.
Qed.

(** *** Strings and paths *)

Local Open Scope string_scope.

Lemma append_assoc_s (a b c : string) : (a ++ b) ++ c = a ++ (b ++ c).
Proof. induction a as [|x a IH]; simpl; [reflexivity|rewrite IH; reflexivity]. Qed.

Lemma append_inv_head (p a b : string) : p ++ a = p ++ b -> a = b.
Proof.
  induction p as [|x p IH]; simpl; intros H; [assumption|].
  injection H as H. auto.
Qed.

Lemma append_length_s (a b : string) :
  String.length (a ++ b) = (String.length a + String.length b)%nat.
Proof. induction a as [|x a IH]; simpl; [reflexivity|rewrite IH; reflexivity]. Qed.

Lemma append_nonEmpty (a b : string) :
  nonEmpty a = true -> nonEmpty (a ++ b) = true.
Proof. destruct a; [discriminate|reflexivity]. Qed.

Lemma long_is_ordinary (s : string) :
  (3 <= String.length s)%nat -> ordinary s = true.
Proof.
  destruct s as [|a [|b [|c s]]]; simpl; intros H; try lia.
  unfold ordinary. simpl.
  destruct (Ascii.eqb a "."); simpl; [|reflexivity].
  destruct (Ascii.eqb b "."); reflexivity.
Qed.

Lemma noSlash_append (a b : string) :
  noSlash a = true -> noSlash b = true -> noSlash (a ++ b) = true.
Proof.
  induction a as [|x a IH]; simpl; intros Ha Hb; [assumption|].
  apply andb_prop in Ha. destruct Ha as [Hx Ha]. rewrite Hx. simpl. auto.
Qed.

Lemma splitSlash_noSlash (x : string) :
  noSlash x = true -> splitSlash x = [x].
Proof.
  induction x as [|c x IH]; simpl; intros H; [reflexivity|].
  apply andb_prop in H. destruct H as [Hc Hx].
  apply negb_true_iff in Hc. rewrite Hc, (IH Hx). reflexivity.
Qed.

(** A slash-free text appended to a path extends its last component. *)
Lemma splitSlash_append (q : string) :
  exists front last,
    splitSlash q = (front ++ [last])%list /\
    forall x, noSlash x = true -> splitSlash (q ++ x) = (front ++ [(last ++ x)%string])%list.
Proof.
  induction q as [|c q (front & last & Hq & Hx)].
  - exists [], "". split; [reflexivity|]. intros x H. simpl.
    apply splitSlash_noSlash. assumption.
  - simpl. destruct (Ascii.eqb c "/").
    + exists ("" :: front), last. split.
      * rewrite Hq. reflexivity.
      * intros x H. rewrite (Hx x H). reflexivity.
    + rewrite Hq. destruct front as [|f fs].
      * exists [], (String c last). split; [reflexivity|].
        intros x H. rewrite (Hx x H). reflexivity.
      * exists (String c f :: fs), last. split; [reflexivity|].
        intros x H. rewrite (Hx x H). reflexivity.
Qed.

Lemma joinSlash_snoc (l : list string) (x : string) :
  joinSlash (l ++ [x])%list = joinPrefix l ++ x.
Proof.
  induction l as [|e l IH]; [reflexivity|].
  change (joinPrefix (e :: l)) with (e ++ "/" ++ joinPrefix l).
  rewrite !append_assoc_s, <- IH.
  destruct l; reflexivity.
Qed.

Lemma cleanStep_ordinary (rooted : bool) (out : list string) (comp : string) :
  ordinary comp = true -> cleanStep rooted out comp = comp :: out.
Proof.
  unfold ordinary, cleanStep. intros H. apply negb_true_iff in H.
  apply orb_false_iff in H. destruct H as [H H2].
  rewrite H, H2. reflexivity.
Qed.

(** Cleaning a path that ends in an ordinary last component keeps that
    component at the end, after a prefix fixed by what comes before. *)
Lemma Clean_append (q : string) :
  nonEmpty q = true ->
  exists prefix last,
    forall x, noSlash x = true -> ordinary (last ++ x) = true ->
              Clean (q ++ x) = prefix ++ (last ++ x).
Proof.
  intros Hq. destruct (splitSlash_append q) as (front & last & _ & Hsplit).
  destruct q as [|c q]; [discriminate|].
  set (rooted := Ascii.eqb c "/").
  set (out := fold_left (cleanStep rooted) front []).
  exists ((if rooted then "/" else "") ++ joinPrefix (rev out)), last.
  intros x Hx Ho.
  change (Clean (String c q ++ x)) with
    (let o := fold_left (cleanStep rooted) (splitSlash (String c q ++ x)) [] in
     if rooted then "/" ++ joinSlash (rev o)
     else match o with [] => "." | _ => joinSlash (rev o) end).
  cbv zeta. rewrite (Hsplit x Hx), fold_left_app. simpl fold_left.
  fold out. rewrite (cleanStep_ordinary _ _ _ Ho).
  simpl rev. rewrite joinSlash_snoc.
  destruct rooted; rewrite append_assoc_s; reflexivity.
Qed.

(** The daily path of an unconfigured writer is a fixed text followed by
    the date and [.log], and the date can be read back from it. *)
Lemma daily_path_inj (dir tag date1 date2 : string) :
  noSlash date1 = true -> noSlash date2 = true ->
  Join [dir; tag; tag ++ "-events-" ++ date1 ++ ".log"] =
  Join [dir; tag; tag ++ "-events-" ++ date2 ++ ".log"] ->
  date1 ++ ".log" = date2 ++ ".log".
Proof.
  intros H1 H2.
  assert (Hx : forall d, noSlash d = true -> noSlash (d ++ ".log") = true).
  { intros d Hd. apply noSlash_append; [assumption|reflexivity]. }
  assert (Hord : forall l d, ordinary (l ++ (d ++ ".log")) = true).
  { intros l d. apply long_is_ordinary. rewrite !append_length_s. simpl. lia. }
  assert (Hgen : forall q, nonEmpty q = true ->
            Clean (q ++ (date1 ++ ".log")) = Clean (q ++ (date2 ++ ".log")) ->
            date1 ++ ".log" = date2 ++ ".log").
  { intros q Hq E. destruct (Clean_append q Hq) as (prefix & last & Hc).
    rewrite (Hc _ (Hx _ H1) (Hord _ _)), (Hc _ (Hx _ H2) (Hord _ _)) in E.
    apply append_inv_head in E. apply append_inv_head in E. assumption. }
  unfold Join.
  destruct (nonEmpty dir) eqn:Hd.
  - unfold joinSlash. intros E.
    apply (Hgen (dir ++ "/" ++ tag ++ "/" ++ tag ++ "-events-")).
    + apply append_nonEmpty. assumption.
    + rewrite !append_assoc_s. simpl. simpl in E. exact E.
  - destruct (nonEmpty tag) eqn:Ht.
    + unfold joinSlash. intros E.
      apply (Hgen (tag ++ "/" ++ tag ++ "-events-")).
      * apply append_nonEmpty. assumption.
      * rewrite !append_assoc_s. simpl. simpl in E. exact E.
    + apply nonEmpty_false in Ht. subst tag. simpl nonEmpty. cbv iota.
      unfold joinSlash. intros E.
      apply (Hgen "-events-"); [reflexivity|exact E].
Qed.

Lemma readFile_appendFile (path text : string) (fs : Files) :
  readFile path (appendFile path text fs) =
  Some (match readFile path fs with Some old => old | None => "" end ++ text).
Proof.
  induction fs as [|[p c] fs IH]; simpl.
  - rewrite String.eqb_refl. reflexivity.
  - destruct (String.eqb p path) eqn:E; simpl; rewrite E; [reflexivity|exact IH].
Qed.

Section SinkFacts.

Variable MarshalIndent : Value -> string.
Variable Sprintv : Value -> string.

(** A write that meets no fault puts the record at the end of the file
    [GetCurrentFile] names at the reading of the write. *)
Lemma WriteEvent_destination (w : LogWriter) (now : Time) (event : Event)
    (eventDetails : option Document) (fs : Files) :
  WriteEvent MarshalIndent Sprintv w now NoFault event eventDetails fs =
  (appendFile (GetCurrentFile w now)
     (renderEvent MarshalIndent Sprintv w event eventDetails) fs, None).
Proof. reflexivity. Qed.

Lemma GetCurrentFile_same_day (w : LogWriter) (t1 t2 : Time) :
  calendarDay t1 = calendarDay t2 -> GetCurrentFile w t1 = GetCurrentFile w t2.
Proof.
  intros H. unfold GetCurrentFile, dailyName, formatDate. rewrite H. reflexivity.
Qed.


End SinkFacts.


(** The rotation at midnight, computed. *)
Example rotation_at_midnight :
  GetCurrentFile (NewLogWriter "/var/log/audit" "kms" None)
    (Date 2024 11 20 23 59 59 0) = "/var/log/audit/kms/kms-events-2024-11-20.log" /\
  GetCurrentFile (NewLogWriter "/var/log/audit" "kms" None)
    (Date 2024 11 21 0 0 0 0) = "/var/log/audit/kms/kms-events-2024-11-21.log" /\
  GetCurrentFile (NewLogWriter "/var/log/audit" "kms" (Some (mkExport "out.json" "json")))
    (Date 2024 11 21 0 0 0 0) = "out.json".
Proof. vm_compute. repeat split; reflexivity. Qed.

(** ** The scan *)

Lemma countIf_app {A : Type} (p : A -> bool) (l1 l2 : list A) :
  countIf p (l1 ++ l2)%list = (countIf p l1 + countIf p l2)%nat.
Proof. unfold countIf. rewrite filter_app, length_app. reflexivity. Qed.

Lemma faultsAmong_add (fault : nat -> Fault) (from n m : nat) :
  faultsAmong fault from (n + m) =
  (faultsAmong fault from n + faultsAmong fault (from + n) m)%nat.
Proof. unfold faultsAmong. rewrite seq_app, countIf_app. reflexivity. Qed.

Section ScanFacts.

Variable Unmarshal : string -> option Document.
Variable ToLower : string -> string.
Variable MarshalIndent : Value -> string.
Variable Sprintv : Value -> string.
Variable clock : nat -> Time.
Variable fault : nat -> Fault.

Lemma advanced_refl (w : World) : advanced Unmarshal fault w w [] 0.
Proof.
  unfold advanced, faultsAmong, countIf. simpl. repeat split; lia.
Qed.

Lemma advanced_trans (w1 w2 w3 : World) (m1 m2 : list Event) (r1 r2 : nat) :
  advanced Unmarshal fault w1 w2 m1 r1 ->
  advanced Unmarshal fault w2 w3 m2 r2 ->
  advanced Unmarshal fault w1 w3 (m1 ++ m2)%list (r1 + r2).
Proof.
  unfold advanced.
  intros (A1 & A2 & A3 & A4 & A5 & A6) (B1 & B2 & B3 & B4 & B5 & B6).
  rewrite length_app, countIf_app, faultsAmong_add.
  rewrite A2 in B5. repeat split; lia.
Qed.

Lemma advanced_request (w : World) : advanced Unmarshal fault w (request w) [] 1.
Proof.
  unfold advanced, faultsAmong, countIf, request. simpl. repeat split; lia.
Qed.

(** A write returns an error exactly under a fault. *)
Lemma WriteEvent_error (lw : LogWriter) (now : Time) (f : Fault) (e : Event)
    (d : option Document) (fs : Files) :
  snd (WriteEvent MarshalIndent Sprintv lw now f e d fs) = None <-> f = NoFault.
Proof. destruct f; simpl; split; congruence. Qed.

(** One matching event: one write, one console block, and a warning
    for each of the two things that can go wrong with it. *)
Lemma processEvent_advanced (lw : LogWriter) (e : Event) (w : World) :
  advanced Unmarshal fault w
    (processEvent Unmarshal MarshalIndent Sprintv clock fault lw e w) [e] 0.
Proof.
  unfold advanced, processEvent, undecodable, faultsAmong, countIf.
  destruct (CloudTrailEvent e) as [raw|] eqn:Hc;
    [destruct (Unmarshal raw) as [d|] eqn:Hu|];
    destruct (fault (writes w)) eqn:Hf; simpl; rewrite ?Hf; simpl;
    rewrite ?filter_app, ?length_app; simpl; rewrite ?Hc, ?Hu; simpl;
    repeat split; lia.
Qed.

Lemma processPage_advanced (lw : LogWriter) (filters : FilterOptions)
    (events : list Event) (w : World) (eventCount : nat) :
  let matched := filter (fun e => matchesFilter Unmarshal ToLower e filters) events in
  let '(w', n) :=
    processPage Unmarshal ToLower MarshalIndent Sprintv clock fault
      lw filters events w eventCount in
  n = (eventCount + List.length matched)%nat /\
  advanced Unmarshal fault w w' matched 0.
Proof.
  revert w eventCount. induction events as [|e events IH]; intros w eventCount.
  - simpl. split; [lia|apply advanced_refl].
  - simpl. destruct (matchesFilter Unmarshal ToLower e filters); simpl.
    + specialize (IH (processEvent Unmarshal MarshalIndent Sprintv clock fault lw e w)
                     (S eventCount)).
      cbv zeta in IH.
      destruct (processPage _ _ _ _ _ _ _ _ events _ _) as [w' n].
      destruct IH as [Hn Ha]. split; [simpl; lia|].
      apply (advanced_trans _ _ _ [e] _ 0 0 (processEvent_advanced lw e w) Ha).
    + apply IH.
Qed.

Lemma scanPages_advanced (lw : LogWriter) (filters : FilterOptions)
    (pages : Pages) (w : World) (eventCount : nat) :
  let matched :=
    filter (fun e => matchesFilter Unmarshal ToLower e filters) (received pages) in
  let '(w', n, result) :=
    scanPages Unmarshal ToLower MarshalIndent Sprintv clock fault
      lw filters pages w eventCount in
  result = option_map (append "error looking up events: ") (firstFailure pages) /\
  n = (eventCount + List.length matched)%nat /\
  advanced Unmarshal fault w w' matched (answers pages).
Proof.
  revert w eventCount.
  induction pages as [cause retry _|events|events next IH]; intros w eventCount.
  - simpl. split; [reflexivity|]. split; [lia|apply advanced_request].
  - simpl.
    pose proof (processPage_advanced lw filters events (request w) eventCount) as Hp.
    cbv zeta in Hp.
    destruct (processPage _ _ _ _ _ _ _ _ events _ _) as [w' n].
    destruct Hp as [Hn Ha]. split; [reflexivity|]. split; [assumption|].
    apply (advanced_trans _ _ _ [] _ 1 0 (advanced_request w) Ha).
  - simpl.
    pose proof (processPage_advanced lw filters events (request w) eventCount) as Hp.
    cbv zeta in Hp.
    destruct (processPage _ _ _ _ _ _ _ _ events _ _) as [w1 n1].
    destruct Hp as [Hn1 Ha1].
    specialize (IH w1 n1). cbv zeta in IH.
    destruct (scanPages _ _ _ _ _ _ _ _ next _ _) as [[w' n] result].
    destruct IH as (Hres & Hn & Ha). split; [assumption|].
    rewrite filter_app, length_app. split; [lia|].
    pose proof (advanced_trans _ _ _ _ _ _ _
                  (advanced_trans _ _ _ [] _ 1 0 (advanced_request w) Ha1) Ha) as H.
    simpl in H. exact H.
Qed.

(** C4: the scan returns an error exactly when a page request fails,
    and the error carries the cause of that request; the request is not
    repeated.  Up to there (or to the last page) every matching event
    is written and shown, whatever happens to the others: a detail that
    does not decode and a failed write each leave one warning, and the
    returned result does not depend on them. *)
Theorem C4_scan_fails_only_on_page_failure
    (lw : LogWriter) (filters : FilterOptions) (start end_ : Time)
    (pages : Pages) (w : World) :
  let matched :=
    filter (fun e => matchesFilter Unmarshal ToLower e filters) (received pages) in
  let '(w', result) :=
    MonitorKMSEvents Unmarshal ToLower MarshalIndent Sprintv clock fault
      lw filters start end_ pages w in
  result = option_map (append "error looking up events: ") (firstFailure pages) /\
  (result <> None <-> firstFailure pages <> None) /\
  requests w' = (requests w + answers pages)%nat /\
  writes w' = (writes w + List.length matched)%nat /\
  countIf isEventLine (console w') =
    (countIf isEventLine (console w) + List.length matched)%nat /\
  countIf isWriteWarning (console w') =
    (countIf isWriteWarning (console w) +
     faultsAmong fault (writes w) (List.length matched))%nat /\
  countIf isParseWarning (console w') =
    (countIf isParseWarning (console w) + countIf (undecodable Unmarshal) matched)%nat.
Proof.
  cbv zeta. unfold MonitorKMSEvents.
  set (w0 := say _ _).
  pose proof (scanPages_advanced lw filters pages w0 0) as Hs. cbv zeta in Hs.
  destruct (scanPages _ _ _ _ _ _ _ _ pages _ _) as [[w1 n] result].
  destruct Hs as (Hres & Hn & (A1 & A2 & A3 & A4 & A5 & A6)).
  assert (Hw0 : requests w0 = requests w /\ writes w0 = writes w /\
                countIf isEventLine (console w0) = countIf isEventLine (console w) /\
                countIf isWriteWarning (console w0) = countIf isWriteWarning (console w) /\
                countIf isParseWarning (console w0) = countIf isParseWarning (console w)).
  { unfold w0, say, countIf. simpl. rewrite !filter_app, !length_app. simpl.
    repeat split; lia. }
  destruct Hw0 as (W1 & W2 & W3 & W4 & W5).
  rewrite W1 in A1. rewrite W2 in A2, A5. rewrite W3 in A4. rewrite W4 in A5.
  rewrite W5 in A6. clearbody w0.
  assert (Hiff : result <> None <-> firstFailure pages <> None).
  { rewrite Hres. destruct (firstFailure pages); simpl; split; congruence. }
  destruct result as [err|].
  - repeat split; try (apply Hiff); assumption.
  - unfold say. simpl. rewrite !countIf_app.
    unfold countIf in *.
    destruct (Nat.eqb n 0); simpl; repeat split;
      try (apply Hiff); try assumption; lia.
Qed.

End ScanFacts.

Lemma C4_witness :
  let '(w', result) :=
    MonitorKMSEvents Json.Unmarshal ToLowerASCII Json.MarshalIndent
      Json.MarshalIndent noonClock firstWriteFails jsonWriter unfiltered
      (Date 2024 11 20 0 0 0 0) (Date 2024 11 20 12 0 0 0)
      pageThenFailure emptyWorld in
  result = Some "error looking up events: ThrottlingException" /\
  requests w' = 2%nat /\ writes w' = 2%nat /\
  countIf isEventLine (console w') = 2%nat /\
  countIf isWriteWarning (console w') = 1%nat /\
  countIf isParseWarning (console w') = 1%nat.
Proof.
  pose proof (C4_scan_fails_only_on_page_failure Json.Unmarshal ToLowerASCII
                Json.MarshalIndent Json.MarshalIndent noonClock firstWriteFails
                jsonWriter unfiltered (Date 2024 11 20 0 0 0 0)
                (Date 2024 11 20 12 0 0 0) pageThenFailure emptyWorld) as H.
  cbv zeta in H.
  destruct (MonitorKMSEvents _ _ _ _ _ _ _ _ _ _ pageThenFailure _) as [w' result].
  destruct H as (H1 & _ & H3 & H4 & H5 & H6 & H7).
  rewrite H1, H3, H4, H5, H6, H7. vm_compute. repeat split; reflexivity.
Defined.

(** The end-to-end property of the specification: of the two pages one
    event matches, and the sink file holds exactly its record. *)
Example two_page_scan :
  let '(w', result) :=
    MonitorKMSEvents Json.Unmarshal ToLowerASCII Json.MarshalIndent
      Json.MarshalIndent noonClock noFaults jsonWriter decryptErrors
      (Date 2024 11 20 0 0 0 0) (Date 2024 11 20 12 0 0 0)
      twoPages emptyWorld in
  result = None /\
  countIf isEventLine (console w') = 1%nat /\
  files w' = [("/var/log/audit/kms/kms-events-2024-11-20.log",
               Json.MarshalIndent (jsonData deniedDecrypt
                 (Some [("errorCode", VString "AccessDenied");
                        ("errorMessage", VString "not allowed")])) ++ Json.nl)].
Proof. vm_compute. repeat split; reflexivity. Qed.

(** ** The JSON export *)

Lemma readAll_resourceValues (rs : list Resource) :
  readAll (map resourceValue rs) = Some rs.
Proof.
  induction rs as [|[name type] rs IH]; [reflexivity|].
  simpl. rewrite IH. destruct name, type; reflexivity.
Qed.

Lemma readResources_resourcesValue (rs : option (list Resource)) :
  readResources (Some (resourcesValue rs)) = Some rs.
Proof.
  destruct rs as [l|]; [|reflexivity].
  simpl. rewrite readAll_resourceValues. reflexivity.
Qed.

Section JsonRecord.

Variable MarshalIndent : Value -> string.
Variable Sprintv : Value -> string.
Variable Decode : string -> option Value.


End JsonRecord.



(** * Further properties *)

(** ** Time ranges: arguments and formats *)

Local Open Scope Z_scope.

Lemma CustomTimeRange_Err_kind (start end_ : string) (err : TimeError) :
  CustomTimeRange start end_ = Err err ->
  err = ErrStartFormat \/ err = ErrEndFormat \/
  err = ErrEndBeforeStart \/ err = ErrExceeds24h.
Proof.
  unfold CustomTimeRange.
  destruct (parseFirst layouts start) as [s|]; [|intros H; injection H as <-; auto].
  destruct (parseFirst layouts end_) as [e|]; [|intros H; injection H as <-; auto].
  unfold validateRange.
  destruct (Sub (widenEnd end_ e) s <? 0); [intros H; injection H as <-; auto|].
  destruct (24 * Hour <? Sub (widenEnd end_ e) s); [intros H; injection H as <-; auto|].
  discriminate.
Qed.

Lemma nonEmpty_true (s : string) : nonEmpty s = true <-> s <> EmptyString.
Proof. destruct s; simpl; split; congruence. Qed.

(** The three argument errors arise from the combination of the three
    texts alone: [lastN] together with a start or an end, or no [lastN]
    and a start or an end missing.  Any other combination is handed to
    the relative or to the absolute resolver, which never report an
    argument error. *)
Theorem ValidateAndParseTimeRange_argument_errors
    (now : Time) (lastN start end_ : string) :
  ((exists err, ValidateAndParseTimeRange now lastN start end_ = Err err /\
                kindOf err = InvalidArguments) <->
   (lastN <> EmptyString /\ (start <> EmptyString \/ end_ <> EmptyString)) \/
   (lastN = EmptyString /\ (start = EmptyString \/ end_ = EmptyString))) /\
  (lastN <> EmptyString -> start = EmptyString -> end_ = EmptyString ->
   ValidateAndParseTimeRange now lastN start end_ = RelativeTimeRange now lastN) /\
  (lastN = EmptyString -> start <> EmptyString -> end_ <> EmptyString ->
   ValidateAndParseTimeRange now lastN start end_ = CustomTimeRange start end_).
Proof.
  split; [split|split].
  - intros (err & H & K).
    destruct lastN as [|c l].
    + right. split; [reflexivity|].
      destruct start as [|a s]; [auto|]. destruct end_ as [|b e]; [auto|].
      exfalso. unfold ValidateAndParseTimeRange in H. simpl in H.
      apply CustomTimeRange_Err_kind in H.
      destruct H as [->|[->|[->| ->]]]; discriminate.
    + left. split; [discriminate|].
      destruct start as [|a s]; [|left; discriminate].
      destruct end_ as [|b e]; [|right; discriminate].
      exfalso. unfold ValidateAndParseTimeRange in H. simpl in H.
      apply RelativeTimeRange_Err in H. congruence.
  - intros [(Hl & Hse)|(-> & Hse)].
    + exists ErrLastNWithStartEnd. split; [|reflexivity].
      unfold ValidateAndParseTimeRange.
      apply nonEmpty_true in Hl. rewrite Hl.
      assert (Hor : nonEmpty start || nonEmpty end_ = true).
      { apply orb_true_iff. destruct Hse as [H|H]; apply nonEmpty_true in H; auto. }
      rewrite Hor. reflexivity.
    + unfold ValidateAndParseTimeRange. simpl.
      destruct start as [|a s], end_ as [|b e]; simpl.
      * exists ErrNoRange. split; reflexivity.
      * exists ErrStartEndTogether. split; reflexivity.
      * exists ErrStartEndTogether. split; reflexivity.
      * destruct Hse; discriminate.
  - intros Hl -> ->. unfold ValidateAndParseTimeRange.
    apply nonEmpty_true in Hl. rewrite Hl. reflexivity.
  - intros -> Hs He. unfold ValidateAndParseTimeRange.
    apply nonEmpty_true in Hs, He. simpl. rewrite Hs, He. reflexivity.
Qed.

Lemma argument_errors_witness :
  ValidateAndParseTimeRange 0 "2h" "" "" = RelativeTimeRange 0 "2h".
Proof.
  apply (proj1 (proj2 (ValidateAndParseTimeRange_argument_errors 0 "2h" "" "")));
    [discriminate|reflexivity|reflexivity].
Defined.

(** ** Time ranges: what the absolute path accepts *)

(** Midnight of a civil date is a whole number of days. *)
Lemma Date_midnight (y m d : Z) :
  Date y m d 0 0 0 0 = daysFromCivil y m d * (24 * Hour).
Proof. unfold Date. rewrite Hour_value. unfold Second. lia. Qed.

(** With a date-only start and a date-only end, the range is accepted
    exactly when both name the same day, and is then that whole day,
    from midnight to 23:59:59; an earlier end is refused as before the
    start and a later one as longer than 24 hours. *)
Theorem CustomTimeRange_two_dates (start end_ : string) (s e : Time) :
  Parse LayoutDate start = Some s -> Parse LayoutDate end_ = Some e ->
  (s = e -> CustomTimeRange start end_ =
            Ok s (s + 23 * Hour + 59 * Minute + 59 * Second)) /\
  (e < s -> CustomTimeRange start end_ = Err ErrEndBeforeStart) /\
  (s < e -> CustomTimeRange start end_ = Err ErrExceeds24h).
Proof.
  intros Hs He.
  pose proof (date_text_parses_last _ _ Hs) as Hfs.
  pose proof (date_text_parses_last _ _ He) as Hfe.
  destruct (Parse_LayoutDate_inv _ _ Hs) as (y1 & m1 & d1 & _ & _ & _ & Es).
  destruct (Parse_LayoutDate_inv _ _ He) as (y2 & m2 & d2 & Hp2 & _ & _ & Ee).
  assert (Hw : widenEnd end_ e = e + 23 * Hour + 59 * Minute + 59 * Second).
  { unfold widenEnd. rewrite (date_text_has_no_colon _ _ _ _ Hp2). reflexivity. }
  assert (Hc : CustomTimeRange start end_ =
               validateRange s (e + 23 * Hour + 59 * Minute + 59 * Second)).
  { unfold CustomTimeRange. rewrite Hfs, Hfe, Hw. reflexivity. }
  rewrite Hc. rewrite Date_midnight in Es, Ee.
  revert Es Ee. generalize (daysFromCivil y1 m1 d1) (daysFromCivil y2 m2 d2).
  intros a b -> ->. rewrite Hour_value, Minute_value. unfold Second.
  split; [|split]; intros H.
  - rewrite H. apply validateRange_within; rewrite ?Hour_value; lia.
  - apply validateRange_before. lia.
  - apply validateRange_too_long. rewrite Hour_value. lia.
Qed.

Lemma two_dates_witness :
  CustomTimeRange "2024-11-20" "2024-11-20" =
  Ok 1732060800000000000
     (1732060800000000000 + 23 * Hour + 59 * Minute + 59 * Second).
Proof.
  apply (proj1 (CustomTimeRange_two_dates "2024-11-20" "2024-11-20"
                  1732060800000000000 1732060800000000000 eq_refl eq_refl)).
  reflexivity.
Defined.

(** *** An end with a time of day *)

Lemma Contains_tail (a : ascii) (s p : string) :
  Contains s p = true -> Contains (String a s) p = true.
Proof.
  intros H.
  change (Contains (String a s) p) with (HasPrefix (String a s) p || Contains s p).
  rewrite H. apply orb_true_r.
Qed.

Lemma Contains_cutspace (s p : string) :
  Contains (cutspace s) p = true -> Contains s p = true.
Proof.
  induction s as [|c s IH]; [auto|].
  simpl cutspace.
  destruct c as [b0 b1 b2 b3 b4 b5 b6 b7];
    destruct b0, b1, b2, b3, b4, b5, b6, b7; auto.
  intros H. apply Contains_tail. auto.
Qed.

Lemma Contains_skipChar (v r : string) (c : ascii) (p : string) :
  skipChar v c = Some r -> Contains r p = true -> Contains v p = true.
Proof.
  unfold skipChar. destruct (Ascii.eqb c " ").
  - destruct v as [|d v']; [intros H; injection H as <-; auto|].
    destruct (Ascii.eqb d " "); [|discriminate].
    intros H. injection H as <-. exact (Contains_cutspace (String d v') p).
  - destruct v as [|d v']; [discriminate|].
    destruct (Ascii.eqb d c); [|discriminate].
    intros H. injection H as <-. apply Contains_tail.
Qed.

Lemma Contains_getnum (v r : string) (fixed : bool) (n : Z) (p : string) :
  getnum v fixed = Some (n, r) -> Contains r p = true -> Contains v p = true.
Proof.
  unfold getnum. destruct v as [|a rest]; [discriminate|].
  destruct (isDigit a); [|discriminate].
  destruct rest as [|b rest'].
  - destruct fixed; [discriminate|]. intros H. injection H as _ <-. apply Contains_tail.
  - destruct (isDigit b).
    + intros H. injection H as _ <-. intros K. apply Contains_tail, Contains_tail, K.
    + destruct fixed; [discriminate|]. intros H. injection H as _ <-. apply Contains_tail.
Qed.

Lemma skipColon_Contains (v r : string) :
  skipChar v ":" = Some r -> Contains v ":" = true.
Proof.
  unfold skipChar. simpl Ascii.eqb. cbv iota.
  destruct v as [|d v']; [discriminate|].
  destruct (Ascii.eqb d ":") eqn:E; [|discriminate].
  apply Ascii.eqb_eq in E. subst d. intros _.
  rewrite Contains_colon_cons. reflexivity.
Qed.

Lemma parseHourMinute_colon (v r : string) (h mi : Z) :
  parseHourMinute v = Some (h, mi, r) -> Contains v ":" = true.
Proof.
  unfold parseHourMinute, bind.
  destruct (skipChar v " ") as [v1|] eqn:H1; [|discriminate].
  destruct (getnum v1 false) as [[h0 v2]|] eqn:H2; [|discriminate].
  destruct (guard (negb (24 <=? h0))); [|discriminate].
  destruct (skipChar v2 ":") as [v3|] eqn:H3; [|discriminate].
  intros _.
  eapply Contains_skipChar; [exact H1|].
  eapply Contains_getnum; [exact H2|].
  eapply skipColon_Contains; exact H3.
Qed.

Lemma parseDateFields_Contains (v r : string) (y m d : Z) (p : string) :
  parseDateFields v = Some (y, m, d, r) -> Contains r p = true ->
  Contains v p = true.
Proof.
  intros H K. apply parseDateFields_shape in H.
  destruct H as (_ & a & b & c & e & f & g & h & i & -> & _).
  repeat apply Contains_tail. exact K.
Qed.

(** A text accepted with a time of day contains a colon. *)
Lemma timed_text_has_colon (l : Layout) (v : string) (t : Time) :
  l <> LayoutDate -> Parse l v = Some t -> Contains v ":" = true.
Proof.
  intros Hl. unfold Parse, bind.
  destruct (parseDateFields v) as [[[[y m] d] r]|] eqn:Hp; [|discriminate].
  destruct l; [| |congruence].
  - destruct (parseHourMinute r) as [[[h mi] r1]|] eqn:Hh; [|discriminate].
    intros _. eapply parseDateFields_Contains; [exact Hp|].
    eapply parseHourMinute_colon; exact Hh.
  - destruct (parseHourMinute r) as [[[h mi] r1]|] eqn:Hh; [|discriminate].
    intros _. eapply parseDateFields_Contains; [exact Hp|].
    eapply parseHourMinute_colon; exact Hh.
Qed.

(** An end text that is accepted but is not a bare date is taken as it
    is: only date-only ends are moved to the end of their day.  In
    particular an end written as midnight, [YYYY-MM-DD 00:00], stays at
    midnight. *)
Theorem CustomTimeRange_timed_end_is_kept (end_ : string) (e : Time) :
  parseFirst layouts end_ = Some e -> Parse LayoutDate end_ = None ->
  widenEnd end_ e = e /\
  forall (start : string) (s : Time),
    parseFirst layouts start = Some s ->
    CustomTimeRange start end_ = validateRange s e.
Proof.
  intros Hf Hd.
  assert (Hc : Contains end_ ":" = true).
  { unfold parseFirst, layouts in Hf.
    destruct (Parse LayoutSeconds end_) as [t|] eqn:H1.
    - apply (timed_text_has_colon LayoutSeconds _ _ ltac:(discriminate) H1).
    - destruct (Parse LayoutMinutes end_) as [t|] eqn:H2.
      + apply (timed_text_has_colon LayoutMinutes _ _ ltac:(discriminate) H2).
      + rewrite Hd in Hf. discriminate. }
  assert (Hw : widenEnd end_ e = e) by (unfold widenEnd; rewrite Hc; reflexivity).
  split; [exact Hw|].
  intros start s Hs. unfold CustomTimeRange. rewrite Hs, Hf, Hw. reflexivity.
Qed.

Lemma timed_end_witness :
  widenEnd "2024-11-20 00:00" 1732060800000000000 = 1732060800000000000 /\
  forall (start : string) (s : Time),
    parseFirst layouts start = Some s ->
    CustomTimeRange start "2024-11-20 00:00" = validateRange s 1732060800000000000.
Proof.
  apply (CustomTimeRange_timed_end_is_kept "2024-11-20 00:00" 1732060800000000000);
    vm_compute; reflexivity.
Defined.

(** The absolute path reports a format error exactly when one of the
    two texts is accepted by none of the three layouts, and names the
    start first when both are bad. *)
Theorem CustomTimeRange_format_errors (start end_ : string) :
  (parseFirst layouts start = None ->
   CustomTimeRange start end_ = Err ErrStartFormat) /\
  (parseFirst layouts start <> None -> parseFirst layouts end_ = None ->
   CustomTimeRange start end_ = Err ErrEndFormat) /\
  ((exists err, CustomTimeRange start end_ = Err err /\
                kindOf err = InvalidTimeFormat) <->
   parseFirst layouts start = None \/ parseFirst layouts end_ = None).
Proof.
  unfold CustomTimeRange.
  destruct (parseFirst layouts start) as [s|]; destruct (parseFirst layouts end_) as [e|].
  - split; [discriminate|]. split; [discriminate|]. split.
    + intros (err & H & K). exfalso. unfold validateRange in H.
      destruct (Sub (widenEnd end_ e) s <? 0); [injection H as <-; discriminate|].
      destruct (24 * Hour <? Sub (widenEnd end_ e) s); [injection H as <-|]; discriminate.
    + intros [H|H]; discriminate.
  - split; [discriminate|]. split; [reflexivity|]. split; [auto|].
    intros _. exists ErrEndFormat. split; reflexivity.
  - split; [reflexivity|]. split; [congruence|]. split; [auto|].
    intros _. exists ErrStartFormat. split; reflexivity.
  - split; [reflexivity|]. split; [congruence|]. split; [auto|].
    intros _. exists ErrStartFormat. split; reflexivity.
Qed.

Lemma format_errors_witness :
  CustomTimeRange "yesterday" "today" = Err ErrStartFormat.
Proof.
  apply (proj1 (CustomTimeRange_format_errors "yesterday" "today")).
  reflexivity.
Defined.

(** Whether the three texts are accepted, the error if they are not,
    and the length of the window do not depend on the moment of the
    call: resolving them again later gives the same verdict (the kms
    command that scans by key resolves them once to validate and once
    to run). *)
Theorem ValidateAndParseTimeRange_verdict_is_clock_free
    (now1 now2 : Time) (lastN start end_ : string) :
  (forall err, ValidateAndParseTimeRange now1 lastN start end_ = Err err ->
               ValidateAndParseTimeRange now2 lastN start end_ = Err err) /\
  (forall a b, ValidateAndParseTimeRange now1 lastN start end_ = Ok a b ->
     exists a' b', ValidateAndParseTimeRange now2 lastN start end_ = Ok a' b' /\
                   b' - a' = b - a /\
                   (lastN = EmptyString -> a' = a /\ b' = b) /\
                   (lastN <> EmptyString -> b = now1 /\ b' = now2)).
Proof.
  unfold ValidateAndParseTimeRange.
  destruct (nonEmpty lastN) eqn:Hl.
  - destruct (nonEmpty start || nonEmpty end_); [split; [auto|discriminate]|].
    assert (Hne : lastN <> EmptyString) by (apply nonEmpty_true; exact Hl).
    split.
    + intros err H. unfold RelativeTimeRange in *.
      destruct (FindStringSubmatch lastN) as [[digits unit_]|]; [|exact H].
      destruct (String.eqb unit_ "m").
      * destruct ((Atoi digits <=? 0) || (1440 <? Atoi digits)); [exact H|discriminate].
      * destruct (String.eqb unit_ "h"); [|exact H].
        destruct ((Atoi digits <=? 0) || (24 <? Atoi digits)); [exact H|discriminate].
    + intros a b H. unfold RelativeTimeRange in *.
      destruct (FindStringSubmatch lastN) as [[digits unit_]|]; [|discriminate].
      destruct (String.eqb unit_ "m").
      * destruct ((Atoi digits <=? 0) || (1440 <? Atoi digits)); [discriminate|].
        injection H as <- <-. eexists _, _. split; [reflexivity|].
        unfold Add. repeat split; try congruence; lia.
      * destruct (String.eqb unit_ "h"); [|discriminate].
        destruct ((Atoi digits <=? 0) || (24 <? Atoi digits)); [discriminate|].
        injection H as <- <-. eexists _, _. split; [reflexivity|].
        unfold Add. repeat split; try congruence; lia.
  - apply nonEmpty_false in Hl. split; [auto|].
    intros a b H. exists a, b. split; [exact H|]. repeat split; congruence.
Qed.

Lemma clock_free_witness :
  exists a' b', ValidateAndParseTimeRange 5000000000000000 "90m" "" "" = Ok a' b' /\
                b' - a' = 1000000000000000 - (1000000000000000 - 90 * Minute) /\
                ("90m"%string = EmptyString ->
                 a' = 1000000000000000 - 90 * Minute /\ b' = 1000000000000000) /\
                ("90m"%string <> EmptyString ->
                 1000000000000000 = 1000000000000000 /\ b' = 5000000000000000).
Proof.
  apply (proj2 (ValidateAndParseTimeRange_verdict_is_clock_free
                  1000000000000000 5000000000000000 "90m" "" "")).
  vm_compute. reflexivity.
Defined.


(** ** FormatDuration *)

Lemma lessThanHalf_small (x y : Duration) :
  0 <= x < 2 ^ 62 -> 0 <= y < 2 ^ 63 -> lessThanHalf x y = (2 * x <? y).
Proof.
  intros Hx Hy. unfold lessThanHalf.
  rewrite (Z.mod_small x), (Z.mod_small y), (Z.mod_small (x + x)) by lia.
  f_equal. lia.
Qed.

(** Rounding a non-negative duration to the minute. *)
Lemma Round_Minute_nonneg (d : Duration) :
  0 <= d <= maxDuration - Minute ->
  Round d Minute = Minute * ((d + 30 * Second) / Minute).
Proof.
  unfold maxDuration. rewrite Minute_value. unfold Second. intros H.
  unfold Round. change (60000000000 <=? 0) with false. cbv iota zeta.
  replace (d <? 0) with false by (symmetry; apply Z.ltb_ge; lia).
  rewrite Z.rem_mod_nonneg by lia.
  assert (Hr : 0 <= d mod 60000000000 < 60000000000)
    by (apply Z.mod_pos_bound; lia).
  rewrite lessThanHalf_small by lia.
  pose proof (Z.div_mod d 60000000000 ltac:(lia)) as Hd.
  destruct (2 * (d mod 60000000000) <? 60000000000) eqn:Hhalf.
  - apply Z.ltb_lt in Hhalf. rewrite wrap64_small by lia.
    replace ((d + 30 * 1000000000) / 60000000000) with (d / 60000000000); [lia|].
    apply Z.div_unique with (r := d mod 60000000000 + 30000000000); lia.
  - apply Z.ltb_ge in Hhalf. rewrite wrap64_small by lia.
    replace (d <? d + 60000000000 - d mod 60000000000) with true
      by (symmetry; apply Z.ltb_lt; lia).
    replace ((d + 30 * 1000000000) / 60000000000) with (d / 60000000000 + 1); [lia|].
    apply Z.div_unique with (r := d mod 60000000000 - 30000000000); lia.
Qed.

(** Rounding a negative duration gives a non-positive multiple of the
    minute. *)
Lemma Round_Minute_neg (d : Duration) :
  minDuration <= d < 0 ->
  exists k, Round d Minute = Minute * k /\ k <= 0 /\ minDuration <= Minute * k \/
            Round d Minute = minDuration.
Proof.
  unfold minDuration. rewrite Minute_value. intros H.
  unfold Round. change (60000000000 <=? 0) with false. cbv iota zeta.
  replace (d <? 0) with true by (symmetry; apply Z.ltb_lt; lia).
  assert (Hr : 0 <= - Z.rem d 60000000000 < 60000000000)
    by (Z.to_euclidean_division_equations; lia).
  rewrite lessThanHalf_small by lia.
  destruct (2 * - Z.rem d 60000000000 <? 60000000000) eqn:Hhalf.
  - rewrite wrap64_small by lia.
    exists (Z.quot d 60000000000). left.
    Z.to_euclidean_division_equations; lia.
  - destruct (wrap64 (d - 60000000000 + - Z.rem d 60000000000) <? d) eqn:Hlt.
    + apply Z.ltb_lt in Hlt.
      assert (Hw : - 2 ^ 63 <= d - 60000000000 + - Z.rem d 60000000000).
      { destruct (Z_lt_le_dec (d - 60000000000 + - Z.rem d 60000000000) (- 2 ^ 63))
          as [Hov|]; [|assumption].
        exfalso. unfold wrap64 in Hlt.
        replace ((d - 60000000000 + - Z.rem d 60000000000 + 2 ^ 63) mod 2 ^ 64)
          with (d - 60000000000 + - Z.rem d 60000000000 + 2 ^ 63 + 2 ^ 64) in Hlt.
        - lia.
        - apply Z.mod_unique with (q := -1); lia. }
      rewrite wrap64_small by lia.
      exists (Z.quot d 60000000000 - 1). left.
      Z.to_euclidean_division_equations; lia.
    + exists 0. right. reflexivity.
Qed.

(** A non-negative duration is shown as its nearest whole number of
    minutes. *)
Lemma FormatDuration_nonneg (d : Duration) :
  0 <= d <= maxDuration - Minute ->
  let total := (d + 30 * Second) / Minute in
  FormatDuration d = showHoursMinutes (total / 60) (total mod 60).
Proof.
  intros H. cbv zeta. unfold FormatDuration.
  rewrite (Round_Minute_nonneg d H).
  set (total := (d + 30 * Second) / Minute).
  assert (Ht : 0 <= total /\ Minute * total <= maxDuration).
  { unfold total, maxDuration in *. rewrite Minute_value in *. unfold Second.
    clear total. Z.to_euclidean_division_equations; lia. }
  destruct Ht as [Ht0 Ht1]. unfold maxDuration in Ht1.
  rewrite Minute_value, Hour_value in *.
  assert (Hh : Z.quot (60000000000 * total) 3600000000000 = total / 60)
    by (Z.to_euclidean_division_equations; lia).
  rewrite Hh.
  assert (Hq : 0 <= total / 60 /\ 0 <= total mod 60 < 60 /\
               total = 60 * (total / 60) + total mod 60)
    by (Z.to_euclidean_division_equations; lia).
  destruct Hq as (Hq0 & Hq1 & Hq2).
  rewrite (wrap64_small (total / 60 * 3600000000000)) by lia.
  rewrite wrap64_small by lia.
  assert (Hm : Z.quot (60000000000 * total - total / 60 * 3600000000000)
                 60000000000 = total mod 60)
    by (Z.to_euclidean_division_equations; lia).
  rewrite Hm. unfold showHoursMinutes.
  destruct (0 <? total / 60), (0 <? total mod 60); simpl;
    rewrite ?append_assoc_s; reflexivity.
Qed.

(** [FormatDuration] shows a duration rounded to the nearest minute
    (half a minute rounds up) as hours and minutes, leaving out a part
    that is zero; whatever is below half a minute, negative durations
    included, is shown as [0m]. *)
Theorem FormatDuration_rounds_to_minutes (d : Duration) :
  (0 <= d <= maxDuration - Minute ->
   let total := (d + 30 * Second) / Minute in
   FormatDuration d = showHoursMinutes (total / 60) (total mod 60)) /\
  (minDuration <= d < 30 * Second -> FormatDuration d = "0m"%string).
Proof.
  pose proof (FormatDuration_nonneg d) as Hpos.
  split; [exact Hpos|].
  intros H. destruct (Z_lt_le_dec d 0) as [Hneg|Hnn].
  - assert (Hz : forall r, r <= 0 -> minDuration <= r ->
              (let h := Z.quot r Hour in
               let d' := wrap64 (r - wrap64 (h * Hour)) in
               (0 <? h) = false /\ (0 <? Z.quot d' Minute) = false)).
    { intros r Hr0 Hr1. cbv zeta. unfold minDuration in Hr1.
      rewrite Hour_value, Minute_value.
      assert (Hh : Z.quot r 3600000000000 <= 0 /\
                   - 2 ^ 63 <= Z.quot r 3600000000000 * 3600000000000 <= 0 /\
                   -3600000000000 < r - Z.quot r 3600000000000 * 3600000000000 <= 0)
        by (Z.to_euclidean_division_equations; lia).
      destruct Hh as (Hh0 & Hh1 & Hh2).
      rewrite (wrap64_small (Z.quot r 3600000000000 * 3600000000000)) by lia.
      rewrite wrap64_small by lia.
      split; apply Z.ltb_ge; [lia|].
      Z.to_euclidean_division_equations; lia. }
    unfold FormatDuration.
    destruct (Round_Minute_neg d (conj (proj1 H) Hneg)) as (k & [(E & Hk & Hk')| E]);
      rewrite E.
    + assert (Hm : Minute * k <= 0) by (rewrite Minute_value; lia).
      destruct (Hz (Minute * k) Hm Hk') as [H1 H2]. cbv zeta in H1, H2.
      cbv zeta. rewrite H1, H2. reflexivity.
    + assert (Hm : minDuration <= 0) by (unfold minDuration; lia).
      destruct (Hz minDuration Hm (Z.le_refl _)) as [H1 H2]. cbv zeta in H1, H2.
      cbv zeta. rewrite H1, H2. reflexivity.
  - assert (Hb : 0 <= d <= maxDuration - Minute).
    { unfold maxDuration. rewrite Minute_value. unfold Second in H. lia. }
    rewrite (Hpos Hb). cbv zeta.
    replace ((d + 30 * Second) / Minute) with 0.
    + reflexivity.
    + rewrite Minute_value. unfold Second in *. symmetry.
      apply Z.div_small. lia.
Qed.

Lemma FormatDuration_witness :
  FormatDuration (90 * Minute + 29 * Second) =
  showHoursMinutes ((90 * Minute + 29 * Second + 30 * Second) / Minute / 60)
                   (((90 * Minute + 29 * Second + 30 * Second) / Minute) mod 60).
Proof.
  apply (proj1 (FormatDuration_rounds_to_minutes (90 * Minute + 29 * Second))).
  vm_compute. split; discriminate.
Defined.

(** What the kms command that scans by key shows for some windows. *)
Example FormatDuration_samples :
  FormatDuration (24 * Hour) = "24h"%string /\
  FormatDuration (90 * Minute) = "1h 30m"%string /\
  FormatDuration (5 * Minute + 30 * Second) = "6m"%string /\
  FormatDuration (23 * Hour + 59 * Minute + 59 * Second) = "24h"%string /\
  FormatDuration (-3 * Hour) = "0m"%string.
Proof. vm_compute. repeat split; reflexivity. Qed.

Local Open Scope Z_scope.

Lemma nextYear_start (doe : Z) :
  0 <= doe <= 146096 ->
  let yoe := (doe - doe / 1460 + doe / 36524 - doe / 146096) / 365 in
  doe < 365 * (yoe + 1) + (yoe + 1) / 4 - (yoe + 1) / 100 \/ yoe = 399.
Proof.
  intros H. cbv zeta. Z.to_euclidean_division_equations; lia.
Qed.

Lemma leap_step (yoe : Z) :
  0 <= yoe <= 399 ->
  365 * yoe + yoe / 4 - yoe / 100 + 365 <
    365 * (yoe + 1) + (yoe + 1) / 4 - (yoe + 1) / 100 ->
  (yoe + 1) mod 4 = 0 /\ (yoe + 1) mod 100 <> 0.
Proof.
  intros H. Z.to_euclidean_division_equations; lia.
Qed.

(** The day of a civil date exists in its month. *)
Lemma civilFromDays_valid (days : Z) :
  let '(y, m, d) := civilFromDays days in
  1 <= m <= 12 /\ 1 <= d <= daysIn m y.
Proof.
  civil_setup days.
  destruct (mp <? 10) eqn:Hlt.
  - apply Z.ltb_lt in Hlt.
    replace (mp + 3 <=? 2) with false by (symmetry; apply Z.leb_gt; lia).
    split; [lia|]. split; [lia|].
    unfold daysIn.
    assert (Hcases : mp = 0 \/ mp = 1 \/ mp = 2 \/ mp = 3 \/ mp = 4 \/ mp = 5 \/
                     mp = 6 \/ mp = 7 \/ mp = 8 \/ mp = 9) by lia.
    clear Hyoe. clearbody doy.
    destruct Hcases as [E|[E|[E|[E|[E|[E|[E|[E|[E|E]]]]]]]]];
      rewrite E in *; simpl; unfold mp in E;
      Z.to_euclidean_division_equations; lia.
  - apply Z.ltb_ge in Hlt.
    replace (mp - 9 <=? 2) with true by (symmetry; apply Z.leb_le; lia).
    split; [lia|]. split; [lia|].
    unfold daysIn.
    assert (Hcases : mp = 10 \/ mp = 11) by lia.
    destruct Hcases as [E|E]; rewrite E in *; simpl;
      change (1532 / 5) with 306; change (1685 / 5) with 337.
    + clear Hyoe. clearbody doy. unfold mp in E.
      Z.to_euclidean_division_equations; lia.
    + unfold isLeap.
      assert (Hd29 : doy - 337 + 1 <= 28 \/ doy = 365)
        by (unfold mp in E; clearbody doy; Z.to_euclidean_division_equations; lia).
      destruct Hd29 as [Hle|H365].
      * destruct ((yoe + era * 400 + 1) mod 4 =? 0); simpl;
          [destruct (negb ((yoe + era * 400 + 1) mod 100 =? 0) || ((yoe + era * 400 + 1) mod 400 =? 0))|];
          lia.
      * assert (Hleap : (yoe + era * 400 + 1) mod 4 = 0 /\
                        ((yoe + era * 400 + 1) mod 100 <> 0 \/
                         (yoe + era * 400 + 1) mod 400 = 0)).
        { pose proof (nextYear_start doe Hdoe) as Hnext. cbv zeta in Hnext.
          fold yoe in Hnext. destruct Hnext as [Hnext|H399].
          - assert (Hstep : (yoe + 1) mod 4 = 0 /\ (yoe + 1) mod 100 <> 0).
            { apply (leap_step yoe Hyoe). unfold doy in H365. lia. }
            clear - Hstep. Z.to_euclidean_division_equations; lia.
          - rewrite H399. clear. Z.to_euclidean_division_equations; lia. }
        destruct Hleap as [H4 H100].
        replace ((yoe + era * 400 + 1) mod 4 =? 0) with true
          by (symmetry; apply Z.eqb_eq; exact H4).
        destruct H100 as [H100|H400].
        -- replace ((yoe + era * 400 + 1) mod 100 =? 0) with false
             by (symmetry; apply Z.eqb_neq; exact H100).
           simpl. lia.
        -- replace ((yoe + era * 400 + 1) mod 400 =? 0) with true
             by (symmetry; apply Z.eqb_eq; exact H400).
           rewrite orb_true_r. simpl. lia.
Qed.

(** *** Reading back a printed instant *)

Lemma isDigit_digitChar (a : Z) : 0 <= a <= 9 -> isDigit (digitChar a) = true.
Proof.
  intros H. unfold isDigit. rewrite digitChar_code by assumption.
  apply andb_true_intro. split; apply Nat.leb_le; lia.
Qed.

Lemma digitVal_digitChar (a : Z) : 0 <= a <= 9 -> digitVal (digitChar a) = a.
Proof.
  intros H. unfold digitVal. rewrite digitChar_code by assumption. lia.
Qed.

Lemma getyear_digits (a b c d : Z) (r : string) :
  0 <= a <= 9 -> 0 <= b <= 9 -> 0 <= c <= 9 -> 0 <= d <= 9 ->
  getyear (String (digitChar a) (String (digitChar b)
             (String (digitChar c) (String (digitChar d) r)))) =
  Some (((a * 10 + b) * 10 + c) * 10 + d, r).
Proof.
  intros Ha Hb Hc Hd. unfold getyear.
  rewrite !isDigit_digitChar, !digitVal_digitChar by assumption. reflexivity.
Qed.

Lemma getnum_digits (a b : Z) (r : string) (fixed : bool) :
  0 <= a <= 9 -> 0 <= b <= 9 ->
  getnum (String (digitChar a) (String (digitChar b) r)) fixed =
  Some (a * 10 + b, r).
Proof.
  intros Ha Hb. unfold getnum.
  rewrite !isDigit_digitChar, !digitVal_digitChar by assumption. reflexivity.
Qed.

Lemma cutspace_digit (a : Z) (r : string) :
  0 <= a <= 9 -> cutspace (String (digitChar a) r) = String (digitChar a) r.
Proof.
  intros H.
  assert (E : a = 0 \/ a = 1 \/ a = 2 \/ a = 3 \/ a = 4 \/ a = 5 \/ a = 6 \/
              a = 7 \/ a = 8 \/ a = 9) by lia.
  destruct E as [E|[E|[E|[E|[E|[E|[E|[E|[E|E]]]]]]]]]; subst a; reflexivity.
Qed.

(** The date fields are read back from a printed date, whatever
    follows it. *)
Lemma parseDateFields_formatDate (t : Time) (rest : string) :
  fourDigitYear t ->
  exists y m d,
    calendarDay t = (y, m, d) /\
    parseDateFields (formatDate t ++ rest) = Some (y, m, d, rest).
Proof.
  intros H. destruct (formatDate_chars t H) as (y & m & d & Hc & Hy & Hm & Hd & ->).
  exists y, m, d. split; [exact Hc|].
  cbn [append]. unfold parseDateFields, bind.
  rewrite getyear_digits by (Z.to_euclidean_division_equations; lia).
  change (skipChar (String "-" ?x) "-") with (Some x).
  cbv beta iota.
  rewrite getnum_digits by (Z.to_euclidean_division_equations; lia).
  cbv beta iota.
  replace ((m / 10 * 10 + m mod 10 <=? 0) || (12 <? m / 10 * 10 + m mod 10))
    with false.
  2:{ symmetry. apply orb_false_iff. split; [apply Z.leb_gt|apply Z.ltb_ge];
      Z.to_euclidean_division_equations; lia. }
  cbn [negb guard].
  match goal with |- context [skipChar (String "-" ?x) "-"] =>
    change (skipChar (String "-" x) "-") with (Some x) end.
  cbv beta iota.
  rewrite getnum_digits by (Z.to_euclidean_division_equations; lia).
  cbv beta iota. repeat f_equal; Z.to_euclidean_division_equations; lia.
Qed.

Lemma skipChar_colon (r : string) : skipChar (String ":" r) ":" = Some r.
Proof. reflexivity. Qed.

Lemma skipChar_space (r : string) :
  skipChar (String " " r) " " = Some (cutspace r).
Proof. reflexivity. Qed.

(** The seconds-precision layout reads back what [Format] printed with
    it: the instant, cut to the second. *)
Lemma Parse_formatStamp (t : Time) :
  fourDigitYear t ->
  Parse LayoutSeconds (formatStamp t) = Some (wallSeconds t * Second).
Proof.
  intros H. unfold formatStamp. cbv zeta.
  set (sod := wallSeconds t mod 86400).
  assert (Hsod : 0 <= sod < 86400) by (apply Z.mod_pos_bound; lia).
  rewrite !appendInt_2 by (Z.to_euclidean_division_equations; lia).
  destruct (parseDateFields_formatDate t
    (" " ++ String (digitChar (sod / 3600 / 10))
              (String (digitChar ((sod / 3600) mod 10)) "") ++
     ":" ++ String (digitChar (sod mod 3600 / 60 / 10))
              (String (digitChar ((sod mod 3600 / 60) mod 10)) "") ++
     ":" ++ String (digitChar (sod mod 60 / 10))
              (String (digitChar ((sod mod 60) mod 10)) "")) H)
    as (y & m & d & Hc & Hp).
  unfold Parse, bind. rewrite Hp. cbn [append].
  unfold parseHourMinute, bind.
  rewrite skipChar_space, cutspace_digit by (Z.to_euclidean_division_equations; lia).
  cbv beta iota.
  rewrite getnum_digits by (Z.to_euclidean_division_equations; lia).
  cbv beta iota.
  replace (24 <=? sod / 3600 / 10 * 10 + (sod / 3600) mod 10) with false
    by (symmetry; apply Z.leb_gt; Z.to_euclidean_division_equations; lia).
  cbn [negb guard].
  rewrite skipChar_colon.
  cbv beta iota.
  rewrite getnum_digits by (Z.to_euclidean_division_equations; lia).
  cbv beta iota.
  replace (60 <=? sod mod 3600 / 60 / 10 * 10 + (sod mod 3600 / 60) mod 10) with false
    by (symmetry; apply Z.leb_gt; Z.to_euclidean_division_equations; lia).
  cbn [negb guard]. unfold parseSecond, bind.
  rewrite skipChar_colon.
  cbv beta iota.
  rewrite getnum_digits by (Z.to_euclidean_division_equations; lia).
  cbv beta iota.
  replace (60 <=? sod mod 60 / 10 * 10 + (sod mod 60) mod 10) with false
    by (symmetry; apply Z.leb_gt; Z.to_euclidean_division_equations; lia).
  cbn [negb guard getfraction]. unfold finishParse, bind. cbn [nonEmpty negb guard].
  unfold calendarDay in Hc. fold (dayNumber t) in Hc.
  pose proof (civilFromDays_valid (dayNumber t)) as Hv.
  pose proof (daysFromCivil_civilFromDays (dayNumber t)) as Hr.
  rewrite Hc in Hv, Hr. destruct Hv as [_ Hv].
  replace ((d <? 1) || (daysIn m y <? d)) with false.
  2:{ symmetry. apply orb_false_iff. split; apply Z.ltb_ge; lia. }
  cbn [negb guard]. f_equal. unfold Date. rewrite Hr.
  assert (Hw : wallSeconds t = dayNumber t * 86400 + sod)
    by (unfold sod, dayNumber; Z.to_euclidean_division_equations; lia).
  rewrite Hw. clearbody sod. generalize (dayNumber t). intros n. unfold Second.
  Z.to_euclidean_division_equations; lia.
Qed.

Lemma formatStamp_has_colon (t : Time) :
  fourDigitYear t -> Contains (formatStamp t) ":" = true.
Proof.
  intros H.
  apply (timed_text_has_colon LayoutSeconds _ (wallSeconds t * Second));
    [discriminate|apply Parse_formatStamp; exact H].
Qed.




(** ** Profiles *)

Local Open Scope string_scope.

Lemma HasSuffix_bracket (rest : string) :
  HasSuffix rest "]" = true <-> exists inner, splitLast rest = Some (inner, "]").
Proof.
  induction rest as [|c rest IH].
  - simpl. split; [discriminate|intros [inner H]; discriminate].
  - change (HasSuffix (String c rest) "]")
      with (String.eqb (String c rest) "]" || HasSuffix rest "]").
    split.
    + intros H. apply orb_prop in H. destruct H as [H|H].
      * apply String.eqb_eq in H. injection H as -> ->. exists "". reflexivity.
      * apply IH in H. destruct H as [inner H]. exists (String c inner).
        simpl. rewrite H. reflexivity.
    + intros [inner H]. simpl in H.
      destruct (splitLast rest) as [[f l]|] eqn:E.
      * injection H as <- ->. apply orb_true_iff. right. apply IH.
        exists f. reflexivity.
      * injection H as <- ->. destruct rest; [reflexivity|].
        simpl in E. destruct (splitLast rest) as [[? ?]|]; discriminate.
Qed.

(** The test and the slice of [extractProfiles] amount to matching the
    line against [[text]]: the slice is never out of range. *)
Lemma bracket_test (line : string) :
  if HasPrefix line "[" && HasSuffix line "]"
  then exists inner, sliceInner line = Some inner /\ bracketed line = Some inner
  else bracketed line = None.
Proof.
  destruct line as [|c rest]; [reflexivity|].
  change (HasPrefix (String c rest) "[") with (Ascii.eqb "[" c && HasPrefix rest "").
  rewrite HasPrefix_empty, andb_true_r.
  destruct (Ascii.eqb "[" c) eqn:Ec.
  - apply Ascii.eqb_eq in Ec. subst c.
    change (HasSuffix (String "[" rest) "]")
      with (String.eqb (String "[" rest) "]" || HasSuffix rest "]").
    change (String.eqb (String "[" rest) "]") with false.
    cbn [orb andb].
    destruct (HasSuffix rest "]") eqn:Hs.
    + apply HasSuffix_bracket in Hs. destruct Hs as [inner Hs].
      exists inner. unfold sliceInner, bracketed. rewrite Hs. auto.
    + unfold bracketed. destruct (splitLast rest) as [[inner l]|] eqn:E; [|reflexivity].
      destruct (String.eqb l "]") eqn:El.
      * apply String.eqb_eq in El. subst l.
        assert (HasSuffix rest "]" = true) by (apply HasSuffix_bracket; eauto).
        congruence.
      * apply String.eqb_neq in El.
        destruct l as [|a [|b l]]; try reflexivity;
          destruct a as [b0 b1 b2 b3 b4 b5 b6 b7];
          destruct b0, b1, b2, b3, b4, b5, b6, b7; try reflexivity;
          congruence.
  - cbn [andb]. unfold bracketed.
    destruct c as [b0 b1 b2 b3 b4 b5 b6 b7];
      destruct b0, b1, b2, b3, b4, b5, b6, b7; try reflexivity; discriminate.
Qed.

Lemma collectProfiles_spec (TrimSpace : string -> string) (isConfig : bool)
    (lines : list string) :
  collectProfiles TrimSpace isConfig lines =
  Some (flat_map (profileOfLine TrimSpace isConfig) lines).
Proof.
  induction lines as [|line lines IH]; [reflexivity|].
  cbn [collectProfiles flat_map]. unfold profileOfLine at 1.
  pose proof (bracket_test (TrimSpace line)) as Hb.
  destruct (HasPrefix (TrimSpace line) "[" && HasSuffix (TrimSpace line) "]").
  - destruct Hb as (inner & Hs & Hb). rewrite Hs, Hb, IH. reflexivity.
  - rewrite Hb, IH. reflexivity.
Qed.

(** Whatever the file holds, [extractProfiles] runs to its end (the
    slice [line[1:len-1]] is never out of range) and lists, in file
    order, the text between the brackets of every line that is
    [[text]] once trimmed, without a leading [profile ] for the config
    file. *)
Theorem extractProfiles_lists_bracketed_lines
    (TrimSpace : string -> string) (content : string) (isConfig : bool) :
  extractProfiles TrimSpace content isConfig =
  Some (flat_map (profileOfLine TrimSpace isConfig) (splitOn "010" content)).
Proof. apply collectProfiles_spec. Qed.

(** *** Lines and substrings *)

Lemma splitOn_line (x rest : string) :
  noLF x = true ->
  splitOn "010" (x ++ String "010" rest) = x :: splitOn "010" rest.
Proof.
  induction x as [|c x IH]; intros H.
  - reflexivity.
  - simpl in H. apply andb_prop in H. destruct H as [Hc Hx].
    apply negb_true_iff in Hc. simpl. rewrite Hc, (IH Hx). reflexivity.
Qed.

Lemma splitOn_head (sep : ascii) (s x : string) (xs : list string) :
  splitOn sep s = x :: xs -> exists b, s = x ++ b.
Proof.
  revert x xs. induction s as [|c s IH]; intros x xs H.
  - simpl in H. injection H as <- _. exists "". reflexivity.
  - simpl in H. destruct (Ascii.eqb c sep).
    + injection H as <- _. exists (String c s). reflexivity.
    + destruct (splitOn sep s) as [|y ys] eqn:E.
      * injection H as <- _. exists s. reflexivity.
      * injection H as <- _. destruct (IH y ys eq_refl) as [b ->].
        exists b. reflexivity.
Qed.

Lemma splitOn_substring (sep : ascii) (s line : string) :
  In line (splitOn sep s) -> exists a b, s = a ++ line ++ b.
Proof.
  revert line. induction s as [|c s IH]; intros line H.
  - simpl in H. destruct H as [<-|[]]. exists "", "". reflexivity.
  - simpl in H. destruct (Ascii.eqb c sep).
    + destruct H as [<-|H].
      * exists "", (String c s). reflexivity.
      * destruct (IH line H) as (a & b & ->). exists (String c a), b. reflexivity.
    + destruct (splitOn sep s) as [|x xs] eqn:E.
      * destruct H as [<-|[]]. exists "", s. reflexivity.
      * destruct H as [<-|H].
        -- destruct (splitOn_head _ _ _ _ E) as [b ->].
           exists "", b. reflexivity.
        -- destruct (IH line (or_intror H)) as (a & b & ->).
           exists (String c a), b. reflexivity.
Qed.

Lemma HasPrefix_append (x b : string) : HasPrefix (x ++ b) x = true.
Proof.
  induction x as [|c x IH]; simpl; [apply HasPrefix_empty|].
  rewrite Ascii.eqb_refl, IH. reflexivity.
Qed.

Lemma Contains_of_prefix (s p : string) :
  HasPrefix s p = true -> Contains s p = true.
Proof.
  intros H. destruct s as [|c s].
  - change (Contains "" p) with (HasPrefix "" p || false). rewrite H. reflexivity.
  - change (Contains (String c s) p)
      with (HasPrefix (String c s) p || Contains s p).
    rewrite H. reflexivity.
Qed.

Lemma Contains_substring (a x b : string) : Contains (a ++ x ++ b) x = true.
Proof.
  induction a as [|c a IH]; simpl append.
  - apply Contains_of_prefix, HasPrefix_append.
  - apply Contains_tail, IH.
Qed.

Lemma Contains_nested (s a x b y : string) :
  s = a ++ x ++ b -> Contains x y = true -> Contains s y = true.
Proof.
  intros -> H. induction a as [|c a IH]; simpl append.
  - clear - H. induction x as [|c x IH].
    + destruct y; [destruct b; reflexivity|discriminate].
    + change (Contains (String c x) y)
        with (HasPrefix (String c x) y || Contains x y) in H.
      apply orb_prop in H. destruct H as [H|H].
      * apply Contains_of_prefix. clear - H.
        revert c x H. induction y as [|d y IHy]; intros c x H.
        -- apply HasPrefix_empty.
        -- simpl in H. apply andb_prop in H. destruct H as [H1 H2].
           simpl. rewrite H1. simpl.
           destruct x as [|c' x]; [destruct y; [apply HasPrefix_empty|discriminate]|].
           apply IHy. exact H2.
      * apply Contains_tail. apply IH. exact H.
  - apply Contains_tail, IH.
Qed.

Lemma noLF_append (a b : string) :
  noLF a = true -> noLF b = true -> noLF (a ++ b) = true.
Proof.
  induction a as [|x a IH]; simpl; intros Ha Hb; [assumption|].
  apply andb_prop in Ha. destruct Ha as [Hx Ha]. rewrite Hx. simpl. auto.
Qed.

Lemma bracketed_inv (line inner : string) :
  bracketed line = Some inner -> line = "[" ++ inner ++ "]".
Proof.
  unfold bracketed. destruct line as [|c rest]; [discriminate|].
  destruct (Ascii.eqb c "[") eqn:Ec.
  - apply Ascii.eqb_eq in Ec. subst c.
    destruct (splitLast rest) as [[f l]|] eqn:E; [|discriminate].
    destruct (String.eqb l "]") eqn:El.
    + apply String.eqb_eq in El. subst l. intros H. injection H as ->.
      apply splitLast_inv in E. destruct E as [-> _]. reflexivity.
    + apply String.eqb_neq in El.
      destruct l as [|a [|b l]]; try discriminate;
        destruct a as [b0 b1 b2 b3 b4 b5 b6 b7];
        destruct b0, b1, b2, b3, b4, b5, b6, b7; try discriminate.
      congruence.
  - apply Ascii.eqb_neq in Ec.
    destruct c as [b0 b1 b2 b3 b4 b5 b6 b7];
      destruct b0, b1, b2, b3, b4, b5, b6, b7; try discriminate.
    congruence.
Qed.

Lemma bracketed_brackets (inner : string) :
  bracketed ("[" ++ inner ++ "]") = Some inner.
Proof.
  change ("[" ++ inner ++ "]") with (String "[" (inner ++ String "]" "")).
  cbv beta delta [bracketed] iota. rewrite splitLast_app. reflexivity.
Qed.

Lemma dropChars_append (x b : string) : dropChars (String.length x) (x ++ b) = b.
Proof.
  induction x as [|c x IH]; [destruct b; reflexivity|exact IH].
Qed.

Lemma TrimPrefix_append (x b : string) : TrimPrefix (x ++ b) x = b.
Proof.
  unfold TrimPrefix. rewrite HasPrefix_append. apply dropChars_append.
Qed.

(** *** ASCII trimming *)

Lemma trimLeft_suffix (s : string) : exists a, s = a ++ trimLeft s.
Proof.
  induction s as [|c s [a IH]]; [exists ""; reflexivity|].
  simpl. destruct (isAsciiSpace c).
  - exists (String c a). simpl. rewrite <- IH. reflexivity.
  - exists "". reflexivity.
Qed.

Lemma trimRight_prefix (s : string) : exists b, s = trimRight s ++ b.
Proof.
  induction s as [|c s [b IH]]; [exists ""; reflexivity|].
  simpl. destruct (trimRight s) as [|k kept] eqn:E.
  - destruct (isAsciiSpace c).
    + exists (String c s). reflexivity.
    + exists s. reflexivity.
  - exists b. simpl. simpl in IH. rewrite <- IH. reflexivity.
Qed.

Lemma TrimSpaceASCII_substring (s : string) :
  exists a b, s = a ++ TrimSpaceASCII s ++ b.
Proof.
  unfold TrimSpaceASCII.
  destruct (trimLeft_suffix s) as [a Ha].
  destruct (trimRight_prefix (trimLeft s)) as [b Hb].
  exists a, b. rewrite <- Hb. exact Ha.
Qed.

Lemma trimRight_closing (y : string) : trimRight (y ++ "]") = y ++ "]".
Proof.
  induction y as [|c y IH]; [reflexivity|].
  simpl. rewrite IH. destruct y; reflexivity.
Qed.

Lemma TrimSpaceASCII_bracketed (x : string) :
  TrimSpaceASCII ("[" ++ x ++ "]") = "[" ++ x ++ "]".
Proof.
  unfold TrimSpaceASCII. simpl append. cbn [trimLeft isAsciiSpace].
  change (trimLeft (String "[" (x ++ "]"))) with (String "[" (x ++ "]")).
  exact (trimRight_closing (String "[" x)).
Qed.

(** *** Listing and validating *)

Section ProfileFacts.

Variable TrimSpace : string -> string.

(** A file of section headers, one per name, lists exactly the names,
    in order: as they are for the credentials file and without the
    leading [profile ] for the config file. *)
Theorem extractProfiles_of_sections (names : list string) :
  (forall x, TrimSpace ("[" ++ x ++ "]") = "[" ++ x ++ "]") ->
  TrimSpace "" = "" ->
  (forall n, In n names -> noLF n = true) ->
  extractProfiles TrimSpace (sections "" names) false = Some names /\
  extractProfiles TrimSpace (sections "profile " names) true = Some names.
Proof.
  intros Hb He Hn. unfold extractProfiles. rewrite !collectProfiles_spec.
  assert (Hgen : forall (prefix : string) (isConfig : bool),
            noLF prefix = true ->
            (forall n, (if isConfig then TrimPrefix (prefix ++ n) "profile "
                        else prefix ++ n) = n) ->
            flat_map (profileOfLine TrimSpace isConfig)
              (splitOn "010" (sections prefix names)) = names).
  { intros prefix isConfig Hp Hstrip.
    induction names as [|n names IH].
    - simpl. unfold profileOfLine. rewrite He. reflexivity.
    - cbn [sections].
      replace ("[" ++ prefix ++ n ++ "]" ++ LF ++ sections prefix names)
        with (("[" ++ (prefix ++ n) ++ "]") ++ String "010" (sections prefix names)).
      2:{ unfold LF. cbn [append]. rewrite !append_assoc_s. reflexivity. }
      rewrite splitOn_line.
      + cbn [flat_map]. unfold profileOfLine at 1.
        rewrite Hb, bracketed_brackets, Hstrip.
        rewrite IH; [reflexivity|]. intros m Hm. apply Hn. right. exact Hm.
      + simpl. apply noLF_append.
        * apply noLF_append; [exact Hp|apply Hn; left; reflexivity].
        * reflexivity. }
  split; f_equal.
  - apply Hgen; [reflexivity|]. intros n. reflexivity.
  - apply Hgen; [reflexivity|]. intros n. apply TrimPrefix_append.
Qed.

(** Every profile listed for the credentials file is one that
    [ValidateProfile] accepts, and so is every profile that the config
    file names in a [[profile name]] header. *)
Theorem listed_profiles_validate (homeDir : string) (fs : string -> FileState)
    (content : string) (profiles : list string) (p : string) :
  (forall s, exists a b, s = a ++ TrimSpace s ++ b) ->
  extractProfiles TrimSpace content false = Some profiles ->
  (fs (credentialsPathOf homeDir) = Holds content -> In p profiles ->
   ValidateProfile (inr homeDir) fs p = None) /\
  (fs (configPathOf homeDir) = Holds content -> In ("profile " ++ p) profiles ->
   ValidateProfile (inr homeDir) fs p = None).
Proof.
  intros Hsub Hex. unfold extractProfiles in Hex.
  rewrite collectProfiles_spec in Hex. injection Hex as <-.
  assert (Hin : forall q, In q (flat_map (profileOfLine TrimSpace false)
                                  (splitOn "010" content)) ->
                Contains content ("[" ++ q ++ "]") = true).
  { intros q Hq. apply in_flat_map in Hq. destruct Hq as (line & Hline & Hq).
    unfold profileOfLine in Hq.
    destruct (bracketed (TrimSpace line)) as [inner|] eqn:Eb; [|destruct Hq].
    destruct Hq as [<-|[]]. apply bracketed_inv in Eb.
    destruct (splitOn_substring _ _ _ Hline) as (a & b & Hc).
    destruct (Hsub line) as (a' & b' & Hl).
    apply (Contains_nested content a line b _ Hc).
    rewrite Hl, Eb. apply Contains_substring. }
  unfold ValidateProfile. split; intros Hfs Hp; apply Hin in Hp.
  - rewrite Hfs. cbn [statOK negb andb]. rewrite Hp. reflexivity.
  - assert (Heq : "[profile " ++ p ++ "]" = "[" ++ ("profile " ++ p) ++ "]")
      by reflexivity.
    rewrite Hfs, Heq, Hp. cbn [statOK negb andb]. rewrite andb_false_r.
    destruct (statOK (fs (credentialsPathOf homeDir)) &&
              match fs (credentialsPathOf homeDir) with
              | Holds c => Contains c ("[" ++ p ++ "]")
              | _ => false
              end); reflexivity.
Qed.

End ProfileFacts.

Lemma sections_witness :
  extractProfiles TrimSpaceASCII (sections "" ["default"; "dev"]) false =
    Some ["default"; "dev"] /\
  extractProfiles TrimSpaceASCII (sections "profile " ["default"; "dev"]) true =
    Some ["default"; "dev"].
Proof.
  apply (extractProfiles_of_sections TrimSpaceASCII ["default"; "dev"]
           TrimSpaceASCII_bracketed eq_refl).
  intros n [<-|[<-|[]]]; reflexivity.
Defined.

Lemma listed_witness :
  ValidateProfile (inr "/home/user") sampleHome "dev" = None.
Proof.
  apply (proj1 (listed_profiles_validate TrimSpaceASCII "/home/user" sampleHome
                  sampleCredentials ["default"; "dev"] "dev"
                  TrimSpaceASCII_substring eq_refl)).
  - reflexivity.
  - right. left. reflexivity.
Defined.

(** ** The key test and the filter *)

Section KeyTestFacts.

Variable Unmarshal : string -> option Document.
Variable ToLower : string -> string.

Lemma isKMSEvent_split (e : Event) (k : string) :
  isKMSEvent Unmarshal e k =
  match EventSource e with
  | Some source => String.eqb source "kms.amazonaws.com"
  | None => false
  end && isKMSMatch Unmarshal k e.
Proof.
  unfold isKMSEvent, isKMSMatch, detailHasKey, resourceIsKey.
  destruct (EventSource e) as [source|]; [|reflexivity].
  destruct (String.eqb source "kms.amazonaws.com"); [|reflexivity].
  cbn [andb].
  destruct (existsb _ (rangeResources e)); reflexivity.
Qed.

(** The key test of the scan by key is the key criterion of the filter
    together with a test of the event source.  Every event it accepts
    passes the filter with only that key set; for a non-empty key the
    filter accepts exactly the same events among those of KMS.  The
    filter itself never looks at the source: an event of any other
    service passes it like the same event from KMS. *)
Theorem isKMSEvent_and_the_key_filter (e : Event) (k : string) :
  (isKMSEvent Unmarshal e k = true ->
   matchesFilter Unmarshal ToLower e (keyOnly k) = true) /\
  (nonEmpty k = true ->
   (isKMSEvent Unmarshal e k = true <->
    EventSource e = Some "kms.amazonaws.com" /\
    matchesFilter Unmarshal ToLower e (keyOnly k) = true)) /\
  (forall (f : FilterOptions) (source : option string),
     matchesFilter Unmarshal ToLower (withSource e source) f =
     matchesFilter Unmarshal ToLower e f).
Proof.
  assert (Hf : matchesFilter Unmarshal ToLower e (keyOnly k) =
               negb (nonEmpty k) || isKMSMatch Unmarshal k e).
  { unfold matchesFilter, keyOnly. simpl.
    destruct (nonEmpty k), (isKMSMatch Unmarshal k e); reflexivity. }
  split; [|split].
  - rewrite isKMSEvent_split, Hf. intros H. apply andb_prop in H.
    destruct H as [_ ->]. apply orb_true_r.
  - intros Hk. rewrite isKMSEvent_split, Hf, Hk. cbn [negb orb]. split.
    + intros H. apply andb_prop in H. destruct H as [Hs Hm]. split; [|exact Hm].
      destruct (EventSource e) as [source|]; [|discriminate].
      apply String.eqb_eq in Hs. congruence.
    + intros [Hs Hm]. rewrite Hs, Hm. reflexivity.
  - intros f source. reflexivity.
Qed.

End KeyTestFacts.

Lemma key_filter_witness :
  matchesFilter Json.Unmarshal ToLowerASCII deniedDecrypt (keyOnly "key/abcd") = true.
Proof.
  apply (proj1 (isKMSEvent_and_the_key_filter Json.Unmarshal ToLowerASCII
                  deniedDecrypt "key/abcd")).
  vm_compute. reflexivity.
Defined.

(** ** What a scan leaves in the sink *)

Lemma append_nil_r (s : string) : s ++ "" = s.
Proof. induction s as [|c s IH]; simpl; [reflexivity|rewrite IH; reflexivity]. Qed.

Lemma contents_appendFile (path text : string) (fs : Files) :
  contents path (appendFile path text fs) = contents path fs ++ text.
Proof. unfold contents. rewrite readFile_appendFile. reflexivity. Qed.

Lemma readFile_appendFile_other (p path text : string) (fs : Files) :
  p <> path -> readFile p (appendFile path text fs) = readFile p fs.
Proof.
  intros Hp. induction fs as [|[q c] fs IH]; simpl.
  - destruct (String.eqb path p) eqn:E; [|reflexivity].
    apply String.eqb_eq in E. congruence.
  - destruct (String.eqb q path) eqn:E; simpl.
    + apply String.eqb_eq in E. subst q.
      destruct (String.eqb path p) eqn:E2; [|reflexivity].
      apply String.eqb_eq in E2. congruence.
    + rewrite IH. reflexivity.
Qed.

Lemma recordsWritten_app (render : Event -> string) (fault : nat -> Fault)
    (from : nat) (m1 m2 : list Event) :
  recordsWritten render fault from (m1 ++ m2)%list =
  recordsWritten render fault from m1 ++
  recordsWritten render fault (from + List.length m1) m2.
Proof.
  revert from. induction m1 as [|e m1 IH]; intros from.
  - simpl. rewrite Nat.add_0_r. reflexivity.
  - simpl. rewrite IH, append_assoc_s.
    replace (S from + List.length m1)%nat with (from + S (List.length m1))%nat by lia.
    reflexivity.
Qed.

Section SinkContents.

Variable Unmarshal : string -> option Document.
Variable ToLower : string -> string.
Variable MarshalIndent : Value -> string.
Variable Sprintv : Value -> string.
Variable clock : nat -> Time.
Variable fault : nat -> Fault.
Variable lw : LogWriter.
Variable path : string.

(** The destination does not move during the scan. *)
Hypothesis one_destination : forall n, GetCurrentFile lw (clock n) = path.

Let record := recordOf Unmarshal MarshalIndent Sprintv lw.

Lemma delivered_refl (w : World) :
  delivered Unmarshal record fault path w w [].
Proof.
  unfold delivered. simpl. rewrite append_nil_r, app_nil_r.
  repeat split; auto.
Qed.

Lemma delivered_trans (w1 w2 w3 : World) (m1 m2 : list Event) :
  delivered Unmarshal record fault path w1 w2 m1 ->
  delivered Unmarshal record fault path w2 w3 m2 ->
  delivered Unmarshal record fault path w1 w3 (m1 ++ m2)%list.
Proof.
  unfold delivered. intros (A1 & A2 & A3 & A4) (B1 & B2 & B3 & B4).
  rewrite length_app, recordsWritten_app, map_app.
  split; [lia|]. split; [|split].
  - rewrite B2, A2, A1, append_assoc_s. reflexivity.
  - intros p Hp. rewrite (B3 p Hp). apply A3. exact Hp.
  - rewrite B4, A4, app_assoc. reflexivity.
Qed.

Lemma delivered_say (l : Line) (w : World) :
  isEventLine l = false ->
  delivered Unmarshal record fault path w (say l w) [].
Proof.
  intros Hl. unfold delivered, say. simpl.
  rewrite append_nil_r, filter_app. simpl. rewrite Hl, !app_nil_r.
  repeat split; auto.
Qed.

Lemma delivered_request (w : World) :
  delivered Unmarshal record fault path w (request w) [].
Proof.
  unfold delivered, request. simpl. rewrite append_nil_r, app_nil_r.
  repeat split; auto.
Qed.

Lemma WriteEvent_cases (now : Time) (f : Fault) (e : Event)
    (d : option Document) (fs : Files) :
  WriteEvent MarshalIndent Sprintv lw now f e d fs =
  match f with
  | OpenFails cause => (fs, Some ("failed to open log file: " ++ cause))
  | WriteFails cause =>
      (appendFile (GetCurrentFile lw now) "" fs,
       Some ("failed to write to log file: " ++ cause))
  | NoFault =>
      (appendFile (GetCurrentFile lw now)
         (renderEvent MarshalIndent Sprintv lw e d) fs, None)
  end.
Proof. destruct f; reflexivity. Qed.

Lemma processEvent_delivered (e : Event) (w : World) :
  delivered Unmarshal record fault path w
    (processEvent Unmarshal MarshalIndent Sprintv clock fault lw e w) [e].
Proof.
  unfold delivered, processEvent, record, recordOf, eventLine, detailOf.
  destruct (CloudTrailEvent e) as [raw|] eqn:Hc;
    [destruct (Unmarshal raw) as [d|] eqn:Hu|];
    rewrite WriteEvent_cases, one_destination;
    destruct (fault (writes w)) eqn:Hf; cbn -[appendFile contents readFile];
    rewrite ?Hf; cbn -[appendFile contents readFile];
    rewrite ?filter_app; cbn -[appendFile contents readFile];
    rewrite ?app_nil_r, ?append_nil_r, ?contents_appendFile, ?append_nil_r;
    rewrite ?Hc, ?Hu;
    repeat split; try lia; try reflexivity;
    try (intros p Hp; apply readFile_appendFile_other; exact Hp).
Qed.

Lemma processPage_delivered (filters : FilterOptions) (events : list Event)
    (w : World) (eventCount : nat) :
  delivered Unmarshal record fault path w
    (fst (processPage Unmarshal ToLower MarshalIndent Sprintv clock fault
            lw filters events w eventCount))
    (filter (fun e => matchesFilter Unmarshal ToLower e filters) events).
Proof.
  revert w eventCount. induction events as [|e events IH]; intros w eventCount.
  - apply delivered_refl.
  - simpl. destruct (matchesFilter Unmarshal ToLower e filters); simpl.
    + apply (delivered_trans _ _ _ [e] _ (processEvent_delivered e w)). apply IH.
    + apply IH.
Qed.

Lemma scanPages_delivered (filters : FilterOptions) (pages : Pages)
    (w : World) (eventCount : nat) :
  delivered Unmarshal record fault path w
    (fst (fst (scanPages Unmarshal ToLower MarshalIndent Sprintv clock fault
                 lw filters pages w eventCount)))
    (filter (fun e => matchesFilter Unmarshal ToLower e filters) (received pages)).
Proof.
  revert w eventCount.
  induction pages as [cause retry _|events|events next IH]; intros w eventCount.
  - apply delivered_request.
  - simpl.
    pose proof (processPage_delivered filters events (request w) eventCount) as Hp.
    destruct (processPage _ _ _ _ _ _ _ _ events _ _) as [w' n]. simpl in *.
    apply (delivered_trans _ _ _ [] _ (delivered_request w) Hp).
  - simpl.
    pose proof (processPage_delivered filters events (request w) eventCount) as Hp.
    destruct (processPage _ _ _ _ _ _ _ _ events _ _) as [w1 n1]. simpl in Hp.
    specialize (IH w1 n1). rewrite filter_app.
    apply (delivered_trans _ _ _ _ _
             (delivered_trans _ _ _ [] _ (delivered_request w) Hp) IH).
Qed.


End SinkContents.


(** ** The kms command *)

Lemma bare_is_rejected (Unmarshal : string -> option Document)
    (ToLower : string -> string) (e : Event) (f : FilterOptions) :
  bare e ->
  nonEmpty (KeyID f) || nonEmpty (EventNameF f) || nonEmpty (UserName f) ||
    nonEmpty (Operation f) = true ->
  matchesFilter Unmarshal ToLower e f = false.
Proof.
  intros (Hn & Hu & Hr & Hc) H.
  unfold matchesFilter, isKMSMatch, detailHasKey.
  rewrite Hn, Hu, Hr, Hc. cbn [existsb orb negb andb].
  destruct (nonEmpty (KeyID f)); [reflexivity|].
  destruct (nonEmpty (EventNameF f)); [reflexivity|].
  destruct (nonEmpty (UserName f)); [reflexivity|].
  destruct (nonEmpty (Operation f)); [reflexivity|].
  discriminate.
Qed.

Lemma time_error_kinds (now : Time) (lastN start end_ : string) (err : TimeError) :
  nonEmpty lastN || (nonEmpty start && nonEmpty end_) = true ->
  ValidateAndParseTimeRange now lastN start end_ = Err err ->
  err = ErrLastNWithStartEnd \/ kindOf err <> InvalidArguments.
Proof.
  unfold ValidateAndParseTimeRange. intros Hf H.
  destruct (nonEmpty lastN).
  - destruct (nonEmpty start || nonEmpty end_).
    + left. congruence.
    + right. rewrite (RelativeTimeRange_Err _ _ _ H). discriminate.
  - destruct (nonEmpty start), (nonEmpty end_); try discriminate.
    cbn in H. right.
    pose proof (CustomTimeRange_Err_kind _ _ _ H) as Hk.
    destruct Hk as [Hk|[Hk|[Hk|Hk]]]; rewrite Hk; discriminate.
Qed.

Section CommandFacts.

Variable Unmarshal : string -> option Document.
Variable ToLower : string -> string.
Variable MarshalIndent : Value -> string.
Variable Sprintv : Value -> string.
Variable clock : nat -> Time.
Variable fault : nat -> Fault.
Variable now : Time.
Variable home : string + string.
Variable fs : string -> FileState.
Variable sdk : string -> string -> option string.

(** Flags that pass [PreRunE] give the scan a filter that selects: an
    event without name, user, resources and detail never passes it (the
    filter with nothing set, which lets every event through, is not
    reachable from the command), and the two status flags are not both
    set.  Of the three argument errors of [ValidateAndParseTimeRange]
    only the one for [--last-n] given together with [--start] or
    [--end] can still come back from [runKMS]. *)
Theorem kms_command_scans_with_a_selective_filter (f : Kms.Flags) :
  Kms.PreRunE f = None ->
  (forall e, bare e ->
     matchesFilter Unmarshal ToLower e (Kms.filtersOf f) = false) /\
  ErrorsOnly (Kms.filtersOf f) && SuccessOnly (Kms.filtersOf f) = false /\
  (forall err,
     ValidateAndParseTimeRange now (Kms.lastN f) (Kms.startTime f) (Kms.endTime f)
       = Err err ->
     err <> ErrNoRange /\ err <> ErrStartEndTogether).
Proof.
  unfold Kms.PreRunE. intros H.
  destruct (nonEmpty (Kms.lastN f)) eqn:Hl,
           (nonEmpty (Kms.startTime f)) eqn:Hs,
           (nonEmpty (Kms.endTime f)) eqn:He; cbn [negb andb orb] in H;
    try discriminate;
    (destruct (nonEmpty (Kms.keyID f)) eqn:Hk,
              (nonEmpty (Kms.eventName f)) eqn:Hn,
              (nonEmpty (Kms.userName f)) eqn:Hu,
              (nonEmpty (Kms.operation f)) eqn:Ho; cbn [negb andb orb] in H;
       try discriminate;
     (destruct (Kms.errorsOnly f && Kms.successOnly f) eqn:Hb; [discriminate|];
      split; [|split]; 
      [ intros e Hbare; apply bare_is_rejected; [exact Hbare|];
        cbn [Kms.filtersOf KeyID EventNameF UserName Operation];
        rewrite Hk, Hn, Hu, Ho; reflexivity
      | exact Hb
      | intros err Herr;
        assert (Hf : nonEmpty (Kms.lastN f) ||
                     (nonEmpty (Kms.startTime f) && nonEmpty (Kms.endTime f)) = true)
          by (rewrite Hl, Hs, He; reflexivity);
        destruct (time_error_kinds _ _ _ _ _ Hf Herr) as [->|Hkind];
        split; try discriminate; intros ->; apply Hkind; reflexivity ])).
Qed.

(** The command ends without error exactly when the flags pass
    [PreRunE], the time range resolves, the client comes up (the
    profile is found and the SDK accepts it) and no page request of
    the scan fails; sink faults and details that do not decode play no
    part.  When it fails before the scan, no request was made and no
    file was written. *)
Theorem kms_command_succeeds_iff (f : Kms.Flags) (pages : Pages) (w : World) :
  let run := Kms.execute Unmarshal ToLower MarshalIndent Sprintv clock fault
               now home fs sdk f pages w in
  (snd run = None <->
     Kms.PreRunE f = None /\
     (exists s e, ValidateAndParseTimeRange now (Kms.lastN f) (Kms.startTime f)
                    (Kms.endTime f) = Ok s e) /\
     ValidateProfile home fs (Kms.profile f) = None /\
     sdk (Kms.profile f) (Kms.region f) = None /\
     firstFailure pages = None) /\
  (forall cause, firstFailure pages = Some cause ->
     snd run <> None) /\
  (forall err, snd run = Some err ->
     match err with
     | Kms.ScanError text =>
         exists cause, firstFailure pages = Some cause /\
                       text = ("error looking up events: " ++ cause)%string
     | _ => files (fst run) = files w /\ requests (fst run) = requests w
     end).
Proof.
  cbv zeta. unfold Kms.execute, Kms.runKMS, Kms.NewAWSClient.
  destruct (Kms.PreRunE f) as [text|].
  { simpl. split; [|split].
    - split; [discriminate|]. intros (H & _). discriminate.
    - discriminate.
    - intros err H. injection H as <-. auto. }
  destruct (ValidateAndParseTimeRange now (Kms.lastN f) (Kms.startTime f)
              (Kms.endTime f)) as [s e|terr].
  2:{ simpl. split; [|split].
      - split; [discriminate|]. intros (_ & (s & e & H) & _). discriminate.
      - discriminate.
      - intros err H. injection H as <-. auto. }
  destruct (ValidateProfile home fs (Kms.profile f)) as [perr|].
  { simpl. split; [|split].
    - split; [discriminate|]. intros (_ & _ & H & _). discriminate.
    - discriminate.
    - intros err H. injection H as <-. auto. }
  destruct (sdk (Kms.profile f) (Kms.region f)) as [serr|].
  { simpl. split; [|split].
    - split; [discriminate|]. intros (_ & _ & _ & H & _). discriminate.
    - discriminate.
    - intros err H. injection H as <-. auto. }
  unfold MonitorKMSEvents.
  set (w0 := say _ _).
  pose proof (scanPages_advanced Unmarshal ToLower MarshalIndent Sprintv clock
                fault (Kms.writerOf f) (Kms.filtersOf f) pages w0 0) as Hs.
  cbv zeta in Hs.
  destruct (scanPages _ _ _ _ _ _ _ _ pages _ _) as [[w1 n] result].
  destruct Hs as (Hres & _ & _). subst result.
  destruct (firstFailure pages) as [cause|]; simpl.
  - split; [|split].
    + split; [discriminate|]. intros (_ & _ & _ & _ & H). discriminate.
    + discriminate.
    + intros err H. injection H as <-. exists cause. auto.
  - split; [|split].
    + split; [|reflexivity]. intros _.
      split; [reflexivity|]. split; [exists s, e; reflexivity|]. auto.
    + discriminate.
    + discriminate.
Qed.

End CommandFacts.

Lemma selective_filter_witness :
  matchesFilter Json.Unmarshal ToLowerASCII bareEvent (Kms.filtersOf sampleFlags) = false.
Proof.
  apply (proj1 (kms_command_scans_with_a_selective_filter Json.Unmarshal
                  ToLowerASCII (Date 2024 11 20 12 0 0 0) sampleFlags eq_refl)).
  repeat split.
Defined.

Lemma command_succeeds_witness :
  snd (Kms.execute Json.Unmarshal ToLowerASCII Json.MarshalIndent Json.MarshalIndent
         noonClock firstWriteFails (Date 2024 11 20 12 0 0 0) (inr "/home/user")
         sampleHome acceptingSdk sampleFlags twoPages emptyWorld) = None.
Proof.
  apply (proj1 (kms_command_succeeds_iff Json.Unmarshal ToLowerASCII
                  Json.MarshalIndent Json.MarshalIndent noonClock firstWriteFails
                  (Date 2024 11 20 12 0 0 0) (inr "/home/user") sampleHome
                  acceptingSdk sampleFlags twoPages emptyWorld)).
  split; [reflexivity|]. split.
  - exists (Date 2024 11 20 10 0 0 0), (Date 2024 11 20 12 0 0 0).
    vm_compute. reflexivity.
  - split; [vm_compute; reflexivity|]. split; reflexivity.
Defined.

(** ** The time range line of the command *)

Lemma ValidateAndParseTimeRange_window (now : Time) (lastN start end_ : string)
    (s e : Time) :
  ValidateAndParseTimeRange now lastN start end_ = Ok s e ->
  s <= e /\ e - s <= 24 * Hour.
Proof.
  unfold ValidateAndParseTimeRange.
  destruct (nonEmpty lastN).
  - destruct (nonEmpty start || nonEmpty end_); [discriminate|].
    apply RelativeTimeRange_window.
  - destruct ((nonEmpty start && negb (nonEmpty end_)) ||
              (negb (nonEmpty start) && nonEmpty end_)); [discriminate|].
    destruct (negb (nonEmpty start) && negb (nonEmpty end_)); [discriminate|].
    unfold CustomTimeRange.
    destruct (parseFirst layouts start) as [s0|]; [|discriminate].
    destruct (parseFirst layouts end_) as [e0|]; [|discriminate].
    intros H. apply validateRange_Ok in H. destruct H as (<- & <- & H1 & H2).
    split; assumption.
Qed.

(** For every window the time range is resolved to, the line shows its
    length rounded to the nearest minute, as at most 24 hours, followed
    by its two ends; for a look-back ([--last-n]) the length shown is
    the one asked for, without rounding. *)
Theorem time_range_line_shows_the_window
    (now : Time) (lastN start end_ : string) (s e : Time) :
  ValidateAndParseTimeRange now lastN start end_ = Ok s e ->
  let total := (e - s + 30 * Second) / Minute in
  Kms.timeRangeLine s e =
    ("Time Range: " ++ showHoursMinutes (total / 60) (total mod 60) ++
     " (" ++ (formatStamp s ++ " to " ++ formatStamp e) ++ ")" ++ LF)%string /\
  0 <= total <= 1440 /\
  (lastN <> EmptyString -> 1 <= total /\ e - s = total * Minute).
Proof.
  intros H. cbv zeta.
  pose proof (ValidateAndParseTimeRange_window _ _ _ _ _ _ H) as [Hle Hlen].
  rewrite Hour_value in Hlen.
  assert (Hsub : Sub e s = e - s).
  { unfold Sub, minDuration, maxDuration.
    replace (e - s <? - 2 ^ 63)%Z with false by (symmetry; apply Z.ltb_ge; lia).
    replace (2 ^ 63 - 1 <? e - s)%Z with false by (symmetry; apply Z.ltb_ge; lia).
    reflexivity. }
  split; [|split].
  - unfold Kms.timeRangeLine. rewrite Hsub.
    rewrite FormatDuration_nonneg; [reflexivity|].
    unfold maxDuration. rewrite Minute_value. lia.
  - rewrite Minute_value. unfold Second.
    Z.to_euclidean_division_equations; lia.
  - intros Hne. apply nonEmpty_true in Hne.
    unfold ValidateAndParseTimeRange in H. rewrite Hne in H.
    destruct (nonEmpty start || nonEmpty end_); [discriminate|].
    apply RelativeTimeRange_Ok in H.
    destruct H as (digits & unit_ & _ & -> & [(_ & Hr & ->)|(_ & Hr & ->)]);
      rewrite ?Hour_value, ?Minute_value; unfold Second;
      Z.to_euclidean_division_equations; lia.
Qed.

Lemma time_range_line_witness :
  Kms.timeRangeLine (Date 2024 11 20 0 0 0 0) (Date 2024 11 20 23 59 59 0) =
    ("Time Range: 24h (2024-11-20 00:00:00 to 2024-11-20 23:59:59)" ++ LF)%string.
Proof.
  apply (proj1 (time_range_line_shows_the_window 0 "" "2024-11-20" "2024-11-20"
                  (Date 2024 11 20 0 0 0 0) (Date 2024 11 20 23 59 59 0)
                  ltac:(vm_compute; reflexivity))).
Defined.

(** ** Listing the config file and validating against it *)

Lemma HasPrefix_header (n q t : string) :
  noBracket n = true -> noBracket q = true ->
  HasPrefix (n ++ String "]" t) (q ++ "]") = true -> n = q.
Proof.
  revert n. induction q as [|d q IH]; intros n Hn Hq H.
  - destruct n as [|c n]; [reflexivity|].
    cbn [append HasPrefix] in H. apply andb_prop in H. destruct H as [Hc _].
    apply Ascii.eqb_eq in Hc. subst c. discriminate.
  - cbn [noBracket] in Hq. apply andb_prop in Hq. destruct Hq as [Hd Hq].
    apply andb_prop in Hd. destruct Hd as [_ Hd].
    destruct n as [|c n].
    + cbn [append HasPrefix] in H. apply andb_prop in H. destruct H as [Hc _].
      rewrite Hc in Hd. discriminate.
    + cbn [noBracket] in Hn. apply andb_prop in Hn. destruct Hn as [_ Hn].
      cbn [append HasPrefix] in H. apply andb_prop in H. destruct H as [Hc H].
      apply Ascii.eqb_eq in Hc. subst c. f_equal. exact (IH n Hn Hq H).
Qed.

Lemma Contains_skip_char (c : ascii) (s p : string) :
  Ascii.eqb c "[" = false ->
  Contains (String c s) (String "[" p) = Contains s (String "[" p).
Proof.
  intros Hc.
  change (Contains (String c s) (String "[" p))
    with (HasPrefix (String c s) (String "[" p) || Contains s (String "[" p)).
  cbn [HasPrefix]. rewrite Ascii.eqb_sym, Hc. reflexivity.
Qed.

Lemma Contains_skip_name (n s p : string) :
  noBracket n = true ->
  Contains (n ++ s) (String "[" p) = Contains s (String "[" p).
Proof.
  induction n as [|c n IH]; intros Hn; [reflexivity|].
  cbn [noBracket] in Hn. apply andb_prop in Hn. destruct Hn as [Hc Hn].
  apply andb_prop in Hc. destruct Hc as [Hc _]. apply negb_true_iff in Hc.
  cbn [append]. rewrite (Contains_skip_char c _ _ Hc). exact (IH Hn).
Qed.

Lemma sections_cons (n : string) (names : list string) :
  sections "" (n :: names) =
  String "[" (n ++ String "]" (String "010" (sections "" names))).
Proof. reflexivity. Qed.

(** A file of bracket-free headers holds the header of a name exactly
    when the name is one of them. *)
Lemma Contains_sections (names : list string) (q : string) :
  (forall n, In n names -> noBracket n = true) -> noBracket q = true ->
  (Contains (sections "" names) ("[" ++ q ++ "]") = true <-> In q names).
Proof.
  intros Hn Hq. induction names as [|n names IH].
  - split; [discriminate|intros []].
  - assert (Hn' : forall m, In m names -> noBracket m = true)
      by (intros m Hm; apply Hn; right; exact Hm).
    assert (Hn0 : noBracket n = true) by (apply Hn; left; reflexivity).
    specialize (IH Hn').
    rewrite sections_cons.
    change ("[" ++ q ++ "]") with (String "[" (q ++ "]")) in *.
    change (Contains (String "[" (n ++ String "]" (String "010" (sections "" names))))
              (String "[" (q ++ "]")))
      with (HasPrefix (String "[" (n ++ String "]" (String "010" (sections "" names))))
              (String "[" (q ++ "]")) ||
            Contains (n ++ String "]" (String "010" (sections "" names)))
              (String "[" (q ++ "]"))).
    rewrite (Contains_skip_name n _ _ Hn0).
    rewrite (Contains_skip_char "]" _ _ eq_refl).
    rewrite (Contains_skip_char "010" _ _ eq_refl).
    cbn [HasPrefix]. rewrite Ascii.eqb_refl. cbn [andb]. split.
    + intros H. apply orb_prop in H. destruct H as [H|H].
      * left. exact (HasPrefix_header n q _ Hn0 Hq H).
      * right. apply IH. exact H.
    + intros [->|H].
      * change (String "]" (String "010" (sections "" names)))
          with ("]" ++ String "010" (sections "" names)).
        rewrite <- append_assoc_s, HasPrefix_append. reflexivity.
      * apply IH in H. rewrite H. apply orb_true_r.
Qed.

Section ConfigFacts.

Variable TrimSpace : string -> string.

Lemma profiles_of_sections (isConfig : bool) (names : list string) :
  (forall x, TrimSpace ("[" ++ x ++ "]") = "[" ++ x ++ "]") ->
  TrimSpace "" = "" ->
  (forall n, In n names -> noLF n = true) ->
  flat_map (profileOfLine TrimSpace isConfig) (splitOn "010" (sections "" names)) =
  map (fun n => if isConfig then TrimPrefix n "profile " else n) names.
Proof.
  intros Hb He Hn. induction names as [|n names IH].
  - simpl. unfold profileOfLine. rewrite He. reflexivity.
  - rewrite sections_cons.
    change (String "[" (n ++ String "]" (String "010" (sections "" names))))
      with ("[" ++ (n ++ String "]" (String "010" (sections "" names)))).
    replace ("[" ++ (n ++ String "]" (String "010" (sections "" names))))
      with (("[" ++ n ++ "]") ++ String "010" (sections "" names)).
    2:{ cbn [append]. f_equal. rewrite append_assoc_s. reflexivity. }
    rewrite splitOn_line.
    + cbn [flat_map map]. unfold profileOfLine at 1.
      rewrite Hb, bracketed_brackets.
      rewrite IH; [reflexivity|]. intros m Hm. apply Hn. right. exact Hm.
    + simpl. apply noLF_append; [apply Hn; left; reflexivity|reflexivity].
Qed.

(** With no credentials file and a config file of section headers,
    [extractProfiles] lists every header (less a leading [profile ]),
    while [ValidateProfile] accepts a name only if the file has the
    header [[profile name]]: a profile under a plain header such as
    [[default]] is listed as available and rejected as not found. *)
Theorem config_headers_are_listed_but_not_validated
    (homeDir : string) (fs : string -> FileState) (names : list string)
    (p : string) :
  (forall x, TrimSpace ("[" ++ x ++ "]") = "[" ++ x ++ "]") ->
  TrimSpace "" = "" ->
  (forall n, In n names -> noLF n = true /\ noBracket n = true) ->
  noBracket p = true ->
  fs (credentialsPathOf homeDir) = NoStat ->
  fs (configPathOf homeDir) = Holds (sections "" names) ->
  extractProfiles TrimSpace (sections "" names) true =
    Some (map (fun n => TrimPrefix n "profile ") names) /\
  (ValidateProfile (inr homeDir) fs p = None <-> In ("profile " ++ p) names) /\
  (In p names -> HasPrefix p "profile " = false ->
   ~ In ("profile " ++ p) names ->
   In p (map (fun n => TrimPrefix n "profile ") names) /\
   ValidateProfile (inr homeDir) fs p = Some (ErrProfileNotFound p)).
Proof.
  intros Hb He Hn Hp Hcred Hconf.
  assert (Hlist : extractProfiles TrimSpace (sections "" names) true =
                  Some (map (fun n => TrimPrefix n "profile ") names)).
  { unfold extractProfiles. rewrite collectProfiles_spec. f_equal.
    apply (profiles_of_sections true); [exact Hb|exact He|].
    intros n Hin. apply (Hn n Hin). }
  assert (Hq : noBracket ("profile " ++ p) = true) by (simpl; exact Hp).
  assert (Hc : Contains (sections "" names) ("[profile " ++ p ++ "]") = true <->
               In ("profile " ++ p) names).
  { change ("[profile " ++ p ++ "]") with ("[" ++ ("profile " ++ p) ++ "]").
    apply Contains_sections; [|exact Hq]. intros n Hin. apply (Hn n Hin). }
  assert (Hv : ValidateProfile (inr homeDir) fs p =
               if Contains (sections "" names) ("[profile " ++ p ++ "]")
               then None else Some (ErrProfileNotFound p)).
  { unfold ValidateProfile. rewrite Hcred, Hconf. reflexivity. }
  split; [exact Hlist|]. split.
  - rewrite Hv. rewrite <- Hc.
    destruct (Contains (sections "" names) ("[profile " ++ p ++ "]"));
      split; congruence.
  - intros Hin Hpre Hnot. split.
    + apply in_map_iff. exists p. split; [|exact Hin].
      unfold TrimPrefix. rewrite Hpre. reflexivity.
    + rewrite Hv.
      destruct (Contains (sections "" names) ("[profile " ++ p ++ "]")) eqn:E;
        [|reflexivity].
      exfalso. apply Hnot, Hc. reflexivity.
Qed.

End ConfigFacts.

Lemma config_headers_witness :
  In "default" (map (fun n => TrimPrefix n "profile ") ["default"]) /\
  ValidateProfile (inr "/home/user") configOnlyHome "default" =
    Some (ErrProfileNotFound "default").
Proof.
  apply (proj2 (proj2 (config_headers_are_listed_but_not_validated
                         TrimSpaceASCII "/home/user" configOnlyHome ["default"]
                         "default" TrimSpaceASCII_bracketed eq_refl
                         ltac:(intros n [<-|[]]; split; reflexivity)
                         eq_refl eq_refl eq_refl))).
  - left. reflexivity.
  - reflexivity.
  - intros [H|[]]. discriminate.
Defined.
